(** * Task report dashboard: normalisation and aggregation pipeline

    A shallow embedding of the decision logic of the dashboard's [App]
    component (column resolution, row normalisation, the grouped listing,
    the workload histogram, the two-week comparison and the report
    serialiser) together with the properties the specification states
    about it.

    Conventions of the embedding.
    - A JavaScript string is a Rocq [string]; the character classes of the
      regular expressions ([\s], [\d], [[A-Z]] under the [i] flag) and the
      case conversions are the ASCII ones.  Text outside ASCII is carried
      along unchanged and is never classified as white space, digit or
      letter.
    - A JavaScript number is a [JSNum]: NaN, an infinity, or the exact
      rational value of a finite double; [Number(text)] rounds the decimal
      it reads to the nearest double.  The conversion of a number to text is
      not modelled: a numeric cell carries the text [String()] prints for
      it.
    - A [Map] that is only read through [get] is a [gmap]; a [Map] whose
      [entries()] are enumerated keeps its insertion order as an association
      list ([JsMap]); a [Set] used for [has]/[add] is a [gset].
    - [localeCompare] is a parameter of the sorting views, and
      [Array.prototype.sort] is a stable insertion sort, which is what every
      engine computes for a consistent comparator.
    - The sources hold three variants of the component.  The embedding
      follows the first one; of the second one (multi-week selection and
      manager tab) it has the listing's warning and the reminder rows, in
      [MultiWeek], and the workload and carry-over tables of the manager
      tab, in [ManagerTab]. *)

From Stdlib Require Import ZArith QArith Qround String Ascii List Permutation Sorted Lia.
From Stdlib Require OrderedTypeEx.
From stdpp Require Import gmap strings list fin_maps.
Import ListNotations.

Local Open Scope string_scope.
Local Open Scope Z_scope.

(** ** JavaScript built-ins used by the component *)

Module Js.

(** *** Character classes *)

Definition code (c : ascii) : Z := Z.of_N (N_of_ascii c).

(** [\s], restricted to ASCII: TAB, LF, VT, FF, CR and SPACE. *)
Definition isSpace (c : ascii) : bool :=
  let n := code c in ((9 <=? n) && (n <=? 13)) || (n =? 32).

(** [\d] *)
Definition isDigit (c : ascii) : bool :=
  let n := code c in (48 <=? n) && (n <=? 57).

Definition isUpper (c : ascii) : bool :=
  let n := code c in (65 <=? n) && (n <=? 90).

Definition isLower (c : ascii) : bool :=
  let n := code c in (97 <=? n) && (n <=? 122).

(** [[A-Z]] under the [i] flag *)
Definition isLetter (c : ascii) : bool := isUpper c || isLower c.

(** [[A-Z0-9]] under the [i] flag *)
Definition isAlnum (c : ascii) : bool := isLetter c || isDigit c.

Definition lowerChar (c : ascii) : ascii :=
  if isUpper c then ascii_of_N (N_of_ascii c + 32) else c.

Definition upperChar (c : ascii) : ascii :=
  if isLower c then ascii_of_N (N_of_ascii c - 32) else c.

Definition digitVal (c : ascii) : Z := code c - 48.

(** *** String methods *)

Fixpoint mapChars (f : ascii -> ascii) (s : string) : string :=
  match s with
  | EmptyString => EmptyString
  | String c r => String (f c) (mapChars f r)
  end.

Definition toLowerCase : string -> string := mapChars lowerChar.
Definition toUpperCase : string -> string := mapChars upperChar.

(** [s.replace(/[...]/g, "")] for a one-character class: drop the members. *)
Fixpoint dropChars (p : ascii -> bool) (s : string) : string :=
  match s with
  | EmptyString => EmptyString
  | String c r => if p c then dropChars p r else String c (dropChars p r)
  end.

Fixpoint trimStart (s : string) : string :=
  match s with
  | EmptyString => EmptyString
  | String c r => if isSpace c then trimStart r else s
  end.

(** Drop trailing white space: a character is kept when something that is
    kept follows it, or when it is not white space itself. *)
Fixpoint trimEnd (s : string) : string :=
  match s with
  | EmptyString => EmptyString
  | String c r =>
      match trimEnd r with
      | EmptyString => if isSpace c then EmptyString else String c EmptyString
      | r' => String c r'
      end
  end.

Definition trim (s : string) : string := trimEnd (trimStart s).

(** [s.includes(c)] for a one-character needle *)
Fixpoint includesChar (c : ascii) (s : string) : bool :=
  match s with
  | EmptyString => false
  | String d r => Ascii.eqb c d || includesChar c r
  end.

(** [xs.join(sep)] *)
Fixpoint join (sep : string) (xs : list string) : string :=
  match xs with
  | [] => ""
  | [x] => x
  | x :: rest => x ++ sep ++ join sep rest
  end.

(** [a || b] on strings: the empty string is the only falsy one. *)
Definition orElse (a b : string) : string :=
  if String.eqb a "" then b else a.

(** [s.padStart(2, "0")] *)
Definition padStart2 (s : string) : string :=
  match s with
  | EmptyString => "00"
  | String c EmptyString => String "0" s
  | _ => s
  end.

(** [String(n)] for a non-negative integer below 100, the only integers the
    week arithmetic prints. *)
Definition digitChar (d : Z) : ascii := ascii_of_N (Z.to_N (48 + d)).

Definition smallNatToString (n : Z) : string :=
  if n <? 10 then String (digitChar n) EmptyString
  else String (digitChar (n / 10)) (String (digitChar (n mod 10)) EmptyString).

(** [s.split(/[...]+/)] for a one-character class [sep]: the pieces between
    maximal runs of separators.  A run at the very start or the very end
    yields an empty first or last piece, and the empty string splits into
    one empty piece, as in JavaScript. *)
Fixpoint splitRunsAux (sep : ascii -> bool) (inRun : bool) (s : string)
  : string * list string :=
  match s with
  | EmptyString => ("", [])
  | String c r =>
      if sep c then
        let '(cur, rest) := splitRunsAux sep true r in
        if inRun then (cur, rest) else ("", cur :: rest)
      else
        let '(cur, rest) := splitRunsAux sep false r in
        (String c cur, rest)
  end.

Definition splitRuns (sep : ascii -> bool) (s : string) : list string :=
  let '(cur, rest) := splitRunsAux sep false s in cur :: rest.

(** *** [Set] and [Array.from(new Set(xs))]: first occurrences, in order *)

Fixpoint dedupAux (seen : list string) (xs : list string) : list string :=
  match xs with
  | [] => []
  | x :: r =>
      if existsb (String.eqb x) seen then dedupAux seen r
      else x :: dedupAux (x :: seen) r
  end.

Definition dedup (xs : list string) : list string := dedupAux [] xs.

(** [xs.includes(x)] on an array of strings *)
Definition includes (x : string) (xs : list string) : bool :=
  existsb (String.eqb x) xs.

(** [s] cut after its longest prefix of characters of class [p] *)
Fixpoint span (p : ascii -> bool) (s : string) : string * string :=
  match s with
  | String c r =>
      if p c then let '(a, b) := span p r in (String c a, b) else ("", s)
  | EmptyString => ("", "")
  end.

(** *** [Map] with enumerated entries: an association list in insertion
    order, one entry per key *)

Definition JsMap (V : Type) : Type := list (string * V).

Fixpoint mapGet {V : Type} (k : string) (m : JsMap V) : option V :=
  match m with
  | [] => None
  | (k', v) :: r => if String.eqb k k' then Some v else mapGet k r
  end.

(** [m.set(k, v)]: an existing key keeps its position, a new one goes last. *)
Fixpoint mapSet {V : Type} (k : string) (v : V) (m : JsMap V) : JsMap V :=
  match m with
  | [] => [(k, v)]
  | (k', v') :: r =>
      if String.eqb k k' then (k', v) :: r else (k', v') :: mapSet k v r
  end.

(** *** [Array.prototype.sort] with a comparator: a stable sort, an element
    staying in front of those it does not compare greater than *)

Fixpoint insertBy {A : Type} (cmp : A -> A -> Z) (x : A) (l : list A) : list A :=
  match l with
  | [] => [x]
  | y :: r => if cmp x y <=? 0 then x :: l else y :: insertBy cmp x r
  end.

Fixpoint sortBy {A : Type} (cmp : A -> A -> Z) (l : list A) : list A :=
  match l with
  | [] => []
  | x :: r => insertBy cmp x (sortBy cmp r)
  end.

(** [a || b] on comparator results: the first one that is not zero *)
Definition orZ (a b : Z) : Z := if a =? 0 then b else a.

(** *** Numbers *)

(** A JavaScript number: NaN, an infinity, or a finite value given by its
    exact rational value (the two zeros are not told apart). *)
Inductive JSNum : Type :=
| NaN
| Inf (negative : bool)
| Fin (q : Q).


(** [Math.round] on a finite value: the nearest integer, a tie going
    towards plus infinity. *)
Definition mathRound (q : Q) : Z := Qfloor (q + (1 # 2)).

(** Round-to-nearest, ties-to-even, of the non-negative fraction [n / d]. *)
Definition roundHalfEven (n d : Z) : Z :=
  let q := n / d in
  let r := n mod d in
  if 2 * r <? d then q
  else if d <? 2 * r then q + 1
  else if Z.even q then q else q + 1.

(** The integer part of the binary logarithm of [n / d], for [n, d > 0]. *)
Definition floorLog2 (n d : Z) : Z :=
  let e := Z.log2 n - Z.log2 d in
  let below := if 0 <=? e then n <? d * 2 ^ e else n * 2 ^ (- e) <? d in
  if below then e - 1 else e.

(** The double nearest to the positive fraction [n / d] (binary64: 53
    significant bits, least exponent -1074, overflow to infinity). *)
Definition toDoublePos (n d : Z) : JSNum :=
  let e := floorLog2 n d in
  let p := Z.max (e - 52) (-1074) in
  if 0 <=? p then
    let m := roundHalfEven n (d * 2 ^ p) in
    if 2 ^ 1024 <=? m * 2 ^ p then Inf false else Fin (inject_Z (m * 2 ^ p))
  else
    let m := roundHalfEven (n * 2 ^ (- p)) d in
    Fin (Qmake m (Z.to_pos (2 ^ (- p)))).

Definition negate (x : JSNum) : JSNum :=
  match x with
  | NaN => NaN
  | Inf b => Inf (negb b)
  | Fin q => Fin (- q)
  end.

(** The double denoted by the decimal [m * 10^e], [m >= 0]. *)
Definition decimalToDouble (m e : Z) : JSNum :=
  if m =? 0 then Fin 0
  else if 0 <=? e then toDoublePos (m * 10 ^ e) 1
  else toDoublePos m (10 ^ (- e)).

(** A maximal run of leading characters of class [p], read in base [base]:
    its value, its length and what follows it. *)
Fixpoint readDigits (p : ascii -> bool) (val : ascii -> Z) (base : Z)
  (acc : Z) (len : Z) (s : string) : Z * Z * string :=
  match s with
  | String c r =>
      if p c then readDigits p val base (acc * base + val c) (len + 1) r
      else (acc, len, s)
  | EmptyString => (acc, len, s)
  end.

Definition isHexDigit (c : ascii) : bool :=
  let n := code (lowerChar c) in isDigit c || ((97 <=? n) && (n <=? 102)).

Definition hexVal (c : ascii) : Z :=
  if isDigit c then digitVal c else code (lowerChar c) - 87.

Definition isOctDigit (c : ascii) : bool :=
  let n := code c in (48 <=? n) && (n <=? 55).

Definition isBinDigit (c : ascii) : bool :=
  let n := code c in (48 <=? n) && (n <=? 49).

(** [0x..], [0o..], [0b..]: at least one digit and nothing after the run. *)
Definition radixLiteral (p : ascii -> bool) (val : ascii -> Z) (base : Z)
  (s : string) : JSNum :=
  match readDigits p val base 0 0 s with
  | (v, len, EmptyString) =>
      if 0 <? len then (if v =? 0 then Fin 0 else toDoublePos v 1) else NaN
  | _ => NaN
  end.

(** The exponent part [[eE][+-]?\d+] that may close a decimal literal;
    [None] when what is left is not one. *)
Definition exponentPart (s : string) : option Z :=
  match s with
  | EmptyString => Some 0
  | String c r =>
      if Ascii.eqb (lowerChar c) "e" then
        let '(neg, r1) :=
          match r with
          | String "-" r' => (true, r')
          | String "+" r' => (false, r')
          | _ => (false, r)
          end in
        match readDigits isDigit digitVal 10 0 0 r1 with
        | (v, len, EmptyString) =>
            if 0 <? len then Some (if neg then - v else v) else None
        | _ => None
        end
      else None
  end.

(** An unsigned decimal literal: [Infinity], [d+], [d+.d*], [.d+], each of
    the last three with an optional exponent. *)
Definition unsignedDecimal (s : string) : JSNum :=
  if String.eqb s "Infinity" then Inf false
  else
    let '(ip, ilen, r1) := readDigits isDigit digitVal 10 0 0 s in
    let '(fp, flen, r2) :=
      match r1 with
      | String "." r => readDigits isDigit digitVal 10 ip 0 r
      | _ => (ip, 0, r1)
      end in
    if 0 <? ilen + flen then
      match exponentPart r2 with
      | Some e => decimalToDouble fp (e - flen)
      | None => NaN
      end
    else NaN.

(** [Number(s)] for a string [s] (StringToNumber): white space is trimmed,
    the empty string is 0, anything that is not a numeric literal is NaN. *)
Definition stringToNumber (s : string) : JSNum :=
  match trim s with
  | EmptyString => Fin 0
  | String "0" (String x r) =>
      if Ascii.eqb (lowerChar x) "x" then radixLiteral isHexDigit hexVal 16 r
      else if Ascii.eqb (lowerChar x) "o" then radixLiteral isOctDigit digitVal 8 r
      else if Ascii.eqb (lowerChar x) "b" then radixLiteral isBinDigit digitVal 2 r
      else unsignedDecimal (trim s)
  | String "-" r => negate (unsignedDecimal r)
  | String "+" r => unsignedDecimal r
  | t => unsignedDecimal t
  end.

End Js.

(** ** The component *)

Import Js.

(** *** Data model *)

(** A cell of a decoded sheet: a trimmed text or a number; a number comes
    with the text [String()] prints for it. *)
Inductive Cell : Type :=
| CStr (s : string)
| CNum (n : JSNum) (shown : string).

(** [RawRow]: header text to cell, in [Object.keys] order. *)
Definition RawRow : Type := list (string * Cell).

(** [row[col]]; [None] is [undefined]. *)
Definition cellAt (row : RawRow) (col : string) : option Cell := mapGet col row.

(** [String(value ?? "")] *)
Definition toText (value : option Cell) : string :=
  match value with
  | None => ""
  | Some (CStr s) => s
  | Some (CNum _ shown) => shown
  end.

(** [Number(value)] *)
Definition toNumber (value : option Cell) : JSNum :=
  match value with
  | None => NaN
  | Some (CStr s) => stringToNumber s
  | Some (CNum n _) => n
  end.

(** Truthiness of a cell: [undefined], the empty text, zero and NaN are
    falsy. *)
Definition truthy (value : option Cell) : bool :=
  match value with
  | None => false
  | Some (CStr s) => negb (String.eqb s "")
  | Some (CNum (Fin q) _) => negb (Qeq_bool q 0)
  | Some (CNum NaN _) => false
  | Some (CNum (Inf _) _) => true
  end.

(** [String(value || dflt)] *)
Definition textOr (value : option Cell) (dflt : string) : string :=
  if truthy value then toText value else dflt.

Inductive Status : Type := open | inprogress | done | other.

#[global] Instance Status_eq_dec : EqDecision Status.
Proof. solve_decision. Defined.

Definition Status_eqb (a b : Status) : bool := bool_decide (a = b).

Record Task : Type := mkTask {
  taskId : string;
  taskUrl : string;
  issueType : string;
  assignee : string;
  storyPoint : Z;
  name : string;
  weeks : list string;
  epicLink : string;
  module : string;
  status : Status
}.

(** The logical fields of [COLUMN_ALIASES]. *)
Inductive Field : Type :=
| FTaskId | FIssueType | FAssignee | FStoryPoint | FName | FLabels
| FEpicLink | FModule | FStatus.

Definition COLUMN_ALIASES (f : Field) : list string :=
  match f with
  | FTaskId => ["key"; "taskid"; "task id"; "id"; "ticketid"; "jiraid"]
  | FIssueType => ["issuetype"; "issue type"; "type"]
  | FAssignee => ["assignee"]
  | FStoryPoint => ["storypoints"; "story points"; "storypoint"; "story point"]
  | FName => ["summary"; "name"; "taskname"; "task name"]
  | FLabels => ["labels"; "label"]
  | FEpicLink => ["epiclink"; "epic link"; "epic"]
  | FModule => ["modulename"; "module name"; "module"; "project"; "projectname"]
  | FStatus => ["status"; "state"]
  end.

(** *** Column resolver *)

Definition isSeparatorChar (c : ascii) : bool :=
  Ascii.eqb c "_" || isSpace c || Ascii.eqb c "-".

Definition normalizeText (value : string) : string :=
  trim (dropChars isSeparatorChar (toLowerCase value)).

Definition detectColumn (columns : list string) (aliases : list string) : string :=
  let normalizedAliases := List.map normalizeText aliases in
  match List.find (fun column => includes (normalizeText column) normalizedAliases) columns with
  | Some column => column
  | None => ""
  end.

(** *** Row normaliser *)

Definition normalizeStatus (value : option Cell) : Status :=
  let v := dropChars isSpace (toLowerCase (toText value)) in
  if String.eqb v "open" || String.eqb v "todo" || String.eqb v "to-do"
     || String.eqb v "new" || String.eqb v "backlog" then open
  else if String.eqb v "inprogress" || String.eqb v "in-progress"
     || String.eqb v "doing" || String.eqb v "progress" then inprogress
  else if String.eqb v "done" || String.eqb v "closed" then done
  else other.

(** The class of square brackets and the double quote *)
Definition isBracketOrQuote (c : ascii) : bool :=
  Ascii.eqb c "[" || Ascii.eqb c "]" || Ascii.eqb c "034".

(** [/[;,|\s]/] *)
Definition isLabelSeparator (c : ascii) : bool :=
  Ascii.eqb c ";" || Ascii.eqb c "," || Ascii.eqb c "|" || isSpace c.

(** [/^W\d{1,2}$/] *)
Definition isWeekCode (item : string) : bool :=
  match item with
  | String "W" (String d1 EmptyString) => isDigit d1
  | String "W" (String d1 (String d2 EmptyString)) => isDigit d1 && isDigit d2
  | _ => false
  end.

Definition parseWeekLabels (value : option Cell) : list string :=
  let raw := mapChars (fun c => if isBracketOrQuote c then " "%char else c) (toText value) in
  let weeks :=
    List.filter isWeekCode
      (List.map (fun item => toUpperCase (trim item)) (splitRuns isLabelSeparator raw)) in
  dedup weeks.

Definition storyPointValue (value : option Cell) : Z :=
  match toNumber value with
  | Fin n => Z.max 1 (Z.min 5 (mathRound n))
  | _ => 0
  end.

(** [week.match(/^W(\d{1,2})$/i)], with the captured digits read as a
    number. *)
Definition weekNumber (week : string) : option Z :=
  match week with
  | String w (String d1 EmptyString) =>
      if Ascii.eqb (upperChar w) "W" && isDigit d1 then Some (digitVal d1) else None
  | String w (String d1 (String d2 EmptyString)) =>
      if Ascii.eqb (upperChar w) "W" && isDigit d1 && isDigit d2
      then Some (10 * digitVal d1 + digitVal d2) else None
  | _ => None
  end.

Definition weekIndex (week : string) : Z :=
  match weekNumber week with
  | Some n => n
  | None => 999
  end.

Definition previousWeek (week : string) : string :=
  match weekNumber week with
  | None => ""
  | Some n => if n <=? 1 then "" else "W" ++ padStart2 (smallNatToString (n - 1))
  end.

Definition statusIndex (status : Status) : Z :=
  match status with
  | open => 0
  | inprogress => 1
  | done => 2
  | other => 3
  end.

(** [/https?:\/\//i] at the head of [s]: the matched scheme and the rest. *)
Definition schemeAt (s : string) : option (string * string) :=
  match s with
  | String h (String t1 (String t2 (String p r))) =>
      if String.eqb (toLowerCase (String h (String t1 (String t2 (String p ""))))) "http" then
        match r with
        | String ":" (String "/" (String "/" r')) =>
            Some (String h (String t1 (String t2 (String p "://"))), r')
        | String x (String ":" (String "/" (String "/" r'))) =>
            if Ascii.eqb (lowerChar x) "s"
            then Some (String h (String t1 (String t2 (String p (String x "://")))), r')
            else None
        | _ => None
        end
      else None
  | _ => None
  end.

(** [/^\[([^\]]+)\]\((https?:\/\/[^\s)]+)\)$/i]: the two captures. *)
Definition matchMarkdown (raw : string) : option (string * string) :=
  match raw with
  | String "[" r =>
      let '(label, r1) := span (fun c => negb (Ascii.eqb c "]")) r in
      match label, r1 with
      | String _ _, String "]" (String "(" r2) =>
          match schemeAt r2 with
          | Some (scheme, r3) =>
              let '(body, r4) := span (fun c => negb (isSpace c || Ascii.eqb c ")")) r3 in
              match body, r4 with
              | String _ _, String ")" EmptyString => Some (label, scheme ++ body)
              | _, _ => None
              end
          | None => None
          end
      | _, _ => None
      end
  | _ => None
  end.

(** [/[^\s|,;]/] *)
Definition isUrlChar (c : ascii) : bool :=
  negb (isSpace c || Ascii.eqb c "|" || Ascii.eqb c "," || Ascii.eqb c ";").

(** [/https?:\/\/[^\s|,;]+/i] matched at the head of [s] *)
Definition urlAt (s : string) : option string :=
  match schemeAt s with
  | Some (scheme, r) =>
      match span isUrlChar r with
      | (String c body, _) => Some (scheme ++ String c body)
      | _ => None
      end
  | None => None
  end.

(** [/[A-Z][A-Z0-9]+-\d+/i] matched at the head of [s] *)
Definition keyAt (s : string) : option string :=
  match s with
  | String l r =>
      if isLetter l then
        match span isAlnum r with
        | (String a word, String "-" r1) =>
            match span isDigit r1 with
            | (String d digits, _) =>
                Some (String l (String a word ++ "-" ++ String d digits))
            | _ => None
            end
        | _ => None
        end
      else None
  | EmptyString => None
  end.

(** [s.match(re)?.[0]] for a pattern without anchors: the match at the
    leftmost position that has one. *)
Fixpoint firstMatch (at_ : string -> option string) (s : string) : option string :=
  match at_ s with
  | Some m => Some m
  | None =>
      match s with
      | String _ r => firstMatch at_ r
      | EmptyString => None
      end
  end.

Record KeyInfo : Type := mkKeyInfo { keyTaskId : string; keyTaskUrl : string }.

Definition parseTaskKeyCell (value : option Cell) : KeyInfo :=
  let raw := trim (toText value) in
  match matchMarkdown raw with
  | Some (label, url) => mkKeyInfo label url
  | None =>
      let urlMatch := firstMatch urlAt raw in
      let keyMatch := firstMatch keyAt raw in
      match urlMatch with
      | Some taskUrl =>
          let keyFromUrl := firstMatch keyAt taskUrl in
          mkKeyInfo
            (toUpperCase (orElse (default "" keyMatch) (orElse (default "" keyFromUrl) raw)))
            taskUrl
      | None =>
          match keyMatch with
          | Some k => mkKeyInfo (toUpperCase k) ""
          | None => mkKeyInfo (orElse raw "-") ""
          end
      end
  end.

(** *** Report serialiser *)

Definition needsQuoting (text : string) : bool :=
  includesChar "," text || includesChar "010" text || includesChar "034" text.

(** Every double quote written twice *)
Fixpoint doubleQuotes (text : string) : string :=
  match text with
  | EmptyString => EmptyString
  | String c r =>
      if Ascii.eqb c "034" then String c (String c (doubleQuotes r))
      else String c (doubleQuotes r)
  end.

Definition escapeCsv (value : Cell) : string :=
  let text := toText (Some value) in
  if needsQuoting text then String "034" (doubleQuotes text ++ String "034" EmptyString)
  else text.

Definition toCsv (headers : list string) (rows : list (list Cell)) : string :=
  let headerLine := join "," (List.map (fun h => escapeCsv (CStr h)) headers) in
  let rowLines := List.map (fun row => join "," (List.map escapeCsv row)) rows in
  join (String "010" EmptyString) (headerLine :: rowLines).

(** *** View rows *)

(** A row of the grouped project listing. *)
Module ProjectRow.
Record t : Type := mk {
  module : string;
  assignee : string;
  taskKey : string;
  taskId : string;
  taskUrl : string;
  issueType : string;
  taskName : string;
  epicLink : string;
  status : Status;
  storyPoint : Z;
  weeks : string;
  prevDoneStillAppear : bool;
  prevWeek : string;
  showModule : bool;
  showAssignee : bool;
  moduleRowSpan : nat;
  assigneeRowSpan : nat
}.
End ProjectRow.

(** A row of the assignee workload histogram. *)
Module AssigneeRow.
Record t : Type := mk {
  assignee : string;
  point1 : nat;
  point2 : nat;
  point3 : nat;
  point4 : nat;
  point5 : nat;
  total : nat
}.
End AssigneeRow.

(** A value of the comparison's [taskMap]. *)
Module TaskEntry.
Record t : Type := mk {
  taskId : string;
  taskName : string;
  module : string;
  assignee : string;
  statusByWeek : gmap string Status
}.
End TaskEntry.

(** A row of the two-week comparison; a status of [None] is the
    no-data mark [-]. *)
Module CompareRow.
Record t : Type := mk {
  taskKey : string;
  taskId : string;
  taskName : string;
  module : string;
  assignee : string;
  statusA : option Status;
  statusB : option Status;
  transition : string;
  invalidDoneBoth : bool
}.
End CompareRow.

(** The state held by the component. *)
Record AppState : Type := mkState {
  rawRows : list RawRow;
  tasks : list Task;
  error : string;
  copied : string;
  projectWeekFilter : string;
  projectModuleFilter : string;
  projectAssigneeFilter : string;
  assigneeAllWeeks : bool;
  assigneeWeekFilters : list string;
  compareWeekA : string;
  compareWeekB : string
}.

(** What the file picker hands over: nothing, a file whose decoding throws,
    or the decoded first sheet after its keys and text cells were trimmed. *)
Inductive Upload : Type :=
| NoFile
| Unreadable
| Decoded (rows : list RawRow).

(** *** Identity key and the per-identity, per-week status map *)

(** [task.taskId || `${task.module}||${task.name}`] *)
Definition taskKey (task : Task) : string :=
  orElse (taskId task) (module task ++ "||" ++ name task).

(** The body of [task.weeks.forEach]: keep the status of greater index. *)
Definition mergeWeek (st : Status) (prev : gmap string Status) (week : string)
  : gmap string Status :=
  match prev !! week with
  | Some current =>
      if statusIndex st >? statusIndex current then <[week := st]> prev else prev
  | None => <[week := st]> prev
  end.

Definition mergeWeeks (task : Task) (prev : gmap string Status) : gmap string Status :=
  fold_left (mergeWeek (status task)) (weeks task) prev.

Definition recordTask (byWeek : gmap string (gmap string Status)) (task : Task)
  : gmap string (gmap string Status) :=
  let prev := default ∅ (byWeek !! taskKey task) in
  <[taskKey task := mergeWeeks task prev]> byWeek.

Definition taskStatusByWeek (tasks : list Task) : gmap string (gmap string Status) :=
  fold_left recordTask tasks ∅.

(** [taskStatusByWeek.get(key)?.get(week)] *)
Definition statusAt (byWeek : gmap string (gmap string Status)) (key week : string)
  : option Status :=
  byWeek !! key ≫= (fun m => m !! week).

Definition statusName (s : Status) : string :=
  match s with
  | open => "open"
  | inprogress => "inprogress"
  | done => "done"
  | other => "other"
  end.

Section App.

(** [a.localeCompare(b)] *)
Variable localeCompare : string -> string -> Z.

(** *** Upload *)

Definition missingColumns (columns : list string) : list string :=
  let colTaskId := detectColumn columns (COLUMN_ALIASES FTaskId) in
  let colIssueType := detectColumn columns (COLUMN_ALIASES FIssueType) in
  let colAssignee := detectColumn columns (COLUMN_ALIASES FAssignee) in
  let colStoryPoint := detectColumn columns (COLUMN_ALIASES FStoryPoint) in
  let colName := detectColumn columns (COLUMN_ALIASES FName) in
  let colLabels := detectColumn columns (COLUMN_ALIASES FLabels) in
  let colEpicLink := detectColumn columns (COLUMN_ALIASES FEpicLink) in
  let colModule := detectColumn columns (COLUMN_ALIASES FModule) in
  let colStatus := detectColumn columns (COLUMN_ALIASES FStatus) in
  (if String.eqb colTaskId "" then ["Key"] else [])
  ++ (if String.eqb colIssueType "" then ["Issue Type"] else [])
  ++ (if String.eqb colAssignee "" then ["Assignee"] else [])
  ++ (if String.eqb colStoryPoint "" then ["Story Points"] else [])
  ++ (if String.eqb colName "" then ["Summary"] else [])
  ++ (if String.eqb colLabels "" then ["Labels"] else [])
  ++ (if String.eqb colEpicLink "" then ["Epic Link"] else [])
  ++ (if String.eqb colModule "" then ["ModuleName"] else [])
  ++ (if String.eqb colStatus "" then ["Status"] else []).

Definition parseRow (columns : list string) (row : RawRow) : Task :=
  let keyInfo := parseTaskKeyCell (cellAt row (detectColumn columns (COLUMN_ALIASES FTaskId))) in
  {| taskId := keyTaskId keyInfo;
     taskUrl := keyTaskUrl keyInfo;
     issueType := textOr (cellAt row (detectColumn columns (COLUMN_ALIASES FIssueType))) "-";
     assignee := textOr (cellAt row (detectColumn columns (COLUMN_ALIASES FAssignee))) "Unknown";
     storyPoint := storyPointValue (cellAt row (detectColumn columns (COLUMN_ALIASES FStoryPoint)));
     name := textOr (cellAt row (detectColumn columns (COLUMN_ALIASES FName))) "";
     weeks := parseWeekLabels (cellAt row (detectColumn columns (COLUMN_ALIASES FLabels)));
     epicLink := textOr (cellAt row (detectColumn columns (COLUMN_ALIASES FEpicLink))) "-";
     module := textOr (cellAt row (detectColumn columns (COLUMN_ALIASES FModule))) "Unknown";
     status := normalizeStatus (cellAt row (detectColumn columns (COLUMN_ALIASES FStatus))) |}.

(** [Array.from(new Set(rows.flatMap((r) => Object.keys(r)).filter(Boolean)))]:
    the headers of all rows, first seen first. *)
Definition columnsOf (rows : list RawRow) : list string :=
  dedup (List.filter (fun k => negb (String.eqb k ""))
           (flat_map (fun r => List.map fst r) rows)).

(** Every week label of the collection, once, by ascending week number. *)
Definition sortedWeeksOf (tasks : list Task) : list string :=
  sortBy (fun a b => weekIndex a - weekIndex b) (dedup (flat_map weeks tasks)).

Definition handleFileUpload (file : Upload) (st : AppState) : AppState :=
  match file with
  | NoFile => st
  | Unreadable =>
      mkState [] []
        "Không thể đọc file. Vui lòng kiểm tra lại định dạng Excel/CSV." ""
        (projectWeekFilter st) (projectModuleFilter st) (projectAssigneeFilter st)
        (assigneeAllWeeks st) (assigneeWeekFilters st) (compareWeekA st) (compareWeekB st)
  | Decoded rows =>
      match rows with
      | [] =>
          mkState [] [] "File không có dữ liệu." ""
            (projectWeekFilter st) (projectModuleFilter st) (projectAssigneeFilter st)
            (assigneeAllWeeks st) (assigneeWeekFilters st) (compareWeekA st) (compareWeekB st)
      | _ :: _ =>
          let columns := columnsOf rows in
          let missing := missingColumns columns in
          match missing with
          | _ :: _ =>
              mkState rows [] ("Thiếu cột bắt buộc: " ++ join ", " missing) ""
                (projectWeekFilter st) (projectModuleFilter st) (projectAssigneeFilter st)
                (assigneeAllWeeks st) (assigneeWeekFilters st) (compareWeekA st) (compareWeekB st)
          | [] =>
              let parsedTasks := List.map (parseRow columns) rows in
              let sortedWeeks := sortedWeeksOf parsedTasks in
              let n := length sortedWeeks in
              mkState rows parsedTasks "" "" "all" "all" "all" true []
                (if (2 <=? n)%nat then nth (n - 2) sortedWeeks "" else nth 0 sortedWeeks "")
                (if (1 <=? n)%nat then nth (n - 1) sortedWeeks "" else "")
          end
      end
  end.

(** *** Grouped project listing *)

(** The comparator of the listing's sort. *)
Definition projectOrder (a b : Task * bool) : Z :=
  orZ (localeCompare (module (fst a)) (module (fst b)))
    (orZ (localeCompare (assignee (fst a)) (assignee (fst b)))
       (orZ (statusIndex (status (fst a)) - statusIndex (status (fst b)))
          (localeCompare (name (fst a)) (name (fst b))))).

(** [`${task.module}||${task.assignee}`] *)
Definition assigneeKeyOf (task : Task) : string :=
  module task ++ "||" ++ assignee task.

(** The body of the counting [forEach]. *)
Definition countRow (counts : gmap string nat * gmap string nat) (row : Task * bool)
  : gmap string nat * gmap string nat :=
  let task := fst row in
  let moduleCount := fst counts in
  let assigneeCount := snd counts in
  (<[module task := (default 0 (moduleCount !! module task) + 1)%nat]> moduleCount,
   <[assigneeKeyOf task := (default 0 (assigneeCount !! assigneeKeyOf task) + 1)%nat]> assigneeCount).

(** The final [map], with the two [seen] sets threaded through. *)
Fixpoint markRows (moduleCount assigneeCount : gmap string nat) (prevWeek : string)
  (seenModule seenAssignee : gset string) (rows : list (Task * bool))
  : list ProjectRow.t :=
  match rows with
  | [] => []
  | row :: rest =>
      let task := fst row in
      let assigneeKey := assigneeKeyOf task in
      let showModule := negb (bool_decide (module task ∈ seenModule)) in
      let showAssignee := negb (bool_decide (assigneeKey ∈ seenAssignee)) in
      let seenModule' := if showModule then {[module task]} ∪ seenModule else seenModule in
      let seenAssignee' := if showAssignee then {[assigneeKey]} ∪ seenAssignee else seenAssignee in
      {| ProjectRow.module := module task;
         ProjectRow.assignee := assignee task;
         ProjectRow.taskKey := taskKey task;
         ProjectRow.taskId := orElse (taskId task) "-";
         ProjectRow.taskUrl := orElse (taskUrl task) "";
         ProjectRow.issueType := orElse (issueType task) "-";
         ProjectRow.taskName := orElse (name task) "-";
         ProjectRow.epicLink := orElse (epicLink task) "-";
         ProjectRow.status := status task;
         ProjectRow.storyPoint := storyPoint task;
         ProjectRow.weeks := join "," (weeks task);
         ProjectRow.prevDoneStillAppear := snd row;
         ProjectRow.prevWeek := prevWeek;
         ProjectRow.showModule := showModule;
         ProjectRow.showAssignee := showAssignee;
         ProjectRow.moduleRowSpan := default 1%nat (moduleCount !! module task);
         ProjectRow.assigneeRowSpan := default 1%nat (assigneeCount !! assigneeKey) |}
      :: markRows moduleCount assigneeCount prevWeek seenModule' seenAssignee' rest
  end.

Definition matchesProjectFilters (weekFilter moduleFilter assigneeFilter : string)
  (task : Task) : bool :=
  let matchWeek := String.eqb weekFilter "all" || includes weekFilter (weeks task) in
  let matchModule := String.eqb moduleFilter "all" || String.eqb (module task) moduleFilter in
  let matchAssignee := String.eqb assigneeFilter "all" || String.eqb (assignee task) assigneeFilter in
  matchWeek && matchModule && matchAssignee.

(** [Boolean(prevWeek) && (taskStatusByWeek.get(key)?.get(prevWeek) ?? "-") === "done"] *)
Definition staleWarning (byWeek : gmap string (gmap string Status)) (prevWeek : string)
  (task : Task) : bool :=
  negb (String.eqb prevWeek "")
  && bool_decide (statusAt byWeek (taskKey task) prevWeek = Some done).

(** The filtered, annotated and sorted sequence. *)
Definition projectFiltered (tasks : list Task)
  (weekFilter moduleFilter assigneeFilter : string) : list (Task * bool) :=
  let byWeek := taskStatusByWeek tasks in
  let prevWeek := if String.eqb weekFilter "all" then "" else previousWeek weekFilter in
  sortBy projectOrder
    (List.map (fun task => (task, staleWarning byWeek prevWeek task))
       (List.filter (matchesProjectFilters weekFilter moduleFilter assigneeFilter) tasks)).

Definition projectRows (tasks : list Task)
  (weekFilter moduleFilter assigneeFilter : string) : list ProjectRow.t :=
  let prevWeek := if String.eqb weekFilter "all" then "" else previousWeek weekFilter in
  let filtered := projectFiltered tasks weekFilter moduleFilter assigneeFilter in
  let counts := fold_left countRow filtered (∅, ∅) in
  markRows (fst counts) (snd counts) prevWeek ∅ ∅ filtered.

(** *** Assignee workload histogram *)

Definition weekSelected (allWeeks : bool) (weekFilters : list string) (task : Task) : bool :=
  allWeeks
  || (length weekFilters =? 0)%nat
  || existsb (fun week => includes week weekFilters) (weeks task).

Definition emptyAssigneeRow (a : string) : AssigneeRow.t :=
  AssigneeRow.mk a 0 0 0 0 0 0.

(** The five [if (task.storyPoint === k) prev.pointk += 1] and the total. *)
Definition bump (sp : Z) (prev : AssigneeRow.t) : AssigneeRow.t :=
  AssigneeRow.mk (AssigneeRow.assignee prev)
    (if sp =? 1 then S (AssigneeRow.point1 prev) else AssigneeRow.point1 prev)
    (if sp =? 2 then S (AssigneeRow.point2 prev) else AssigneeRow.point2 prev)
    (if sp =? 3 then S (AssigneeRow.point3 prev) else AssigneeRow.point3 prev)
    (if sp =? 4 then S (AssigneeRow.point4 prev) else AssigneeRow.point4 prev)
    (if sp =? 5 then S (AssigneeRow.point5 prev) else AssigneeRow.point5 prev)
    (S (AssigneeRow.total prev)).

Definition tally (allWeeks : bool) (weekFilters : list string)
  (map : JsMap AssigneeRow.t) (task : Task) : JsMap AssigneeRow.t :=
  if negb (weekSelected allWeeks weekFilters task) then map
  else
    let prev := default (emptyAssigneeRow (assignee task)) (mapGet (assignee task) map) in
    mapSet (assignee task) (bump (storyPoint task) prev) map.

Definition assigneeOrder (a b : AssigneeRow.t) : Z :=
  orZ (Z.of_nat (AssigneeRow.total b) - Z.of_nat (AssigneeRow.total a))
    (localeCompare (AssigneeRow.assignee a) (AssigneeRow.assignee b)).

Definition assigneeRows (tasks : list Task) (allWeeks : bool) (weekFilters : list string)
  : list AssigneeRow.t :=
  sortBy assigneeOrder
    (List.map snd (fold_left (tally allWeeks weekFilters) tasks [])).

(** *** Two-week comparison *)

Definition recordEntry (taskMap : JsMap TaskEntry.t) (task : Task) : JsMap TaskEntry.t :=
  let prev :=
    default
      (TaskEntry.mk (orElse (taskId task) "-") (orElse (name task) "-")
         (module task) (assignee task) ∅)
      (mapGet (taskKey task) taskMap) in
  mapSet (taskKey task)
    (TaskEntry.mk (TaskEntry.taskId prev) (TaskEntry.taskName prev)
       (TaskEntry.module prev) (TaskEntry.assignee prev)
       (mergeWeeks task (TaskEntry.statusByWeek prev)))
    taskMap.

Definition compareTaskMap (tasks : list Task) : JsMap TaskEntry.t :=
  fold_left recordEntry tasks [].

Definition transitionText (compareWeekB : string) (statusA statusB : option Status) : string :=
  match statusA, statusB with
  | None, None => "Không có dữ liệu ở 2 tuần"
  | None, Some _ => "Mới xuất hiện ở " ++ compareWeekB
  | Some _, None => "Không còn ở " ++ compareWeekB
  | Some a, Some b =>
      if Status_eqb a b then "Không đổi" else statusName a ++ " -> " ++ statusName b
  end.

Definition toCompareRow (compareWeekA compareWeekB : string) (entry : string * TaskEntry.t)
  : CompareRow.t :=
  let task := snd entry in
  let statusA := TaskEntry.statusByWeek task !! compareWeekA in
  let statusB := TaskEntry.statusByWeek task !! compareWeekB in
  {| CompareRow.taskKey := fst entry;
     CompareRow.taskId := TaskEntry.taskId task;
     CompareRow.taskName := TaskEntry.taskName task;
     CompareRow.module := TaskEntry.module task;
     CompareRow.assignee := TaskEntry.assignee task;
     CompareRow.statusA := statusA;
     CompareRow.statusB := statusB;
     CompareRow.transition := transitionText compareWeekB statusA statusB;
     CompareRow.invalidDoneBoth :=
       bool_decide (statusA = Some done) && bool_decide (statusB = Some done) |}.

Definition hasData (row : CompareRow.t) : bool :=
  negb (bool_decide (CompareRow.statusA row = None))
  || negb (bool_decide (CompareRow.statusB row = None)).

Definition compareOrder (a b : CompareRow.t) : Z :=
  orZ (localeCompare (CompareRow.module a) (CompareRow.module b))
    (orZ (localeCompare (CompareRow.assignee a) (CompareRow.assignee b))
       (orZ (Z.b2z (CompareRow.invalidDoneBoth b) - Z.b2z (CompareRow.invalidDoneBoth a))
          (localeCompare (CompareRow.taskId a) (CompareRow.taskId b)))).

Definition compareRows (tasks : list Task) (compareWeekA compareWeekB : string)
  : list CompareRow.t :=
  if String.eqb compareWeekA "" || String.eqb compareWeekB "" then []
  else
    sortBy compareOrder
      (List.filter hasData
         (List.map (toCompareRow compareWeekA compareWeekB) (compareTaskMap tasks))).

End App.

(** A collation to run the views with: the order of the code units. *)
Definition codeUnitCompare (a b : string) : Z :=
  match String.compare a b with
  | Eq => 0
  | Lt => -1
  | Gt => 1
  end.

(** *** The variant of the component with a multi-week selection and a
    manager tab

    The second [App] of the sources shares every helper above; its grouped
    listing selects a set of weeks, and its manager tab compares the current
    calendar week with the week before. *)

Module ReminderRow.
Record t : Type := mk {
  taskKey : string;
  taskId : string;
  taskName : string;
  assignee : string;
  module : string;
  doneBoth : bool;
  missingCurrent : bool
}.
End ReminderRow.

Module MultiWeek.
Section App.

Variable localeCompare : string -> string -> Z.

(** [projectAllWeeks || projectWeekFilters.length === 0 ? allWeeks : projectWeekFilters] *)
Definition selectedWeeksOf (tasks : list Task) (projectAllWeeks : bool)
  (projectWeekFilters : list string) : list string :=
  if projectAllWeeks || (length projectWeekFilters =? 0)%nat
  then sortedWeeksOf tasks else projectWeekFilters.

(** The [selectedWeeks.some(...)] of the listing's warning. *)
Definition staleWarning (byWeek : gmap string (gmap string Status))
  (selectedWeeks : list string) (task : Task) : bool :=
  existsb
    (fun week =>
       let prevWeek := previousWeek week in
       if String.eqb prevWeek "" then false
       else bool_decide (statusAt byWeek (taskKey task) prevWeek = Some done))
    selectedWeeks.

Definition matchesProjectFilters (selectedWeeks : list string)
  (moduleFilter assigneeFilter : string) (task : Task) : bool :=
  let matchWeek :=
    (length selectedWeeks =? 0)%nat
    || existsb (fun week => includes week selectedWeeks) (weeks task) in
  let matchModule := String.eqb moduleFilter "all" || String.eqb (module task) moduleFilter in
  let matchAssignee := String.eqb assigneeFilter "all" || String.eqb (assignee task) assigneeFilter in
  matchWeek && matchModule && matchAssignee.

(** The filtered, annotated and sorted sequence of the listing. *)
Definition projectFiltered (tasks : list Task) (projectAllWeeks : bool)
  (projectWeekFilters : list string) (moduleFilter assigneeFilter : string)
  : list (Task * bool) :=
  let byWeek := taskStatusByWeek tasks in
  let selectedWeeks := selectedWeeksOf tasks projectAllWeeks projectWeekFilters in
  sortBy (projectOrder localeCompare)
    (List.map (fun task => (task, staleWarning byWeek selectedWeeks task))
       (List.filter (matchesProjectFilters selectedWeeks moduleFilter assigneeFilter) tasks)).

(** The manager tab's reminder rows; [currentWeekCode] is the code of the
    calendar week of the clock. *)
Definition toReminderRow (currentWeekCode managerPrevWeek : string)
  (entry : string * TaskEntry.t) : ReminderRow.t :=
  let task := snd entry in
  let prevStatus :=
    if String.eqb managerPrevWeek "" then None
    else TaskEntry.statusByWeek task !! managerPrevWeek in
  let currentStatus := TaskEntry.statusByWeek task !! currentWeekCode in
  {| ReminderRow.taskKey := fst entry;
     ReminderRow.taskId := TaskEntry.taskId task;
     ReminderRow.taskName := TaskEntry.taskName task;
     ReminderRow.assignee := TaskEntry.assignee task;
     ReminderRow.module := TaskEntry.module task;
     ReminderRow.doneBoth :=
       bool_decide (prevStatus = Some done) && bool_decide (currentStatus = Some done);
     ReminderRow.missingCurrent :=
       negb (bool_decide (prevStatus = None))
       && negb (bool_decide (prevStatus = Some done))
       && bool_decide (currentStatus = None) |}.

Definition reminderOrder (a b : ReminderRow.t) : Z :=
  orZ (localeCompare (ReminderRow.module a) (ReminderRow.module b))
    (orZ (localeCompare (ReminderRow.assignee a) (ReminderRow.assignee b))
       (localeCompare (ReminderRow.taskId a) (ReminderRow.taskId b))).

Definition managerReminderRows (tasks : list Task) (currentWeekCode : string)
  : list ReminderRow.t :=
  let managerPrevWeek := previousWeek currentWeekCode in
  sortBy reminderOrder
    (List.filter (fun row => ReminderRow.doneBoth row || ReminderRow.missingCurrent row)
       (List.map (toReminderRow currentWeekCode managerPrevWeek) (compareTaskMap tasks))).

End App.
End MultiWeek.

(** *** Labels, filter options, summaries and chart data of the first
    variant *)

Definition statusLabel (status : Status) : string :=
  if Status_eqb status inprogress then "in progress" else statusName status.

(** [String(value).padStart(2, "0")], for the integers from 0 to 99: the
    weeks, days, months, hours, minutes and seconds it is applied to. *)
Definition twoDigits (value : Z) : string := padStart2 (smallNatToString value).

(** [`W${twoDigits(currentWeekInfo.week)}`], from the week number of the
    clock. *)
Definition currentWeekCode (week : Z) : string := "W" ++ twoDigits week.

(** The counters [{ open, inprogress, done, other }]. *)
Module StatusSummary.
Record t : Type := mk {
  open : nat;
  inprogress : nat;
  done : nat;
  other : nat
}.
End StatusSummary.

(** [summary[status] += 1] *)
Definition countStatus (summary : StatusSummary.t) (s : Status) : StatusSummary.t :=
  match s with
  | open =>
      StatusSummary.mk (StatusSummary.open summary + 1) (StatusSummary.inprogress summary)
        (StatusSummary.done summary) (StatusSummary.other summary)
  | inprogress =>
      StatusSummary.mk (StatusSummary.open summary) (StatusSummary.inprogress summary + 1)
        (StatusSummary.done summary) (StatusSummary.other summary)
  | done =>
      StatusSummary.mk (StatusSummary.open summary) (StatusSummary.inprogress summary)
        (StatusSummary.done summary + 1) (StatusSummary.other summary)
  | other =>
      StatusSummary.mk (StatusSummary.open summary) (StatusSummary.inprogress summary)
        (StatusSummary.done summary) (StatusSummary.other summary + 1)
  end%nat.

(** A slice of a pie chart. *)
Module Slice.
Record t : Type := mk {
  name : string;
  value : Z;
  color : string
}.
End Slice.

(** [{ changed, invalidDoneBoth, total }] *)
Module CompareSummary.
Record t : Type := mk {
  changed : nat;
  invalidDoneBoth : nat;
  total : nat
}.
End CompareSummary.

(** A row of the grouped comparison table: the comparison row and its
    group marks. *)
Module GroupedCompareRow.
Record t : Type := mk {
  row : CompareRow.t;
  showModule : bool;
  showAssignee : bool;
  moduleRowSpan : nat;
  assigneeRowSpan : nat
}.
End GroupedCompareRow.

Section Views.

Variable localeCompare : string -> string -> Z.

Definition allWeeks (tasks : list Task) : list string :=
  sortBy (fun a b => weekIndex a - weekIndex b) (dedup (flat_map weeks tasks)).

Definition projectModules (tasks : list Task) (projectWeekFilter : string) : list string :=
  sortBy localeCompare
    (dedup
       (List.map module
          (List.filter
             (fun task =>
                String.eqb projectWeekFilter "all" || includes projectWeekFilter (weeks task))
             tasks))).

Definition projectAssignees (tasks : list Task) (projectWeekFilter projectModuleFilter : string)
  : list string :=
  sortBy localeCompare
    (dedup
       (List.map assignee
          (List.filter
             (fun task =>
                let matchWeek :=
                  String.eqb projectWeekFilter "all" || includes projectWeekFilter (weeks task) in
                let matchModule :=
                  String.eqb projectModuleFilter "all" || String.eqb (module task) projectModuleFilter in
                matchWeek && matchModule)
             tasks))).

Definition compareSummary (compareRows : list CompareRow.t) : CompareSummary.t :=
  {| CompareSummary.changed :=
       length (List.filter
                 (fun row => negb (bool_decide (CompareRow.statusA row = CompareRow.statusB row)))
                 compareRows);
     CompareSummary.invalidDoneBoth := length (List.filter CompareRow.invalidDoneBoth compareRows);
     CompareSummary.total := length compareRows |}.

(** [`${row.module}||${row.assignee}`] *)
Definition compareAssigneeKey (row : CompareRow.t) : string :=
  CompareRow.module row ++ "||" ++ CompareRow.assignee row.

(** The body of the counting [forEach] of the grouped comparison. *)
Definition countCompareRow (counts : gmap string nat * gmap string nat) (row : CompareRow.t)
  : gmap string nat * gmap string nat :=
  let moduleCount := fst counts in
  let assigneeCount := snd counts in
  (<[CompareRow.module row := (default 0 (moduleCount !! CompareRow.module row) + 1)%nat]> moduleCount,
   <[compareAssigneeKey row :=
       (default 0 (assigneeCount !! compareAssigneeKey row) + 1)%nat]> assigneeCount).

(** Its final [map], with the two [seen] sets threaded through. *)
Fixpoint markCompareRows (moduleCount assigneeCount : gmap string nat)
  (seenModule seenAssignee : gset string) (rows : list CompareRow.t)
  : list GroupedCompareRow.t :=
  match rows with
  | [] => []
  | row :: rest =>
      let assigneeKey := compareAssigneeKey row in
      let showModule := negb (bool_decide (CompareRow.module row ∈ seenModule)) in
      let showAssignee := negb (bool_decide (assigneeKey ∈ seenAssignee)) in
      let seenModule' :=
        if showModule then {[CompareRow.module row]} ∪ seenModule else seenModule in
      let seenAssignee' := if showAssignee then {[assigneeKey]} ∪ seenAssignee else seenAssignee in
      {| GroupedCompareRow.row := row;
         GroupedCompareRow.showModule := showModule;
         GroupedCompareRow.showAssignee := showAssignee;
         GroupedCompareRow.moduleRowSpan := default 1%nat (moduleCount !! CompareRow.module row);
         GroupedCompareRow.assigneeRowSpan := default 1%nat (assigneeCount !! assigneeKey) |}
      :: markCompareRows moduleCount assigneeCount seenModule' seenAssignee' rest
  end.

Definition compareGroupedRows (compareRows : list CompareRow.t) : list GroupedCompareRow.t :=
  let counts := fold_left countCompareRow compareRows (∅, ∅) in
  markCompareRows (fst counts) (snd counts) ∅ ∅ compareRows.

Definition overviewStatus (tasks : list Task) : StatusSummary.t :=
  fold_left (fun summary task => countStatus summary (status task)) tasks
    (StatusSummary.mk 0 0 0 0).

Definition projectPieData (projectRows : list ProjectRow.t) : list Slice.t :=
  let summary :=
    fold_left (fun summary row => countStatus summary (ProjectRow.status row)) projectRows
      (StatusSummary.mk 0 0 0 0) in
  [ Slice.mk "open" (Z.of_nat (StatusSummary.open summary)) "#2563eb";
    Slice.mk "in progress" (Z.of_nat (StatusSummary.inprogress summary)) "#f59e0b";
    Slice.mk "done" (Z.of_nat (StatusSummary.done summary)) "#16a34a";
    Slice.mk "other" (Z.of_nat (StatusSummary.other summary)) "#94a3b8" ].

(** [map.set(row.assignee, (map.get(row.assignee) ?? 0) + 1)] *)
Definition countAssignee (map : JsMap nat) (row : ProjectRow.t) : JsMap nat :=
  mapSet (ProjectRow.assignee row)
    (default 0 (mapGet (ProjectRow.assignee row) map) + 1)%nat map.

(** The comparator of the chart: by count, greatest first, then by name. *)
Definition chartOrder (a b : string * nat) : Z :=
  orZ (Z.of_nat (snd b) - Z.of_nat (snd a)) (localeCompare (fst a) (fst b)).

(** The bars of the chart, each an assignee with a count; [slice(0, 10)]
    keeps the first ten. *)
Definition projectAssigneeChartData (projectRows : list ProjectRow.t) : list (string * nat) :=
  firstn 10 (sortBy chartOrder (fold_left countAssignee projectRows [])).

(** The body of the summing [forEach] of the difficulty pie: the sums
    C1 to C5. *)
Definition addPoints (summary : nat * nat * nat * nat * nat) (row : AssigneeRow.t)
  : nat * nat * nat * nat * nat :=
  let '(c1, c2, c3, c4, c5) := summary in
  (c1 + AssigneeRow.point1 row, c2 + AssigneeRow.point2 row, c3 + AssigneeRow.point3 row,
   c4 + AssigneeRow.point4 row, c5 + AssigneeRow.point5 row)%nat.

Definition assigneePieData (assigneeRows : list AssigneeRow.t) : list Slice.t :=
  let '(c1, c2, c3, c4, c5) := fold_left addPoints assigneeRows (0, 0, 0, 0, 0)%nat in
  [ Slice.mk "C1" (Z.of_nat c1) "#38bdf8";
    Slice.mk "C2" (Z.of_nat c2) "#818cf8";
    Slice.mk "C3" (Z.of_nat c3) "#f59e0b";
    Slice.mk "C4" (Z.of_nat c4) "#f97316";
    Slice.mk "C5" (Z.of_nat c5) "#ef4444" ].

Definition comparePieData (compareSummary : CompareSummary.t) : list Slice.t :=
  [ Slice.mk "Đổi trạng thái" (Z.of_nat (CompareSummary.changed compareSummary)) "#0ea5e9";
    Slice.mk "Không đổi"
      (Z.max (Z.of_nat (CompareSummary.total compareSummary)
              - Z.of_nat (CompareSummary.changed compareSummary)) 0) "#64748b";
    Slice.mk "Done ở cả 2 tuần" (Z.of_nat (CompareSummary.invalidDoneBoth compareSummary))
      "#dc2626" ].

End Views.

(** *** The manager tab of the second variant: tasks of the current week *)

(** A row of the workload table of the current week. *)
Module WorkloadRow.
Record t : Type := mk {
  assignee : string;
  light : nat;
  medium : nat;
  heavy : nat;
  total : nat
}.
End WorkloadRow.

(** A row of the table of tasks in progress over several weeks. *)
Module CarryOverRow.
Record t : Type := mk {
  taskId : string;
  taskName : string;
  assignee : string;
  module : string;
  weeks : string
}.
End CarryOverRow.

Module ManagerTab.
Section App.

Variable localeCompare : string -> string -> Z.

Definition managerCurrentWeekTasks (tasks : list Task) (currentWeekCode : string) : list Task :=
  List.filter (fun task => includes currentWeekCode (weeks task)) tasks.

(** The body of the [forEach] over the tasks of the current week that are
    in progress and labelled with two weeks or more. *)
Definition recordCarryOver (map : JsMap CarryOverRow.t) (task : Task) : JsMap CarryOverRow.t :=
  if negb (Status_eqb (status task) inprogress) || (length (weeks task) <? 2)%nat then map
  else
    let key := orElse (taskId task) (module task ++ "-" ++ name task) in
    mapSet key
      {| CarryOverRow.taskId := orElse (taskId task) "-";
         CarryOverRow.taskName := orElse (name task) "-";
         CarryOverRow.assignee := assignee task;
         CarryOverRow.module := module task;
         CarryOverRow.weeks := join ", " (weeks task) |}
      map.

Definition managerInProgressMultiWeek (managerCurrentWeekTasks : list Task)
  : list CarryOverRow.t :=
  sortBy (fun a b => localeCompare (CarryOverRow.assignee a) (CarryOverRow.assignee b))
    (List.map snd (fold_left recordCarryOver managerCurrentWeekTasks [])).

(** The three-way [if] on the story point, and the total. *)
Definition bumpWorkload (sp : Z) (prev : WorkloadRow.t) : WorkloadRow.t :=
  if sp <=? 2 then
    WorkloadRow.mk (WorkloadRow.assignee prev) (S (WorkloadRow.light prev))
      (WorkloadRow.medium prev) (WorkloadRow.heavy prev) (S (WorkloadRow.total prev))
  else if sp =? 3 then
    WorkloadRow.mk (WorkloadRow.assignee prev) (WorkloadRow.light prev)
      (S (WorkloadRow.medium prev)) (WorkloadRow.heavy prev) (S (WorkloadRow.total prev))
  else
    WorkloadRow.mk (WorkloadRow.assignee prev) (WorkloadRow.light prev)
      (WorkloadRow.medium prev) (S (WorkloadRow.heavy prev)) (S (WorkloadRow.total prev)).

Definition tallyWorkload (map : JsMap WorkloadRow.t) (task : Task) : JsMap WorkloadRow.t :=
  let prev :=
    default (WorkloadRow.mk (assignee task) 0 0 0 0) (mapGet (assignee task) map) in
  mapSet (assignee task) (bumpWorkload (storyPoint task) prev) map.

Definition workloadOrder (a b : WorkloadRow.t) : Z :=
  orZ (Z.of_nat (WorkloadRow.total b) - Z.of_nat (WorkloadRow.total a))
    (localeCompare (WorkloadRow.assignee a) (WorkloadRow.assignee b)).

Definition managerWorkloadRows (managerCurrentWeekTasks : list Task) : list WorkloadRow.t :=
  sortBy workloadOrder (List.map snd (fold_left tallyWorkload managerCurrentWeekTasks [])).

End App.
End ManagerTab.

(** ** Reference notions of the specification *)

(** *** Story points *)


(** [k] is the integer nearest to [q], the upper one at a tie. *)
Definition nearestInteger (q : Q) (k : Z) : Prop :=
  (inject_Z k - (1 # 2) <= q)%Q /\ (q < inject_Z k + (1 # 2))%Q.

(** *** Workload histogram *)

(** The number of elements of [l] that satisfy [p]. *)
Definition countWhere {A : Type} (p : A -> bool) (l : list A) : nat :=
  length (List.filter p l).

(** The histogram row the specification describes for assignee [a]: over
    the tasks of [a] that pass the week selection, one count per story
    point from 1 to 5, and their number. *)
Definition histogramRow (allWeeks : bool) (weekFilters : list string)
  (tasks : list Task) (a : string) : AssigneeRow.t :=
  let mine := List.filter
    (fun t => weekSelected allWeeks weekFilters t && String.eqb (assignee t) a) tasks in
  AssigneeRow.mk a
    (countWhere (fun t => storyPoint t =? 1) mine)
    (countWhere (fun t => storyPoint t =? 2) mine)
    (countWhere (fun t => storyPoint t =? 3) mine)
    (countWhere (fun t => storyPoint t =? 4) mine)
    (countWhere (fun t => storyPoint t =? 5) mine)
    (length mine).

(** The invariant of the histogram's accumulation loop: after the tasks
    [seen], the map holds, for each assignee with a selected task, the
    histogram row of that assignee, and no other key. *)
Definition tallied (allWeeks : bool) (weekFilters : list string)
  (m : JsMap AssigneeRow.t) (seen : list Task) : Prop :=
  NoDup (List.map fst m)
  /\ forall a,
       mapGet a m =
       if existsb (fun t => weekSelected allWeeks weekFilters t && String.eqb (assignee t) a) seen
       then Some (histogramRow allWeeks weekFilters seen a)
       else None.

(** *** Required columns *)

(** The name under which a missing logical field is reported. *)
Definition displayName (f : Field) : string :=
  match f with
  | FTaskId => "Key"
  | FIssueType => "Issue Type"
  | FAssignee => "Assignee"
  | FStoryPoint => "Story Points"
  | FName => "Summary"
  | FLabels => "Labels"
  | FEpicLink => "Epic Link"
  | FModule => "ModuleName"
  | FStatus => "Status"
  end.

(** *** Merged statuses *)

(** The advancement order of the specification,
    open < inprogress < done < other: [notAfter a b] when [a] is [b] or
    comes before it. *)
Definition notAfter (a b : Status) : bool :=
  match a, b with
  | open, _ => true
  | inprogress, open => false
  | inprogress, _ => true
  | done, open | done, inprogress => false
  | done, _ => true
  | other, other => true
  | other, _ => false
  end.

(** [o] is the most advanced status of [l]: nothing for the empty list,
    otherwise a member that no member comes after. *)
Definition isMostAdvanced (l : list Status) (o : option Status) : Prop :=
  match o with
  | None => l = []
  | Some m => In m l /\ forall s, In s l -> notAfter s m = true
  end.

(** The rows that carry identity [key] and week label [week]. *)
Definition reports (key week : string) (task : Task) : bool :=
  String.eqb (taskKey task) key && includes week (weeks task).

(** The statuses reported for [key] in [week], in row order. *)
Definition reportedStatuses (tasks : list Task) (key week : string) : list Status :=
  List.map status (List.filter (reports key week) tasks).

(** Merging one more reported status into a merged one. *)
Definition mergeStatus (acc : option Status) (s : Status) : option Status :=
  match acc with
  | None => Some s
  | Some current => Some (if notAfter current s then s else current)
  end.

(** [taskMap.get(key)?.statusByWeek.get(week)] *)
Definition entryStatus (taskMap : JsMap TaskEntry.t) (key week : string) : option Status :=
  mapGet key taskMap ≫= (fun e => TaskEntry.statusByWeek e !! week).

(** *** Re-splitting a serialised report *)

(** Re-splitting a serialised report under the escaping rule of the
    specification: a field that opens with a double quote runs to its
    closing quote, a doubled quote inside standing for one; any other field
    runs to the next comma or line feed; a line feed closes a record.

    [Plain] is the state outside quotes, [Quoted] the state inside, and
    [Closed] the state just after a quote met inside.  The result is the
    field being read, the further fields of its record, and the further
    records. *)
Inductive CsvMode : Type := Plain | Quoted | Closed.

Fixpoint resplitAux (mode : CsvMode) (s : string)
  : string * list string * list (list string) :=
  match s with
  | EmptyString => ("", [], [])
  | String c r =>
      match mode with
      | Quoted =>
          if Ascii.eqb c "034" then resplitAux Closed r
          else let '(cur, row, rows) := resplitAux Quoted r in (String c cur, row, rows)
      | _ =>
          if Ascii.eqb c "034" then
            match mode with
            | Closed =>
                let '(cur, row, rows) := resplitAux Quoted r in (String c cur, row, rows)
            | _ => resplitAux Quoted r
            end
          else if Ascii.eqb c "," then
            let '(cur, row, rows) := resplitAux Plain r in ("", cur :: row, rows)
          else if Ascii.eqb c "010" then
            let '(cur, row, rows) := resplitAux Plain r in ("", [], (cur :: row) :: rows)
          else
            let '(cur, row, rows) := resplitAux Plain r in (String c cur, row, rows)
      end
  end.

Definition resplitCsv (s : string) : list (list string) :=
  let '(cur, row, rows) := resplitAux Plain s in (cur :: row) :: rows.

(** The text of each cell of each row. *)
Definition cellTexts (rows : list (list Cell)) : list (list string) :=
  List.map (List.map (fun v => toText (Some v))) rows.

(** [c] occurs in [text]. *)
Definition occursIn (c : ascii) (text : string) : Prop :=
  exists a b, text = a ++ String c b.

(** [field] is [text] wrapped in double quotes, its own double quotes
    doubled. *)
Definition wrappedForm (text field : string) : Prop :=
  field = String "034" (doubleQuotes text ++ String "034" EmptyString).

(** The rest of a serialised report after a field: nothing, or a comma or
    a line feed and what follows. *)
Definition atDelimiter (rest : string) : Prop :=
  match rest with
  | EmptyString => True
  | String c _ => c = ","%char \/ c = "010"%char
  end.

(** The serialised form of one record. *)
Definition lineOf (row : list Cell) : string := join "," (List.map escapeCsv row).

(** The rest of a serialised report after a record. *)
Definition atLineEnd (rest : string) : Prop :=
  match rest with
  | EmptyString => True
  | String c _ => c = "010"%char
  end.

(** *** Comparators *)

(** A comparator that is a total order on its keys: it is zero exactly on
    equal keys, changes sign when its arguments are swapped, and its
    not-greater relation is transitive. *)
Record TotalOrderCmp {K : Type} (c : K -> K -> Z) : Prop := {
  cmp_refl : forall a, c a a = 0;
  cmp_eq : forall a b, c a b = 0 -> a = b;
  cmp_antisym : forall a b, c a b < 0 <-> 0 < c b a;
  cmp_trans : forall a b d, c a b <= 0 -> c b d <= 0 -> c a d <= 0
}.

(** The comparator [c1(a, b) || c2(a, b)] on pairs of keys. *)
Definition lexCmp {K1 K2 : Type} (c1 : K1 -> K1 -> Z) (c2 : K2 -> K2 -> Z)
  (a b : K1 * K2) : Z :=
  orZ (c1 (fst a) (fst b)) (c2 (snd a) (snd b)).

(** The keys the listing is sorted by. *)
Definition sortKey (row : Task * bool) : string * (string * (Status * string)) :=
  (module (fst row), (assignee (fst row), (status (fst row), name (fst row)))).

Definition statusCmp (a b : Status) : Z := statusIndex a - statusIndex b.

(** *** Runs and group spans *)

(** For each element of [l], whether it starts a run of consecutive
    elements that are the [same]; [prev] is the element before [l]. *)
Fixpoint runStartsFrom {A : Type} (same : A -> A -> bool) (prev : option A) (l : list A)
  : list bool :=
  match l with
  | [] => []
  | x :: r =>
      match prev with
      | None => true
      | Some p => negb (same p x)
      end :: runStartsFrom same (Some x) r
  end.

Definition runStarts {A : Type} (same : A -> A -> bool) (l : list A) : list bool :=
  runStartsFrom same None l.

(** For each element of [ks], whether it occurs neither in [before] nor
    earlier in [ks]. *)
Fixpoint firstOcc {K : Type} (eqb : K -> K -> bool) (before : list K) (ks : list K)
  : list bool :=
  match ks with
  | [] => []
  | k :: r => negb (existsb (eqb k) before) :: firstOcc eqb (k :: before) r
  end.











(** *** Tokens of a label cell *)

(** Every character of [s] satisfies [p]. *)
Fixpoint allChars (p : ascii -> bool) (s : string) : bool :=
  match s with
  | EmptyString => true
  | String c r => p c && allChars p r
  end.

(** [s] ends with a character of class [p]. *)
Definition endsWith (p : ascii -> bool) (s : string) : Prop :=
  exists s' c, s = s' ++ String c EmptyString /\ p c = true.

(** [s] is empty or starts with a character of class [p]. *)
Definition startsWithOrEmpty (p : ascii -> bool) (s : string) : Prop :=
  match s with
  | EmptyString => True
  | String c _ => p c = true
  end.

(** [t] is a non-empty run of characters outside [sep] that lies in [s]
    between [pre] and [post] and cannot be extended to the right. *)
Definition runIn (sep : ascii -> bool) (s pre t post : string) : Prop :=
  s = pre ++ t ++ post
  /\ t <> ""
  /\ allChars (fun c => negb (sep c)) t = true
  /\ startsWithOrEmpty sep post.

(** [t] is a token of [s]: a maximal non-empty run of characters outside
    [sep]. *)
Definition isToken (sep : ascii -> bool) (s t : string) : Prop :=
  exists pre post, runIn sep s pre t post /\ (pre = "" \/ endsWith sep pre).

(** A token of [s] that does not start at the first character. *)
Definition isLaterToken (sep : ascii -> bool) (s t : string) : Prop :=
  exists pre post, runIn sep s pre t post /\ endsWith sep pre.

(** The longest prefix of [s] without a character of [sep]. *)
Definition prefixRun (sep : ascii -> bool) (s : string) : string :=
  fst (span (fun c => negb (sep c)) s).

(** The characters that end a label token: the separators, and the
    brackets and the double quote that are blanked before the split. *)
Definition isTokenBreak (c : ascii) : bool :=
  isLabelSeparator c || isBracketOrQuote c.

(** The week-code pattern: a capital W followed by one or two digits. *)
Definition isWeekPattern (w : string) : Prop :=
  (exists d1, isDigit d1 = true /\ w = String "W" (String d1 EmptyString))
  \/ (exists d1 d2, isDigit d1 = true /\ isDigit d2 = true
                    /\ w = String "W" (String d1 (String d2 EmptyString))).

(** *** Sample sheets and task collections *)

(** The state of the component before any upload. *)
Definition initialState : AppState :=
  mkState [] [] "" "" "all" "all" "all" true [] "" "".

(** A sheet with every required column but Status. *)
Definition sheetWithoutStatus : list RawRow :=
  [ [ ("Key", CStr "PROJ-1"); ("Issue Type", CStr "Task"); ("Assignee", CStr "An");
      ("Story Points", CNum (Fin 3) "3"); ("Summary", CStr "Login page");
      ("Labels", CStr "W01"); ("Epic Link", CStr "EP-1"); ("ModuleName", CStr "Auth") ] ].

(** A sheet with two different tasks whose Key cells are blank. *)
Definition blankKeySheet : list RawRow :=
  [ [ ("Key", CStr ""); ("Issue Type", CStr "Task"); ("Assignee", CStr "An");
      ("Story Points", CNum (Fin 3) "3"); ("Summary", CStr "Login page");
      ("Labels", CStr "W01"); ("Epic Link", CStr "EP-1"); ("ModuleName", CStr "Auth");
      ("Status", CStr "done") ];
    [ ("Key", CStr ""); ("Issue Type", CStr "Bug"); ("Assignee", CStr "Binh");
      ("Story Points", CNum (Fin 2) "2"); ("Summary", CStr "Invoices");
      ("Labels", CStr "W02"); ("Epic Link", CStr "EP-2"); ("ModuleName", CStr "Billing");
      ("Status", CStr "done") ] ].

(** A task whose story point was read from a blank cell. *)
Definition blankPointTask : Task :=
  mkTask "PROJ-1" "" "-" "An" (storyPointValue (Some (CStr ""))) "Login page"
    ["W01"] "-" "Auth" open.

(** Two reports of one task for the same week, done and other. *)
Definition doneRow : Task :=
  mkTask "PROJ-1" "" "-" "An" 2 "Login page" ["W01"] "-" "Auth" done.

Definition otherRow : Task :=
  mkTask "PROJ-1" "" "-" "An" 2 "Login page" ["W01"] "-" "Auth" other.

(** One task reported done in two weeks. *)
Definition doneTwice : list Task :=
  [ mkTask "PROJ-2" "" "-" "An" 2 "Logout" ["W01"; "W02"] "-" "Auth" done ].

(** The comparison row of [doneTwice] for the weeks W01 and W02. *)
Definition doneTwiceRow : CompareRow.t :=
  CompareRow.mk "PROJ-2" "PROJ-2" "Logout" "Auth" "An" (Some done) (Some done)
    "Không đổi" true.

(** One task reported done in week 1 and in progress in week 2, with the
    week labels written without padding. *)
Definition unpaddedWeeks : list Task :=
  [ mkTask "PROJ-1" "" "Task" "An" 3 "Login page" ["W1"] "EP-1" "Auth" done;
    mkTask "PROJ-1" "" "Task" "An" 3 "Login page" ["W2"] "EP-1" "Auth" inprogress ].

(** A report with a value that contains a comma and one that contains
    double quotes. *)
Definition sampleHeaders : list string := ["Task ID"; "Summary"].

Definition sampleReport : list (list Cell) :=
  [ [CStr "PROJ-1"; CStr "Login, logout"];
    [CStr "PROJ-2"; CStr ("say " ++ String "034" ("hi" ++ String "034" EmptyString))];
    [CNum (Fin 3) "3"; CStr ""] ].


(** A small collection over two modules and three assignees. *)
Definition sampleTasks : list Task :=
  [ mkTask "PROJ-3" "" "Task" "Binh" 3 "Invoices" ["W01"] "EP-2" "Billing" open;
    mkTask "PROJ-1" "" "Task" "An" 3 "Login page" ["W01"] "EP-1" "Auth" done;
    mkTask "PROJ-4" "" "Bug" "An" 1 "Refunds" ["W01"; "W02"] "EP-2" "Billing" inprogress;
    mkTask "PROJ-2" "" "Task" "Chi" 2 "Logout" ["W02"] "EP-1" "Auth" open;
    mkTask "PROJ-5" "" "Task" "An" 5 "Tokens" ["W01"] "EP-1" "Auth" open ].

(** ** Notions used by the further properties *)

(** *** Uploaded tasks *)

(** A task as an upload produces it: a task id that is not empty and is
    the identity key, a story point from 0 to 5, and week labels that match
    the week pattern, have a week index below 100 and are all different. *)
Definition wellFormedTask (t : Task) : Prop :=
  String.eqb (taskId t) "" = false
  /\ taskKey t = taskId t
  /\ 0 <= storyPoint t <= 5
  /\ NoDup (weeks t)
  /\ List.Forall (fun w => isWeekPattern w /\ 0 <= weekIndex w <= 99) (weeks t).

(** *** Column names *)

(** [column] names one of [aliases], letter case and separators aside. *)
Definition namesAlias (aliases : list string) (column : string) : Prop :=
  exists alias, In alias aliases /\ normalizeText column = normalizeText alias.
(** *** Task links *)

(** [url] is an http or https address: the scheme, in any letter case,
    followed by at least one character, with no white space anywhere. *)
Definition isHttpUrl (url : string) : Prop :=
  exists scheme rest,
    url = scheme ++ rest
    /\ (toLowerCase scheme = "http://" \/ toLowerCase scheme = "https://")
    /\ rest <> ""
    /\ allChars (fun c => negb (isSpace c)) url = true.

(** [text] holds [part] somewhere. *)
Definition hasPart (text part : string) : Prop :=
  exists before after, text = before ++ part ++ after.

(** The text of a markdown link. *)
Definition markdownLink (label url : string) : string :=
  "[" ++ label ++ "](" ++ url ++ ")".
(** *** Rows of the listing and their tasks *)

(** What a listing row takes over from its task unchanged, read off the
    row and off the task. *)
Definition rowFields (r : ProjectRow.t) : string * string * string * Status * Z * string :=
  (ProjectRow.module r, ProjectRow.assignee r, ProjectRow.taskKey r, ProjectRow.status r,
   ProjectRow.storyPoint r, ProjectRow.weeks r).

Definition taskFields (t : Task) : string * string * string * Status * Z * string :=
  (module t, assignee t, taskKey t, status t, storyPoint t, join "," (weeks t)).

(** The order of the listing on the keys a row shows: module, then
    assignee, then status. *)
Definition listedBefore (localeCompare : string -> string -> Z) (r r' : ProjectRow.t) : Prop :=
  lexCmp localeCompare (lexCmp localeCompare statusCmp)
    (ProjectRow.module r, (ProjectRow.assignee r, ProjectRow.status r))
    (ProjectRow.module r', (ProjectRow.assignee r', ProjectRow.status r')) <= 0.

(** The four statuses, in the order of the charts and of the overview. *)
Definition allStatuses : list Status := [open; inprogress; done; other].
(** *** Counts by status *)

(** The number of elements of each status, [status] read by [f]. *)
Definition statusCounts {A : Type} (f : A -> Status) (l : list A) : StatusSummary.t :=
  StatusSummary.mk
    (countWhere (fun x => Status_eqb (f x) open) l)
    (countWhere (fun x => Status_eqb (f x) inprogress) l)
    (countWhere (fun x => Status_eqb (f x) done) l)
    (countWhere (fun x => Status_eqb (f x) other) l).

(** The sum of the values of the slices of a pie. *)
Definition pieTotal (slices : list Slice.t) : Z :=
  fold_right Z.add 0 (List.map Slice.value slices).

(** *** Bars of the assignee chart *)

(** The comparator of counts, greatest first. *)
Definition countDesc (a b : nat) : Z := Z.of_nat b - Z.of_nat a.

(** The number of rows of the listing with assignee [a]. *)
Definition rowsOf (rows : list ProjectRow.t) (a : string) : nat :=
  countWhere (fun r => String.eqb (ProjectRow.assignee r) a) rows.
(** *** Buckets of the histogram *)

(** The story point is one of the five buckets. *)
Definition scored (t : Task) : bool := (1 <=? storyPoint t) && (storyPoint t <=? 5).

(** The sum of the five buckets of a histogram row. *)
Definition bucketSum (r : AssigneeRow.t) : nat :=
  (AssigneeRow.point1 r + AssigneeRow.point2 r + AssigneeRow.point3 r
   + AssigneeRow.point4 r + AssigneeRow.point5 r)%nat.
(** *** Groups of the comparison table *)

(** The comparator of the flag of a comparison row, flagged rows first. *)
Definition flagDesc (a b : bool) : Z := Z.b2z b - Z.b2z a.

(** The keys the comparison is sorted by. *)
Definition compareKey (r : CompareRow.t) : string * (string * (bool * string)) :=
  (CompareRow.module r,
   (CompareRow.assignee r, (CompareRow.invalidDoneBoth r, CompareRow.taskId r))).

Definition sameCompareModule (r r' : CompareRow.t) : bool :=
  String.eqb (CompareRow.module r) (CompareRow.module r').

Definition sameCompareKey (r r' : CompareRow.t) : bool :=
  String.eqb (compareAssigneeKey r) (compareAssigneeKey r').
(** *** Workload of the current week *)

(** The workload row the manager tab shows for assignee [a]: of the tasks
    of [a], those of story point up to 2, those of story point 3, the
    others, and their number. *)
Definition workloadRow (tasks : list Task) (a : string) : WorkloadRow.t :=
  let mine := List.filter (fun t => String.eqb (assignee t) a) tasks in
  WorkloadRow.mk a
    (countWhere (fun t => storyPoint t <=? 2) mine)
    (countWhere (fun t => negb (storyPoint t <=? 2) && (storyPoint t =? 3)) mine)
    (countWhere (fun t => negb (storyPoint t <=? 2) && negb (storyPoint t =? 3)) mine)
    (length mine).

(** The invariant of the workload's accumulation loop. *)
Definition workloadTallied (m : JsMap WorkloadRow.t) (seen : list Task) : Prop :=
  NoDup (List.map fst m)
  /\ forall a,
       mapGet a m =
       if existsb (fun t => String.eqb (assignee t) a) seen
       then Some (workloadRow seen a)
       else None.

(** *** Tasks carried over several weeks *)

(** A task the carry-over table lists: in progress, with two week labels
    or more. *)
Definition carriedOver (t : Task) : bool :=
  Status_eqb (status t) inprogress && (2 <=? length (weeks t))%nat.

(** The row the carry-over table builds from a task. *)
Definition carryOverRow (t : Task) : CarryOverRow.t :=
  CarryOverRow.mk (orElse (taskId t) "-") (orElse (name t) "-") (assignee t) (module t)
    (join ", " (weeks t)).

(** The key under which the carry-over table files a task. *)
Definition carryOverKey (t : Task) : string :=
  orElse (taskId t) (module t ++ "-" ++ name t).
(** *** Order of the comparison *)

(** The order of the comparison on the keys a row shows: module, then
    assignee, then the rows flagged as done in both weeks first. *)
Definition comparedBefore (localeCompare : string -> string -> Z) (r r' : CompareRow.t) : Prop :=
  lexCmp localeCompare (lexCmp localeCompare flagDesc)
    (CompareRow.module r, (CompareRow.assignee r, CompareRow.invalidDoneBoth r))
    (CompareRow.module r', (CompareRow.assignee r', CompareRow.invalidDoneBoth r')) <= 0.

(** *** Bare task keys *)

(** A task key as the trackers write it: a letter, one or more letters or
    digits, a hyphen and one or more digits. *)
Definition bareKey (prefix : ascii) (word digits : string) : string :=
  String prefix (word ++ "-" ++ digits).

(** * Properties *)

(** ** Strings *)

Lemma append_cons (c : ascii) (a b : string) : String c a ++ b = String c (a ++ b).
Proof. reflexivity. Qed.

Lemma append_nil_l (s : string) : "" ++ s = s.
Proof. reflexivity. Qed.

Lemma append_nil_r (s : string) : s ++ "" = s.
Proof. induction s as [|c s IH]; [reflexivity|]. now rewrite append_cons, IH. Qed.

Lemma append_assoc (a b c : string) : (a ++ b) ++ c = a ++ (b ++ c).
Proof. induction a as [|x a IH]; [reflexivity|]. now rewrite !append_cons, IH. Qed.

(** ** Story point normalisation *)


Lemma nearestInteger_unique (q : Q) (j k : Z) :
  nearestInteger q j -> nearestInteger q k -> j = k.
Proof.
  intros [Hj1 Hj2] [Hk1 Hk2].
  assert (Hjk : (inject_Z j - (1 # 2) < inject_Z k + (1 # 2))%Q)
    by (eapply Qle_lt_trans; eauto).
  assert (Hkj : (inject_Z k - (1 # 2) < inject_Z j + (1 # 2))%Q)
    by (eapply Qle_lt_trans; eauto).
  unfold Qlt, Qminus, Qplus, Qopp, inject_Z in Hjk, Hkj. simpl in Hjk, Hkj.
  lia.
Qed.




Lemma storyPointValue_range (v : option Cell) : 0 <= storyPointValue v <= 5.
Proof.
  unfold storyPointValue. destruct (toNumber v); lia.
Qed.



(** ** Insertion-ordered maps and the sort *)

Section JsMapFacts.
Context {V : Type}.
Implicit Types (m : JsMap V) (k : string) (v : V).

Lemma mapGet_mapSet_eq m k v : mapGet k (mapSet k v m) = Some v.
Proof.
  induction m as [|[k' v'] m IH]; simpl.
  - now rewrite String.eqb_refl.
  - destruct (String.eqb k k') eqn:E; simpl; rewrite E; auto.
Qed.

Lemma mapGet_mapSet_ne m k k' v :
  k <> k' -> mapGet k' (mapSet k v m) = mapGet k' m.
Proof.
  intros Hne. induction m as [|[k0 v0] m IH]; simpl.
  - destruct (String.eqb_spec k' k); congruence.
  - destruct (String.eqb_spec k k0) as [->|]; simpl.
    + destruct (String.eqb_spec k' k0); congruence.
    + now rewrite IH.
Qed.

Lemma mapSet_keys_fresh m k v :
  mapGet k m = None -> List.map fst (mapSet k v m) = (List.map fst m ++ [k])%list.
Proof.
  induction m as [|[k' v'] m IH]; simpl; [reflexivity|].
  destruct (String.eqb k k'); [discriminate|].
  intros H. simpl. now rewrite IH.
Qed.

Lemma mapSet_keys_present m k v :
  mapGet k m <> None -> List.map fst (mapSet k v m) = List.map fst m.
Proof.
  induction m as [|[k' v'] m IH]; simpl; [congruence|].
  destruct (String.eqb k k'); simpl; [reflexivity|].
  intros H. now rewrite IH.
Qed.

Lemma mapGet_None_not_In m k : mapGet k m = None <-> ~ In k (List.map fst m).
Proof.
  induction m as [|[k' v'] m IH]; simpl; [tauto|].
  destruct (String.eqb_spec k k') as [->|Hne].
  - split; [discriminate | intros H; exfalso; apply H; now left].
  - rewrite IH. split; [intros H [?|?]; [congruence | tauto] | tauto].
Qed.

Lemma mapSet_NoDup m k v :
  NoDup (List.map fst m) -> NoDup (List.map fst (mapSet k v m)).
Proof.
  intros Hnd. destruct (mapGet k m) eqn:E.
  - rewrite mapSet_keys_present; [assumption | congruence].
  - rewrite mapSet_keys_fresh by assumption.
    apply NoDup_app. split; [assumption|]. split; [|apply NoDup_singleton].
    intros x Hx Hk. apply list_elem_of_In in Hx, Hk. destruct Hk as [<-|[]].
    now apply mapGet_None_not_In in E.
Qed.

Lemma mapGet_Some_In m k v : mapGet k m = Some v -> In (k, v) m.
Proof.
  induction m as [|[k' v'] m IH]; simpl; [discriminate|].
  destruct (String.eqb_spec k k') as [->|Hne].
  - intros [= ->]. now left.
  - intros H. right. auto.
Qed.

Lemma In_mapGet_Some m k v :
  NoDup (List.map fst m) -> In (k, v) m -> mapGet k m = Some v.
Proof.
  induction m as [|[k' v'] m IH]; simpl; [tauto|].
  intros Hnd [Heq|Hin].
  - injection Heq as -> ->. now rewrite String.eqb_refl.
  - inversion Hnd as [|? ? Hnot Hnd']; subst.
    destruct (String.eqb_spec k k') as [->|Hne].
    + exfalso. apply Hnot. apply list_elem_of_In, in_map_iff. now exists (k', v).
    + auto.
Qed.

End JsMapFacts.

Lemma insertBy_Permutation {A : Type} (cmp : A -> A -> Z) (x : A) (l : list A) :
  Permutation (insertBy cmp x l) (x :: l).
Proof.
  induction l as [|y l IH]; simpl; [reflexivity|].
  destruct (cmp x y <=? 0); [reflexivity|].
  rewrite IH. apply perm_swap.
Qed.

Lemma sortBy_Permutation {A : Type} (cmp : A -> A -> Z) (l : list A) :
  Permutation (sortBy cmp l) l.
Proof.
  induction l as [|x l IH]; simpl; [reflexivity|].
  rewrite insertBy_Permutation. now constructor.
Qed.

Lemma In_sortBy {A : Type} (cmp : A -> A -> Z) (l : list A) (x : A) :
  In x (sortBy cmp l) <-> In x l.
Proof.
  split; apply Permutation_in; [|symmetry]; apply sortBy_Permutation.
Qed.

(** ** Workload histogram *)

Section Histogram.
Variables (allWeeks : bool) (weekFilters : list string).

Local Abbreviation sel a := (fun t => weekSelected allWeeks weekFilters t && String.eqb (assignee t) a).

Lemma histogramRow_snoc (seen : list Task) (t : Task) (a : string) :
  histogramRow allWeeks weekFilters (seen ++ [t])%list a =
  if sel a t then bump (storyPoint t) (histogramRow allWeeks weekFilters seen a)
  else histogramRow allWeeks weekFilters seen a.
Proof.
  unfold histogramRow, countWhere, bump. simpl.
  rewrite !List.filter_app. simpl.
  destruct (weekSelected allWeeks weekFilters t && String.eqb (assignee t) a); simpl.
  - destruct (storyPoint t =? 1), (storyPoint t =? 2), (storyPoint t =? 3),
      (storyPoint t =? 4), (storyPoint t =? 5);
      simpl; rewrite ?length_app; simpl; rewrite ?Nat.add_0_r, ?Nat.add_1_r; reflexivity.
  - now rewrite !app_nil_r.
Qed.

Lemma histogramRow_none (seen : list Task) (a : string) :
  existsb (sel a) seen = false ->
  histogramRow allWeeks weekFilters seen a = emptyAssigneeRow a.
Proof.
  intros H. unfold histogramRow.
  assert (E : List.filter (sel a) seen = []).
  { induction seen as [|t seen IH]; simpl in *; [reflexivity|].
    apply orb_false_iff in H as [H1 H2]. rewrite H1. auto. }
  rewrite E. reflexivity.
Qed.

Lemma tally_step (m : JsMap AssigneeRow.t) (seen : list Task) (t : Task) :
  tallied allWeeks weekFilters m seen ->
  tallied allWeeks weekFilters (tally allWeeks weekFilters m t) (seen ++ [t])%list.
Proof.
  intros [Hnd Hget]. unfold tally.
  destruct (weekSelected allWeeks weekFilters t) eqn:Hsel; simpl.
  - split; [now apply mapSet_NoDup|].
    intros a. rewrite existsb_app, histogramRow_snoc. simpl. rewrite Hsel. simpl.
    destruct (String.eqb_spec (assignee t) a) as [<-|Hne].
    + rewrite mapGet_mapSet_eq, orb_true_r. f_equal. f_equal.
      rewrite Hget.
      destruct (existsb _ seen) eqn:E; simpl; [reflexivity|].
      symmetry. now apply histogramRow_none.
    + rewrite mapGet_mapSet_ne by assumption.
      rewrite !orb_false_r. apply Hget.
  - split; [assumption|].
    intros a. rewrite existsb_app, histogramRow_snoc. simpl. rewrite Hsel. simpl.
    rewrite orb_false_r. apply Hget.
Qed.

Lemma tally_fold (tasks seen : list Task) (m : JsMap AssigneeRow.t) :
  tallied allWeeks weekFilters m seen ->
  tallied allWeeks weekFilters
    (fold_left (tally allWeeks weekFilters) tasks m) (seen ++ tasks)%list.
Proof.
  revert seen m. induction tasks as [|t tasks IH]; intros seen m H; simpl.
  - now rewrite app_nil_r.
  - replace (seen ++ t :: tasks)%list with ((seen ++ [t]) ++ tasks)%list
      by (now rewrite <- app_assoc).
    apply IH. now apply tally_step.
Qed.

Lemma tally_all (tasks : list Task) :
  tallied allWeeks weekFilters (fold_left (tally allWeeks weekFilters) tasks []) tasks.
Proof.
  apply (tally_fold tasks [] []). split; [constructor | reflexivity].
Qed.

(** The histogram has exactly one row per assignee with a selected task,
    and that row is the one the specification describes. *)
Lemma assigneeRows_spec (localeCompare : string -> string -> Z)
  (tasks : list Task) (r : AssigneeRow.t) :
  In r (assigneeRows localeCompare tasks allWeeks weekFilters) <->
  existsb (sel (AssigneeRow.assignee r)) tasks = true
  /\ r = histogramRow allWeeks weekFilters tasks (AssigneeRow.assignee r).
Proof.
  unfold assigneeRows. rewrite In_sortBy, in_map_iff.
  destruct (tally_all tasks) as [Hnd Hget].
  split.
  - intros ([k v] & <- & Hin). simpl.
    apply In_mapGet_Some in Hin; [|assumption].
    rewrite Hget in Hin.
    destruct (existsb _ tasks) eqn:E; [|discriminate].
    injection Hin as <-. simpl. now rewrite E.
  - intros [E Hr].
    exists (AssigneeRow.assignee r, r). split; [reflexivity|].
    apply mapGet_Some_In. rewrite Hget, E. now f_equal.
Qed.

End Histogram.

(** C10. The blank story-point cell converts to the finite number 0 and
    normalises to story point 1, not to the unscored mark 0; a task whose
    story point comes from a blank cell and that passes the week selection
    is therefore counted in bucket 1 of its assignee's histogram row. *)
Theorem blank_story_point_is_bucket_1 :
  toNumber (Some (CStr "")) = Fin 0
  /\ storyPointValue (Some (CStr "")) = 1
  /\ (forall columns row,
        cellAt row (detectColumn columns (COLUMN_ALIASES FStoryPoint)) = Some (CStr "") ->
        storyPoint (parseRow columns row) = 1)
  /\ (forall localeCompare tasks allWeeks weekFilters t,
        In t tasks ->
        weekSelected allWeeks weekFilters t = true ->
        storyPoint t = storyPointValue (Some (CStr "")) ->
        exists r,
          In r (assigneeRows localeCompare tasks allWeeks weekFilters)
          /\ AssigneeRow.assignee r = assignee t
          /\ AssigneeRow.point1 r =
             countWhere (fun u => weekSelected allWeeks weekFilters u
                                  && String.eqb (assignee u) (assignee t)
                                  && (storyPoint u =? 1)) tasks
          /\ (0 < AssigneeRow.point1 r)%nat).
Proof.
  split; [reflexivity|]. split; [reflexivity|]. split.
  - intros columns row H. unfold parseRow. cbn [storyPoint]. now rewrite H.
  - intros lc tasks allWeeks weekFilters t Hin Hsel Hsp.
    change (storyPointValue (Some (CStr ""))) with 1 in Hsp.
    exists (histogramRow allWeeks weekFilters tasks (assignee t)).
    assert (Hex : existsb (fun u => weekSelected allWeeks weekFilters u
                                   && String.eqb (assignee u) (assignee t)) tasks = true).
    { apply existsb_exists. exists t. split; [assumption|].
      now rewrite Hsel, String.eqb_refl. }
    split; [|split; [reflexivity|]].
    + apply assigneeRows_spec. simpl. split; [exact Hex | reflexivity].
    + simpl. unfold countWhere.
      assert (Hcount : forall l,
        List.filter (fun u => storyPoint u =? 1)
          (List.filter (fun u => weekSelected allWeeks weekFilters u
                                 && String.eqb (assignee u) (assignee t)) l)
        = List.filter (fun u => weekSelected allWeeks weekFilters u
                                && String.eqb (assignee u) (assignee t)
                                && (storyPoint u =? 1)) l).
      { induction l as [|u l IH]; simpl; [reflexivity|].
        destruct (weekSelected allWeeks weekFilters u && String.eqb (assignee u) (assignee t));
          simpl; [destruct (storyPoint u =? 1)|]; now rewrite IH. }
      rewrite Hcount. split; [reflexivity|].
      assert (Hmem : In t (List.filter (fun u => weekSelected allWeeks weekFilters u
                                && String.eqb (assignee u) (assignee t)
                                && (storyPoint u =? 1)) tasks)).
      { apply filter_In. split; [assumption|].
        rewrite Hsel, String.eqb_refl, Hsp. reflexivity. }
      destruct (List.filter _ tasks); [destruct Hmem | simpl; lia].
Qed.

Lemma blank_story_point_is_bucket_1_witness :
  exists r,
    In r (assigneeRows codeUnitCompare [blankPointTask] false ["W01"])
    /\ AssigneeRow.assignee r = "An"
    /\ AssigneeRow.point1 r =
       countWhere (fun u => weekSelected false ["W01"] u
                            && String.eqb (assignee u) "An"
                            && (storyPoint u =? 1)) [blankPointTask]
    /\ (0 < AssigneeRow.point1 r)%nat.
Proof.
  destruct blank_story_point_is_bucket_1 as (_ & _ & _ & H).
  apply (H codeUnitCompare [blankPointTask] false ["W01"] blankPointTask).
  - left. reflexivity.
  - reflexivity.
  - reflexivity.
Defined.

(** ** Upload with unresolved columns *)

Lemma In_flag (b : bool) (x y : string) :
  In x (if b then [y] else []) <-> b = true /\ y = x.
Proof. destruct b; simpl; intuition congruence. Qed.

Lemma missingColumns_spec (columns : list string) (f : Field) :
  In (displayName f) (missingColumns columns)
  <-> detectColumn columns (COLUMN_ALIASES f) = "".
Proof.
  unfold missingColumns. rewrite !in_app_iff, !In_flag, !String.eqb_eq.
  destruct f; simpl displayName; split; intros H;
    repeat match goal with
    | H : _ \/ _ |- _ => destruct H as [H|H]
    | H : _ /\ _ = _ |- _ => destruct H as [? H]; try discriminate H
    end; auto 20.
Qed.

Lemma missingColumns_only_display_names (columns : list string) (x : string) :
  In x (missingColumns columns) -> exists f, x = displayName f.
Proof.
  unfold missingColumns. rewrite !in_app_iff, !In_flag.
  intros H.
  repeat match goal with
  | H : _ \/ _ |- _ => destruct H as [H|H]
  end; destruct H as [_ <-];
  [ exists FTaskId | exists FIssueType | exists FAssignee | exists FStoryPoint
  | exists FName | exists FLabels | exists FEpicLink | exists FModule | exists FStatus ];
  reflexivity.
Qed.

Lemma missingColumns_NoDup (columns : list string) : NoDup (missingColumns columns).
Proof.
  unfold missingColumns.
  repeat match goal with
  | |- context [String.eqb ?a ""] => destruct (String.eqb a "")
  end; apply (bool_decide_unpack _); vm_compute; exact I.
Qed.

(** C8. For a decoded sheet with at least one row: if, after column
    resolution over the union of headers, some required logical field is
    unresolved, the upload ends with one error message that lists the
    display name of every unresolved field (each once, and nothing else),
    keeps the raw rows and leaves the task collection empty.  A sheet on
    which Status alone is unresolved reports exactly Status. *)
Theorem missing_required_columns_failure :
  (forall rows st,
      rows <> [] ->
      (exists f, detectColumn (columnsOf rows) (COLUMN_ALIASES f) = "") ->
      let st' := handleFileUpload (Decoded rows) st in
      error st' = "Thiếu cột bắt buộc: " ++ join ", " (missingColumns (columnsOf rows))
      /\ rawRows st' = rows
      /\ tasks st' = [])
  /\ (forall columns f,
        In (displayName f) (missingColumns columns)
        <-> detectColumn columns (COLUMN_ALIASES f) = "")
  /\ (forall columns x, In x (missingColumns columns) -> exists f, x = displayName f)
  /\ (forall columns, NoDup (missingColumns columns))
  /\ (forall columns,
        (forall f, detectColumn columns (COLUMN_ALIASES f) = "" <-> f = FStatus) ->
        missingColumns columns = ["Status"])
  /\ handleFileUpload (Decoded sheetWithoutStatus) initialState
     = mkState sheetWithoutStatus [] "Thiếu cột bắt buộc: Status" ""
         "all" "all" "all" true [] "" "".
Proof.
  split; [|split; [|split; [|split; [|split]]]].
  - intros rows st Hrows [f Hf] st'. subst st'.
    apply missingColumns_spec in Hf.
    unfold handleFileUpload.
    destruct rows as [|row rows]; [congruence|].
    destruct (missingColumns (columnsOf (row :: rows))) as [|x missing]; [destruct Hf|].
    simpl. auto.
  - exact missingColumns_spec.
  - exact missingColumns_only_display_names.
  - exact missingColumns_NoDup.
  - intros columns H. unfold missingColumns.
    pose proof (proj2 (H FStatus) eq_refl) as Hs. rewrite Hs.
    assert (Hne : forall f, f <> FStatus ->
              String.eqb (detectColumn columns (COLUMN_ALIASES f)) "" = false).
    { intros f Hf. apply String.eqb_neq. intros E. apply Hf. now apply H. }
    rewrite (Hne FTaskId), (Hne FIssueType), (Hne FAssignee), (Hne FStoryPoint),
      (Hne FName), (Hne FLabels), (Hne FEpicLink), (Hne FModule) by discriminate.
    reflexivity.
  - vm_compute. reflexivity.
Qed.

Lemma missing_required_columns_failure_witness :
  error (handleFileUpload (Decoded sheetWithoutStatus) initialState)
  = "Thiếu cột bắt buộc: " ++ join ", " (missingColumns (columnsOf sheetWithoutStatus))
  /\ rawRows (handleFileUpload (Decoded sheetWithoutStatus) initialState) = sheetWithoutStatus
  /\ tasks (handleFileUpload (Decoded sheetWithoutStatus) initialState) = []
  /\ missingColumns (columnsOf sheetWithoutStatus) = ["Status"].
Proof.
  destruct missing_required_columns_failure as (H & _ & _ & _ & Honly & _).
  destruct (H sheetWithoutStatus initialState) as (H1 & H2 & H3).
  - discriminate.
  - exists FStatus. vm_compute. reflexivity.
  - split; [exact H1 | split; [exact H2 | split; [exact H3 |]]].
    apply Honly. intros f. destruct f; vm_compute; split; congruence.
Defined.

(** ** The per-identity, per-week status map *)

Lemma notAfter_statusIndex (a b : Status) :
  notAfter a b = (statusIndex a <=? statusIndex b).
Proof. destruct a, b; reflexivity. Qed.

Lemma notAfter_refl (a : Status) : notAfter a a = true.
Proof. now destruct a. Qed.

Lemma notAfter_trans (a b c : Status) :
  notAfter a b = true -> notAfter b c = true -> notAfter a c = true.
Proof. destruct a, b, c; simpl; congruence. Qed.

Lemma notAfter_antisym (a b : Status) :
  notAfter a b = true -> notAfter b a = true -> a = b.
Proof. destruct a, b; simpl; congruence. Qed.

Lemma notAfter_total (a b : Status) : notAfter a b = true \/ notAfter b a = true.
Proof. destruct a, b; simpl; auto. Qed.

Lemma isMostAdvanced_unique (l : list Status) (o o' : option Status) :
  isMostAdvanced l o -> isMostAdvanced l o' -> o = o'.
Proof.
  destruct o as [m|], o' as [m'|]; simpl.
  - intros [Hin Hub] [Hin' Hub']. f_equal. apply notAfter_antisym; auto.
  - intros [Hin _] ->. destruct Hin.
  - intros -> [Hin _]. destruct Hin.
  - reflexivity.
Qed.

Lemma isMostAdvanced_Permutation (l l' : list Status) (o : option Status) :
  Permutation l l' -> isMostAdvanced l o -> isMostAdvanced l' o.
Proof.
  intros Hp. destruct o as [m|]; simpl.
  - intros [Hin Hub]. split.
    + eapply Permutation_in; eauto.
    + intros s Hs. apply Hub. eapply Permutation_in; [symmetry|]; eauto.
  - intros ->. now apply Permutation_nil.
Qed.

Lemma mergeStatus_fold_most_advanced (l : list Status) :
  isMostAdvanced l (fold_left mergeStatus l None).
Proof.
  enough (G : forall l pre acc,
             isMostAdvanced pre acc ->
             isMostAdvanced (pre ++ l)%list (fold_left mergeStatus l acc))
    by (apply (G l [] None); reflexivity).
  clear l. induction l as [|s l IH]; intros pre acc Hacc; simpl.
  - now rewrite app_nil_r.
  - replace (pre ++ s :: l)%list with ((pre ++ [s]) ++ l)%list
      by (now rewrite <- app_assoc).
    apply IH. destruct acc as [m|]; simpl in *.
    + destruct Hacc as [Hin Hub].
      destruct (notAfter m s) eqn:E.
      * split; [apply in_or_app; right; now left|].
        intros x [Hx|[<-|[]]]%in_app_or; [|apply notAfter_refl].
        eapply notAfter_trans; eauto.
      * split; [apply in_or_app; now left|].
        intros x [Hx|[<-|[]]]%in_app_or; [auto|].
        destruct (notAfter_total m s); congruence.
    + subst pre. simpl. split; [now left|].
      intros x [<-|[]]. apply notAfter_refl.
Qed.

Lemma mergeWeek_lookup (st : Status) (m : gmap string Status) (week w : string) :
  mergeWeek st m week !! w =
  if String.eqb week w then mergeStatus (m !! week) st else m !! w.
Proof.
  unfold mergeWeek, mergeStatus.
  destruct (String.eqb_spec week w) as [<-|Hne].
  - destruct (m !! week) as [current|] eqn:E.
    + rewrite notAfter_statusIndex.
      destruct (Z.gtb_spec (statusIndex st) (statusIndex current)) as [Hgt|Hle].
      * rewrite lookup_insert_eq.
        destruct (Z.leb_spec (statusIndex current) (statusIndex st)); [reflexivity | lia].
      * rewrite E. f_equal.
        destruct (Z.leb_spec (statusIndex current) (statusIndex st)); [|reflexivity].
        destruct st, current; simpl in *; try reflexivity; lia.
    + now rewrite lookup_insert_eq.
  - destruct (m !! week) as [current|];
      [destruct (statusIndex st >? statusIndex current)|];
      rewrite ?lookup_insert_ne by assumption; reflexivity.
Qed.

Lemma mergeStatus_idem (acc : option Status) (s : Status) :
  mergeStatus (mergeStatus acc s) s = mergeStatus acc s.
Proof.
  destruct acc as [c|]; simpl.
  - destruct (notAfter c s) eqn:E; [now rewrite notAfter_refl | now rewrite E].
  - now rewrite notAfter_refl.
Qed.

Lemma mergeWeeks_lookup (t : Task) (m : gmap string Status) (w : string) :
  mergeWeeks t m !! w =
  if includes w (weeks t) then mergeStatus (m !! w) (status t) else m !! w.
Proof.
  unfold mergeWeeks. generalize (weeks t) as ws. intros ws. revert m.
  induction ws as [|week ws IH]; intros m; simpl; [reflexivity|].
  rewrite IH, mergeWeek_lookup.
  destruct (String.eqb_spec week w) as [->|Hne].
  - rewrite String.eqb_refl. simpl.
    destruct (includes w ws); [apply mergeStatus_idem | reflexivity].
  - destruct (String.eqb_spec w week); [congruence|]. reflexivity.
Qed.

Lemma recordTask_statusAt (byWeek : gmap string (gmap string Status)) (t : Task)
  (key week : string) :
  statusAt (recordTask byWeek t) key week =
  if reports key week t then mergeStatus (statusAt byWeek key week) (status t)
  else statusAt byWeek key week.
Proof.
  unfold statusAt, recordTask, reports.
  destruct (String.eqb_spec (taskKey t) key) as [<-|Hne]; simpl.
  - rewrite lookup_insert_eq. simpl. rewrite mergeWeeks_lookup.
    destruct (byWeek !! taskKey t); reflexivity.
  - now rewrite lookup_insert_ne.
Qed.

Lemma taskStatusByWeek_fold (tasks : list Task)
  (byWeek : gmap string (gmap string Status)) (key week : string) :
  statusAt (fold_left recordTask tasks byWeek) key week =
  fold_left mergeStatus (reportedStatuses tasks key week) (statusAt byWeek key week).
Proof.
  revert byWeek. induction tasks as [|t tasks IH]; intros byWeek; [reflexivity|].
  simpl. rewrite IH, recordTask_statusAt. unfold reportedStatuses. simpl.
  destruct (reports key week t); reflexivity.
Qed.

Lemma statusAt_most_advanced (tasks : list Task) (key week : string) :
  isMostAdvanced (reportedStatuses tasks key week)
    (statusAt (taskStatusByWeek tasks) key week).
Proof.
  unfold taskStatusByWeek. rewrite taskStatusByWeek_fold.
  apply mergeStatus_fold_most_advanced.
Qed.

Lemma reportedStatuses_Permutation (tasks tasks' : list Task) (key week : string) :
  Permutation tasks tasks' ->
  Permutation (reportedStatuses tasks key week) (reportedStatuses tasks' key week).
Proof.
  intros Hp. unfold reportedStatuses. apply Permutation_map.
  induction Hp; simpl.
  - constructor.
  - destruct (reports key week x); [constructor|]; assumption.
  - destruct (reports key week x), (reports key week y);
      try reflexivity; apply perm_swap.
  - etransitivity; eauto.
Qed.

(** C3. For every identity key and week code, the status recorded in the
    per-identity per-week map is the maximum, under
    open < inprogress < done < other, of the statuses of the rows with that
    key that carry that week label (and there is no entry when there is no
    such row); a row of status other overrides a row of status done; and
    the recorded status does not depend on the order of the rows. *)
Theorem merged_status_is_most_advanced :
  (forall tasks key week,
      isMostAdvanced (reportedStatuses tasks key week)
        (statusAt (taskStatusByWeek tasks) key week))
  /\ (forall tasks t1 t2 key week,
        In t1 tasks -> In t2 tasks ->
        reports key week t1 = true -> reports key week t2 = true ->
        status t1 = done -> status t2 = other ->
        statusAt (taskStatusByWeek tasks) key week = Some other)
  /\ (forall tasks tasks' key week,
        Permutation tasks tasks' ->
        statusAt (taskStatusByWeek tasks) key week
        = statusAt (taskStatusByWeek tasks') key week).
Proof.
  split; [exact statusAt_most_advanced|]. split.
  - intros tasks t1 t2 key week _ Hin2 _ Hr2 _ Hs2.
    pose proof (statusAt_most_advanced tasks key week) as H.
    destruct (statusAt (taskStatusByWeek tasks) key week) as [m|]; simpl in H.
    + destruct H as [_ Hub]. f_equal.
      assert (Hother : notAfter other m = true).
      { apply Hub. unfold reportedStatuses. rewrite <- Hs2.
        apply in_map, filter_In. auto. }
      now destruct m.
    + assert (Hin : In (status t2) (reportedStatuses tasks key week))
        by (apply in_map, filter_In; auto).
      rewrite H in Hin. destruct Hin.
  - intros tasks tasks' key week Hp.
    eapply isMostAdvanced_unique; [apply statusAt_most_advanced|].
    eapply isMostAdvanced_Permutation; [|apply statusAt_most_advanced].
    symmetry. now apply reportedStatuses_Permutation.
Qed.

Lemma merged_status_is_most_advanced_witness :
  statusAt (taskStatusByWeek [doneRow; otherRow]) "PROJ-1" "W01" = Some other
  /\ statusAt (taskStatusByWeek [doneRow; otherRow]) "PROJ-1" "W01"
     = statusAt (taskStatusByWeek [otherRow; doneRow]) "PROJ-1" "W01".
Proof.
  destruct merged_status_is_most_advanced as (_ & Hover & Hperm).
  split.
  - apply (Hover [doneRow; otherRow] doneRow otherRow); simpl; auto.
  - apply Hperm. apply perm_swap.
Defined.

(** ** Two-week comparison *)

Lemma compareTaskMap_fold (tasks : list Task) (tm : JsMap TaskEntry.t)
  (byWeek : gmap string (gmap string Status)) :
  NoDup (List.map fst tm) ->
  (forall k, TaskEntry.statusByWeek <$> mapGet k tm = byWeek !! k) ->
  NoDup (List.map fst (fold_left recordEntry tasks tm))
  /\ forall k,
       TaskEntry.statusByWeek <$> mapGet k (fold_left recordEntry tasks tm)
       = fold_left recordTask tasks byWeek !! k.
Proof.
  revert tm byWeek. induction tasks as [|t tasks IH]; intros tm byWeek Hnd Hrel; simpl.
  - auto.
  - apply IH.
    + now apply mapSet_NoDup.
    + intros k. unfold recordEntry, recordTask.
      destruct (String.eqb_spec (taskKey t) k) as [<-|Hne].
      * rewrite mapGet_mapSet_eq, lookup_insert_eq. simpl. f_equal. f_equal.
        rewrite <- Hrel. destruct (mapGet (taskKey t) tm); reflexivity.
      * rewrite mapGet_mapSet_ne, lookup_insert_ne by assumption. apply Hrel.
Qed.

Lemma compareTaskMap_keys (tasks : list Task) :
  NoDup (List.map fst (compareTaskMap tasks)).
Proof.
  apply (compareTaskMap_fold tasks [] ∅); [constructor | reflexivity].
Qed.

(** The comparison builds the same merged statuses as the listing. *)
Lemma entryStatus_statusAt (tasks : list Task) (key week : string) :
  entryStatus (compareTaskMap tasks) key week
  = statusAt (taskStatusByWeek tasks) key week.
Proof.
  unfold entryStatus, statusAt, taskStatusByWeek, compareTaskMap.
  destruct (compareTaskMap_fold tasks [] ∅) as [_ H]; [constructor | reflexivity |].
  rewrite <- H. destruct (mapGet key _); reflexivity.
Qed.

Lemma statusAt_Some_iff (tasks : list Task) (key week : string) :
  statusAt (taskStatusByWeek tasks) key week <> None
  <-> exists t, In t tasks /\ taskKey t = key /\ In week (weeks t).
Proof.
  pose proof (statusAt_most_advanced tasks key week) as H.
  unfold reportedStatuses in H.
  assert (Hrep : forall t, reports key week t = true <-> taskKey t = key /\ In week (weeks t)).
  { intros t. unfold reports, includes.
    rewrite andb_true_iff, String.eqb_eq, existsb_exists.
    split; intros [H1 H2]; split; auto.
    - destruct H2 as (w & Hw & ->%String.eqb_eq). assumption.
    - exists week. split; [assumption | apply String.eqb_refl]. }
  destruct (statusAt (taskStatusByWeek tasks) key week) as [m|]; simpl in H.
  - destruct H as [Hin _]. apply in_map_iff in Hin as (t & _ & Ht).
    apply filter_In in Ht as [Ht Hr]. apply Hrep in Hr.
    split; [|congruence]. intros _. exists t. tauto.
  - split; [congruence|]. intros (t & Ht & Hk & Hw). exfalso.
    assert (Hin : In t (List.filter (reports key week) tasks))
      by (apply filter_In; split; [assumption | now apply Hrep]).
    apply (in_map status) in Hin. rewrite H in Hin. destruct Hin.
Qed.

Section Comparison.
Variable localeCompare : string -> string -> Z.
Variables (tasks : list Task) (compareWeekA compareWeekB : string).

Lemma compareRows_unset_A : compareRows localeCompare tasks "" compareWeekB = [].
Proof. reflexivity. Qed.

Lemma compareRows_unset_B : compareRows localeCompare tasks compareWeekA "" = [].
Proof. unfold compareRows. now rewrite orb_true_r. Qed.

Hypothesis setA : compareWeekA <> "".
Hypothesis setB : compareWeekB <> "".

Lemma In_compareRows (r : CompareRow.t) :
  In r (compareRows localeCompare tasks compareWeekA compareWeekB) <->
  exists e,
    mapGet (CompareRow.taskKey r) (compareTaskMap tasks) = Some e
    /\ r = toCompareRow compareWeekA compareWeekB (CompareRow.taskKey r, e)
    /\ hasData r = true.
Proof.
  unfold compareRows.
  destruct (String.eqb_spec compareWeekA ""); [contradiction|].
  destruct (String.eqb_spec compareWeekB ""); [contradiction|].
  simpl. rewrite In_sortBy, filter_In, in_map_iff.
  pose proof (compareTaskMap_keys tasks) as Hnd.
  split.
  - intros [([k e] & <- & Hin) Hdata]. simpl. exists e.
    split; [now apply In_mapGet_Some|]. split; [reflexivity | exact Hdata].
  - intros (e & Hget & Hr & Hdata). split; [|assumption].
    exists (CompareRow.taskKey r, e). split; [now symmetry|].
    now apply mapGet_Some_In.
Qed.

Lemma compareRows_statuses (r : CompareRow.t) :
  In r (compareRows localeCompare tasks compareWeekA compareWeekB) ->
  CompareRow.statusA r
  = statusAt (taskStatusByWeek tasks) (CompareRow.taskKey r) compareWeekA
  /\ CompareRow.statusB r
     = statusAt (taskStatusByWeek tasks) (CompareRow.taskKey r) compareWeekB
  /\ CompareRow.invalidDoneBoth r
     = bool_decide (CompareRow.statusA r = Some done)
       && bool_decide (CompareRow.statusB r = Some done).
Proof.
  intros (e & Hget & Hr & _)%In_compareRows.
  rewrite <- !entryStatus_statusAt. unfold entryStatus. rewrite Hget. simpl.
  rewrite Hr. simpl. auto.
Qed.

Lemma compareRows_appears (key : string) :
  (exists r, In r (compareRows localeCompare tasks compareWeekA compareWeekB)
             /\ CompareRow.taskKey r = key)
  <-> statusAt (taskStatusByWeek tasks) key compareWeekA <> None
      \/ statusAt (taskStatusByWeek tasks) key compareWeekB <> None.
Proof.
  rewrite <- !entryStatus_statusAt. unfold entryStatus.
  split.
  - intros (r & (e & Hget & Hr & Hdata)%In_compareRows & <-).
    rewrite Hget. simpl. rewrite Hr in Hdata. unfold hasData in Hdata. simpl in Hdata.
    apply orb_true_iff in Hdata as [H|H]; [left | right];
      apply negb_true_iff, bool_decide_eq_false in H; exact H.
  - intros H. destruct (mapGet key (compareTaskMap tasks)) as [e|] eqn:Hget;
      simpl in H; [|destruct H; congruence].
    exists (toCompareRow compareWeekA compareWeekB (key, e)). split; [|reflexivity].
    apply In_compareRows. simpl. exists e. split; [assumption|]. split; [reflexivity|].
    unfold hasData. simpl. apply orb_true_iff.
    destruct H as [H|H]; [left | right];
      apply negb_true_iff, bool_decide_eq_false; exact H.
Qed.

Lemma compareRows_one_row_per_key (r r' : CompareRow.t) :
  In r (compareRows localeCompare tasks compareWeekA compareWeekB) ->
  In r' (compareRows localeCompare tasks compareWeekA compareWeekB) ->
  CompareRow.taskKey r = CompareRow.taskKey r' -> r = r'.
Proof.
  intros (e & Hget & Hr & _)%In_compareRows (e' & Hget' & Hr' & _)%In_compareRows Hk.
  rewrite Hr, Hr'. rewrite Hk in Hget. congruence.
Qed.

End Comparison.

(** C4. With both comparison weeks set, an identity key has a row in the
    comparison exactly when its merged status map has an entry for week A
    or for week B, that is, when some row of that identity carries one of
    the two labels; a row whose merged status is done in both weeks has
    [invalidDoneBoth] set; and with either week unset the comparison is
    empty. *)
Theorem comparison_rows_characterised :
  (forall localeCompare tasks compareWeekA compareWeekB key,
      compareWeekA <> "" -> compareWeekB <> "" ->
      ((exists r, In r (compareRows localeCompare tasks compareWeekA compareWeekB)
                  /\ CompareRow.taskKey r = key)
       <-> entryStatus (compareTaskMap tasks) key compareWeekA <> None
           \/ entryStatus (compareTaskMap tasks) key compareWeekB <> None)
      /\ ((exists r, In r (compareRows localeCompare tasks compareWeekA compareWeekB)
                     /\ CompareRow.taskKey r = key)
          <-> exists t, In t tasks /\ taskKey t = key
                        /\ (In compareWeekA (weeks t) \/ In compareWeekB (weeks t))))
  /\ (forall localeCompare tasks compareWeekA compareWeekB r,
        compareWeekA <> "" -> compareWeekB <> "" ->
        In r (compareRows localeCompare tasks compareWeekA compareWeekB) ->
        entryStatus (compareTaskMap tasks) (CompareRow.taskKey r) compareWeekA = Some done ->
        entryStatus (compareTaskMap tasks) (CompareRow.taskKey r) compareWeekB = Some done ->
        CompareRow.invalidDoneBoth r = true)
  /\ (forall localeCompare tasks compareWeekB,
        compareRows localeCompare tasks "" compareWeekB = [])
  /\ (forall localeCompare tasks compareWeekA,
        compareRows localeCompare tasks compareWeekA "" = []).
Proof.
  split; [|split; [|split]].
  - intros lc tasks A B key HA HB.
    rewrite !entryStatus_statusAt. split.
    + now apply compareRows_appears.
    + rewrite (compareRows_appears lc tasks A B HA HB key), !statusAt_Some_iff.
      split.
      * intros [(t & ? & ? & ?)|(t & ? & ? & ?)]; exists t; tauto.
      * intros (t & ? & ? & [?|?]); [left | right]; exists t; tauto.
  - intros lc tasks A B r HA HB Hin HdA HdB.
    destruct (compareRows_statuses lc tasks A B HA HB r Hin) as (Ha & Hb & ->).
    rewrite !entryStatus_statusAt in *. rewrite Ha, Hb, HdA, HdB. reflexivity.
  - intros. apply compareRows_unset_A.
  - intros. apply compareRows_unset_B.
Qed.

Lemma comparison_rows_characterised_witness :
  ((exists r, In r (compareRows codeUnitCompare doneTwice "W01" "W02")
              /\ CompareRow.taskKey r = "PROJ-2")
   <-> entryStatus (compareTaskMap doneTwice) "PROJ-2" "W01" <> None
       \/ entryStatus (compareTaskMap doneTwice) "PROJ-2" "W02" <> None)
  /\ In doneTwiceRow (compareRows codeUnitCompare doneTwice "W01" "W02")
  /\ CompareRow.invalidDoneBoth doneTwiceRow = true.
Proof.
  destruct comparison_rows_characterised as (Happ & Hdone & _).
  assert (Hin : In doneTwiceRow (compareRows codeUnitCompare doneTwice "W01" "W02"))
    by (vm_compute; left; reflexivity).
  split; [|split; [exact Hin|]].
  - apply (Happ codeUnitCompare doneTwice "W01" "W02" "PROJ-2"); discriminate.
  - apply (Hdone codeUnitCompare doneTwice "W01" "W02" doneTwiceRow);
      [discriminate | discriminate | exact Hin | vm_compute; reflexivity
      | vm_compute; reflexivity].
Defined.

(** ** Identity key of a row with a blank key cell *)

Lemma parseTaskKeyCell_blank (value : option Cell) :
  trim (toText value) = "" -> parseTaskKeyCell value = mkKeyInfo "-" "".
Proof.
  intros H. unfold parseTaskKeyCell. rewrite H. reflexivity.
Qed.

Lemma taskKey_present (t : Task) : taskId t <> "" -> taskKey t = taskId t.
Proof.
  intros H. unfold taskKey, orElse.
  destruct (String.eqb_spec (taskId t) ""); [contradiction | reflexivity].
Qed.

Lemma taskKey_absent (t : Task) :
  taskId t = "" -> taskKey t = module t ++ "||" ++ name t.
Proof.
  intros H. unfold taskKey, orElse. now rewrite H.
Qed.

Lemma mapChars_nonempty (f : ascii -> ascii) (s : string) :
  s <> "" -> mapChars f s <> "".
Proof. destruct s; [congruence | discriminate]. Qed.

Lemma orElse_nonempty (a b : string) : b <> "" -> orElse a b <> "".
Proof.
  intros Hb. unfold orElse. destruct (String.eqb_spec a ""); assumption.
Qed.

Lemma firstMatch_Some (at_ : string -> option string) (s m : string) :
  firstMatch at_ s = Some m -> exists suffix, at_ suffix = Some m.
Proof.
  induction s as [|c s IH]; simpl.
  - destruct (at_ "") eqn:E; [intros [= <-]; eauto | discriminate].
  - destruct (at_ (String c s)) eqn:E; [intros [= <-]; eauto | exact IH].
Qed.

Lemma firstMatch_input_nonempty (s m : string) :
  firstMatch urlAt s = Some m -> s <> "".
Proof. intros H ->. discriminate H. Qed.

Lemma matchMarkdown_label_nonempty (raw label url : string) :
  matchMarkdown raw = Some (label, url) -> label <> "".
Proof.
  unfold matchMarkdown. intros H.
  repeat match type of H with
  | context [match ?x with _ => _ end] => destruct x; try discriminate H
  end.
  injection H as <- _. discriminate.
Qed.

(** The task id derived from a key cell is never empty, so the composite
    fallback of the identity key is never taken. *)
Lemma parseTaskKeyCell_nonempty (value : option Cell) :
  keyTaskId (parseTaskKeyCell value) <> "".
Proof.
  unfold parseTaskKeyCell.
  destruct (matchMarkdown (trim (toText value))) as [[label url]|] eqn:Emd.
  - simpl. now apply matchMarkdown_label_nonempty in Emd.
  - destruct (firstMatch urlAt (trim (toText value))) as [taskUrl|] eqn:Eurl.
    + simpl. apply mapChars_nonempty. do 2 apply orElse_nonempty.
      now apply firstMatch_input_nonempty in Eurl.
    + destruct (firstMatch keyAt (trim (toText value))) as [k|] eqn:Ekey; simpl.
      * apply mapChars_nonempty.
        apply firstMatch_Some in Ekey as (suffix & Hk). unfold keyAt in Hk.
        repeat match type of Hk with
        | context [match ?x with _ => _ end] => destruct x; try discriminate Hk
        end.
        injection Hk as <-. discriminate.
      * now apply orElse_nonempty.
Qed.

(** C1, as the code has it.  A row whose key cell is blank is given the
    placeholder [-] as task id, and since the placeholder is a non-empty
    text the identity key of the row is [-] as well, not the composite of
    module and name; no row ever has an empty task id, so the identity key
    is always the task id.  On [blankKeySheet] the two different tasks
    receive the same identity, and the comparison of W01 with W02 and the
    manager reminder merge them into one row that is flagged as done in
    both weeks. *)
Theorem blank_key_identity_is_placeholder :
  (forall columns row,
      trim (toText (cellAt row (detectColumn columns (COLUMN_ALIASES FTaskId)))) = "" ->
      taskId (parseRow columns row) = "-"
      /\ taskKey (parseRow columns row) = "-")
  /\ (forall columns row,
        taskId (parseRow columns row) <> ""
        /\ taskKey (parseRow columns row) = taskId (parseRow columns row))
  /\ List.map taskKey (tasks (handleFileUpload (Decoded blankKeySheet) initialState))
     = ["-"; "-"]
  /\ List.map (fun t => module t ++ "||" ++ name t)
       (tasks (handleFileUpload (Decoded blankKeySheet) initialState))
     = ["Auth||Login page"; "Billing||Invoices"]
  /\ compareRows codeUnitCompare
       (tasks (handleFileUpload (Decoded blankKeySheet) initialState)) "W01" "W02"
     = [CompareRow.mk "-" "-" "Login page" "Auth" "An" (Some done) (Some done)
          "Không đổi" true]
  /\ List.map ReminderRow.taskKey
       (MultiWeek.managerReminderRows codeUnitCompare
          (tasks (handleFileUpload (Decoded blankKeySheet) initialState)) "W02")
     = ["-"].
Proof.
  split; [|split; [|repeat split; vm_compute; reflexivity]].
  - intros columns row H.
    assert (E : taskId (parseRow columns row) = "-").
    { unfold parseRow. cbn [taskId]. now rewrite parseTaskKeyCell_blank. }
    split; [exact E|]. rewrite taskKey_present; [exact E|]. now rewrite E.
  - intros columns row.
    assert (E : taskId (parseRow columns row) <> "")
      by (unfold parseRow; cbn [taskId]; apply parseTaskKeyCell_nonempty).
    split; [exact E | now apply taskKey_present].
Qed.

Lemma blank_key_identity_is_placeholder_witness :
  taskId (parseRow (columnsOf blankKeySheet) (nth 0 blankKeySheet [])) = "-"
  /\ taskKey (parseRow (columnsOf blankKeySheet) (nth 0 blankKeySheet [])) = "-".
Proof.
  destruct blank_key_identity_is_placeholder as (H & _).
  apply (H (columnsOf blankKeySheet) (nth 0 blankKeySheet [])).
  vm_compute. reflexivity.
Defined.

(** ** Staleness warning and the spelling of week codes *)

Lemma previousWeek_length (week : string) :
  previousWeek week = "" \/ String.length (previousWeek week) = 3%nat.
Proof.
  unfold previousWeek. destruct (weekNumber week) as [n|]; [|now left].
  destruct (n <=? 1); [now left|]. right.
  unfold smallNatToString. destruct (n - 1 <? 10); reflexivity.
Qed.

Lemma previousWeek_padded (week : string) (n : Z) :
  weekNumber week = Some n -> 2 <= n ->
  previousWeek week = "W" ++ padStart2 (smallNatToString (n - 1)).
Proof.
  intros H Hn. unfold previousWeek. rewrite H.
  destruct (Z.leb_spec n 1); [lia | reflexivity].
Qed.

Lemma markRows_warning (moduleCount assigneeCount : gmap string nat) (prevWeek : string)
  (seenModule seenAssignee : gset string) (rows : list (Task * bool)) :
  List.map (fun r => (ProjectRow.taskKey r, ProjectRow.prevDoneStillAppear r))
    (markRows moduleCount assigneeCount prevWeek seenModule seenAssignee rows)
  = List.map (fun x => (taskKey (fst x), snd x)) rows.
Proof.
  revert seenModule seenAssignee.
  induction rows as [|row rows IH]; intros sm sa; simpl; [reflexivity|].
  now rewrite IH.
Qed.

Lemma projectRows_warning (localeCompare : string -> string -> Z) (tasks : list Task)
  (weekFilter moduleFilter assigneeFilter : string) (r : ProjectRow.t) :
  In r (projectRows localeCompare tasks weekFilter moduleFilter assigneeFilter) ->
  exists t,
    In t tasks
    /\ matchesProjectFilters weekFilter moduleFilter assigneeFilter t = true
    /\ ProjectRow.taskKey r = taskKey t
    /\ ProjectRow.prevDoneStillAppear r
       = staleWarning (taskStatusByWeek tasks)
           (if String.eqb weekFilter "all" then "" else previousWeek weekFilter) t.
Proof.
  intros Hin.
  apply (in_map (fun r => (ProjectRow.taskKey r, ProjectRow.prevDoneStillAppear r))) in Hin.
  unfold projectRows in Hin. rewrite markRows_warning in Hin.
  apply in_map_iff in Hin as ([t b] & [= Hk Hb] & Hin). simpl in Hk, Hb. subst b.
  unfold projectFiltered in Hin. rewrite In_sortBy in Hin.
  apply in_map_iff in Hin as (t' & [= <- Hw] & Hin).
  apply filter_In in Hin as [Hin Hm].
  exists t'. rewrite Hw. auto.
Qed.

(** What the warning of a listed row tests: a week is selected, its number
    [n] is at least 2, and the status map of the row's identity has done
    under the zero-padded code of week [n - 1]. *)
Lemma projectRows_warning_iff (localeCompare : string -> string -> Z) (tasks : list Task)
  (weekFilter moduleFilter assigneeFilter : string) (r : ProjectRow.t) :
  In r (projectRows localeCompare tasks weekFilter moduleFilter assigneeFilter) ->
  (ProjectRow.prevDoneStillAppear r = true <->
   weekFilter <> "all"
   /\ exists n,
        weekNumber weekFilter = Some n /\ 2 <= n
        /\ statusAt (taskStatusByWeek tasks) (ProjectRow.taskKey r)
             ("W" ++ padStart2 (smallNatToString (n - 1))) = Some done).
Proof.
  intros (t & _ & _ & -> & ->)%projectRows_warning.
  unfold staleWarning, previousWeek.
  destruct (String.eqb_spec weekFilter "all") as [->|Hall].
  - simpl. split; [discriminate | intros [H _]; now destruct H].
  - destruct (weekNumber weekFilter) as [n|].
    + destruct (Z.leb_spec n 1) as [Hle|Hgt].
      * simpl. split; [discriminate|]. intros (_ & n' & [= <-] & Hn & _). lia.
      * rewrite append_cons, append_nil_l. cbn [String.eqb negb andb].
        rewrite bool_decide_eq_true. split.
        -- intros H. split; [assumption|]. exists n. repeat split; [lia | exact H].
        -- intros (_ & n' & [= <-] & _ & H). exact H.
    + simpl. split; [discriminate|]. intros (_ & n' & Hn & _). discriminate Hn.
Qed.

(** C2, as the code has it.  The warning looks the preceding week up under
    its zero-padded code only.  For the task of [unpaddedWeeks], done in W1
    and still labelled W2, the listing for the selection W2 carries no
    warning, in the single-week listing and in the multi-week one.  In
    general a listed row is warned exactly when a week of number [n >= 2]
    is selected and the status map of its identity has done under the
    zero-padded code of week [n - 1]; so on any collection whose week
    labels are all of length two (a W and one digit) no selection ever
    raises a warning. *)
Theorem unpadded_week_codes_never_warn :
  List.map ProjectRow.prevDoneStillAppear
    (projectRows codeUnitCompare unpaddedWeeks "W2" "all" "all") = [false]
  /\ List.map ProjectRow.taskKey
       (projectRows codeUnitCompare unpaddedWeeks "W2" "all" "all") = ["PROJ-1"]
  /\ statusAt (taskStatusByWeek unpaddedWeeks) "PROJ-1" "W1" = Some done
  /\ weekNumber "W2" = Some 2
  /\ weekNumber "W1" = Some 1
  /\ previousWeek "W2" = "W01"
  /\ List.map snd
       (MultiWeek.projectFiltered codeUnitCompare unpaddedWeeks false ["W2"] "all" "all")
     = [false]
  /\ (forall localeCompare tasks weekFilter moduleFilter assigneeFilter r,
        In r (projectRows localeCompare tasks weekFilter moduleFilter assigneeFilter) ->
        (ProjectRow.prevDoneStillAppear r = true <->
         weekFilter <> "all"
         /\ exists n,
              weekNumber weekFilter = Some n /\ 2 <= n
              /\ statusAt (taskStatusByWeek tasks) (ProjectRow.taskKey r)
                   ("W" ++ padStart2 (smallNatToString (n - 1))) = Some done))
  /\ (forall localeCompare tasks weekFilter moduleFilter assigneeFilter r,
        (forall t w, In t tasks -> In w (weeks t) -> String.length w = 2%nat) ->
        In r (projectRows localeCompare tasks weekFilter moduleFilter assigneeFilter) ->
        ProjectRow.prevDoneStillAppear r = false).
Proof.
  repeat (split; [vm_compute; reflexivity|]).
  split; [exact projectRows_warning_iff|].
  intros lc tasks weekFilter moduleFilter assigneeFilter r Hlen Hin.
  apply projectRows_warning in Hin as (t & _ & _ & _ & ->).
  unfold staleWarning.
  destruct (String.eqb_spec (if String.eqb weekFilter "all" then "" else previousWeek weekFilter) "")
    as [->|Hne]; [reflexivity|].
  simpl. apply bool_decide_eq_false. intros Hdone.
  assert (Hsome : statusAt (taskStatusByWeek tasks) (taskKey t)
            (if String.eqb weekFilter "all" then "" else previousWeek weekFilter) <> None)
    by congruence.
  apply statusAt_Some_iff in Hsome as (t' & Ht' & _ & Hw).
  apply Hlen in Hw; [|assumption].
  destruct (String.eqb weekFilter "all"); [now apply Hne|].
  destruct (previousWeek_length weekFilter) as [E|E]; [now apply Hne | congruence].
Qed.

Lemma unpadded_week_codes_never_warn_witness :
  List.Forall (fun r => ProjectRow.prevDoneStillAppear r = false)
    (projectRows codeUnitCompare unpaddedWeeks "W2" "all" "all").
Proof.
  destruct unpadded_week_codes_never_warn as (_ & _ & _ & _ & _ & _ & _ & _ & H).
  apply List.Forall_forall. intros r.
  apply (H codeUnitCompare unpaddedWeeks "W2" "all" "all" r).
  intros t w [<-|[<-|[]]] [<-|[]]; reflexivity.
Defined.

(** ** Report serialiser *)

Lemma includesChar_occursIn (c : ascii) (text : string) :
  includesChar c text = true <-> occursIn c text.
Proof.
  unfold occursIn. induction text as [|d text IH]; simpl.
  - split; [discriminate|]. intros ([|x a] & b & H); discriminate.
  - rewrite orb_true_iff, IH, Ascii.eqb_eq. split.
    + intros [->|(a & b & ->)].
      * now exists "", text.
      * now exists (String d a), b.
    + intros ([|x a] & b & H); injection H as -> ->; [now left|].
      right. now exists a, b.
Qed.

Lemma needsQuoting_cons (c : ascii) (text : string) :
  needsQuoting (String c text) =
  (Ascii.eqb c "034" || Ascii.eqb c "," || Ascii.eqb c "010") || needsQuoting text.
Proof.
  unfold needsQuoting. cbn [includesChar].
  rewrite (Ascii.eqb_sym "," c), (Ascii.eqb_sym "010" c), (Ascii.eqb_sym "034" c).
  destruct (Ascii.eqb c "034"), (Ascii.eqb c ","), (Ascii.eqb c "010"),
    (includesChar "," text), (includesChar "010" text), (includesChar "034" text);
    reflexivity.
Qed.

Lemma resplit_plain_field (f rest : string) :
  needsQuoting f = false ->
  resplitAux Plain (f ++ rest) =
  let '(cur, row, rows) := resplitAux Plain rest in (f ++ cur, row, rows).
Proof.
  induction f as [|c f IH]; intros H.
  - rewrite append_nil_l. destruct (resplitAux Plain rest) as [[cur row] rows].
    now rewrite append_nil_l.
  - rewrite needsQuoting_cons in H.
    apply orb_false_iff in H as [Hc Hf].
    apply orb_false_iff in Hc as [Hc Hnl].
    apply orb_false_iff in Hc as [Hq Hcomma].
    rewrite append_cons. cbn [resplitAux]. rewrite Hq, Hcomma, Hnl, (IH Hf).
    now destruct (resplitAux Plain rest) as [[cur row] rows].
Qed.

Lemma resplit_closed_at_delimiter (rest : string) :
  atDelimiter rest -> resplitAux Closed rest = resplitAux Plain rest.
Proof.
  destruct rest as [|c rest]; [reflexivity|].
  intros [->| ->]; reflexivity.
Qed.

Lemma resplit_quoted_field (f rest : string) :
  resplitAux Quoted (doubleQuotes f ++ String "034" rest) =
  let '(cur, row, rows) := resplitAux Closed rest in (f ++ cur, row, rows).
Proof.
  induction f as [|c f IH].
  - cbn [doubleQuotes]. rewrite append_nil_l. cbn [resplitAux]. cbn [Ascii.eqb Bool.eqb].
    destruct (resplitAux Closed rest) as [[cur row] rows]. now rewrite append_nil_l.
  - cbn [doubleQuotes]. destruct (Ascii.eqb c "034") eqn:E.
    + apply Ascii.eqb_eq in E. subst c.
      rewrite !append_cons. cbn [resplitAux]. cbn [Ascii.eqb Bool.eqb].
      rewrite IH. now destruct (resplitAux Closed rest) as [[cur row] rows].
    + rewrite append_cons. cbn [resplitAux]. rewrite E, IH.
      now destruct (resplitAux Closed rest) as [[cur row] rows].
Qed.

Lemma resplit_delimiter_field (rest : string) :
  atDelimiter rest -> fst (fst (resplitAux Plain rest)) = "".
Proof.
  destruct rest as [|c rest]; [reflexivity|].
  intros [->| ->]; cbn; now destruct (resplitAux Plain rest) as [[cur row] rows].
Qed.

(** Reading back one serialised field. *)
Lemma resplit_field (v : Cell) (rest : string) :
  atDelimiter rest ->
  resplitAux Plain (escapeCsv v ++ rest) =
  (toText (Some v), snd (fst (resplitAux Plain rest)), snd (resplitAux Plain rest)).
Proof.
  intros Hd. pose proof (resplit_delimiter_field rest Hd) as Hcur.
  unfold escapeCsv. destruct (needsQuoting (toText (Some v))) eqn:E.
  - rewrite append_cons. cbn [resplitAux]. cbn [Ascii.eqb Bool.eqb].
    rewrite append_assoc, append_cons. change ("" ++ rest) with rest.
    rewrite resplit_quoted_field, resplit_closed_at_delimiter by assumption.
    destruct (resplitAux Plain rest) as [[cur row] rows]. simpl in *. subst cur.
    now rewrite append_nil_r.
  - rewrite resplit_plain_field by assumption.
    destruct (resplitAux Plain rest) as [[cur row] rows]. simpl in *. subst cur.
    now rewrite append_nil_r.
Qed.

Lemma join_one (sep x : string) : join sep [x] = x.
Proof. reflexivity. Qed.

Lemma join_more (sep x y : string) (r : list string) :
  join sep (x :: y :: r) = x ++ sep ++ join sep (y :: r).
Proof. reflexivity. Qed.

Lemma append_char (c : ascii) (s : string) : String c EmptyString ++ s = String c s.
Proof. reflexivity. Qed.

Lemma resplit_line (v : Cell) (row : list Cell) (rest : string) :
  atLineEnd rest ->
  resplitAux Plain (lineOf (v :: row) ++ rest) =
  (toText (Some v), List.map (fun x => toText (Some x)) row, snd (resplitAux Plain rest)).
Proof.
  intros Hrest. revert v. induction row as [|w row IH]; intros v.
  - unfold lineOf. cbn [List.map]. rewrite join_one.
    rewrite resplit_field by (destruct rest; simpl in *; auto).
    destruct rest as [|c rest]; [reflexivity|]. simpl in Hrest. subst c.
    cbn [resplitAux]. cbn [Ascii.eqb Bool.eqb].
    now destruct (resplitAux Plain rest) as [[cur rw] rws].
  - unfold lineOf in *. cbn [List.map] in *. rewrite join_more.
    rewrite !append_assoc, append_char.
    rewrite resplit_field by (simpl; auto).
    cbn [resplitAux]. cbn [Ascii.eqb Bool.eqb]. rewrite IH. reflexivity.
Qed.

Lemma resplit_lines (row : list Cell) (rows : list (list Cell)) :
  row <> [] -> Forall (fun r => r <> []) rows ->
  resplitCsv (join (String "010" EmptyString) (List.map lineOf (row :: rows)))
  = cellTexts (row :: rows).
Proof.
  intros Hrow Hrows. revert row Hrow.
  induction Hrows as [|r rows Hr Hrows IH]; intros row Hrow.
  - destruct row as [|v row]; [contradiction|]. cbn [List.map]. rewrite join_one.
    unfold resplitCsv. rewrite <- (append_nil_r (lineOf (v :: row))).
    rewrite resplit_line by exact I. reflexivity.
  - destruct row as [|v row]; [contradiction|].
    specialize (IH r Hr). unfold resplitCsv in *.
    cbn [List.map] in *. rewrite join_more, append_char.
    rewrite resplit_line by reflexivity.
    cbn [resplitAux]. cbn [Ascii.eqb Bool.eqb].
    destruct (resplitAux Plain (join (String "010" EmptyString) (lineOf r :: List.map lineOf rows)))
      as [[cur rw] rws].
    cbn [snd]. unfold cellTexts in *. cbn [List.map] in *. now rewrite IH.
Qed.

Lemma toCsv_lines (headers : list string) (rows : list (list Cell)) :
  toCsv headers rows
  = join (String "010" EmptyString) (List.map lineOf (List.map CStr headers :: rows)).
Proof.
  unfold toCsv, lineOf. cbn [List.map]. now rewrite List.map_map.
Qed.

Lemma escapeCsv_wrapped_iff (v : Cell) :
  wrappedForm (toText (Some v)) (escapeCsv v)
  <-> occursIn "," (toText (Some v))
      \/ occursIn "010" (toText (Some v))
      \/ occursIn "034" (toText (Some v)).
Proof.
  rewrite <- !includesChar_occursIn. unfold wrappedForm, escapeCsv.
  destruct (needsQuoting (toText (Some v))) eqn:E.
  - split; [|reflexivity]. intros _. unfold needsQuoting in E.
    apply orb_true_iff in E as [E|E]; [apply orb_true_iff in E as [E|E]|]; auto.
  - split.
    + intros H. exfalso. rewrite H in E at 1.
      rewrite needsQuoting_cons in E. discriminate.
    + intros H. exfalso. unfold needsQuoting in E.
      apply orb_false_iff in E as [E E3]. apply orb_false_iff in E as [E1 E2].
      destruct H as [H|[H|H]]; congruence.
Qed.

Lemma escapeCsv_plain (v : Cell) :
  ~ occursIn "," (toText (Some v)) ->
  ~ occursIn "010" (toText (Some v)) ->
  ~ occursIn "034" (toText (Some v)) ->
  escapeCsv v = toText (Some v).
Proof.
  rewrite <- !includesChar_occursIn. intros H1 H2 H3. unfold escapeCsv, needsQuoting.
  destruct (includesChar "," _); [now destruct H1|].
  destruct (includesChar "010" _); [now destruct H2|].
  destruct (includesChar "034" _); [now destruct H3|]. reflexivity.
Qed.

(** C7, as stated, fails for a header row or a data row without cells: the
    empty header row and the header row made of one empty name serialise to
    the same text, so no re-splitting recovers both. *)
Lemma csv_roundtrip_fails_without_cells :
  toCsv [] [] = toCsv [""] []
  /\ ~ (exists resplit : string -> list (list string),
          forall headers rows, resplit (toCsv headers rows) = headers :: cellTexts rows).
Proof.
  split; [reflexivity|].
  intros [resplit H].
  pose proof (H [] []) as H0. pose proof (H [""] []) as H1.
  change (toCsv [""] []) with (toCsv [] []) in H1.
  rewrite H0 in H1. discriminate H1.
Qed.

(** C7, amended.  For every header row with at least one name and every
    list of data rows with at least one cell each, re-splitting the
    serialised report under the escaping rule gives back the header names
    and the text of every cell; and a serialised field is its value wrapped
    in double quotes, with the double quotes of the value doubled, exactly
    when the value contains a comma, a line feed or a double quote, and is
    the value itself otherwise. *)
Theorem csv_roundtrip_and_quoting :
  (forall headers rows,
      headers <> [] -> Forall (fun r => r <> []) rows ->
      resplitCsv (toCsv headers rows) = headers :: cellTexts rows)
  /\ (forall v,
        wrappedForm (toText (Some v)) (escapeCsv v)
        <-> occursIn "," (toText (Some v))
            \/ occursIn "010" (toText (Some v))
            \/ occursIn "034" (toText (Some v)))
  /\ (forall v,
        ~ occursIn "," (toText (Some v)) ->
        ~ occursIn "010" (toText (Some v)) ->
        ~ occursIn "034" (toText (Some v)) ->
        escapeCsv v = toText (Some v)).
Proof.
  split; [|split; [exact escapeCsv_wrapped_iff | exact escapeCsv_plain]].
  intros headers rows Hh Hrows.
  rewrite toCsv_lines, resplit_lines.
  - unfold cellTexts. cbn [List.map]. f_equal.
    rewrite List.map_map. simpl. apply List.map_id.
  - destruct headers; [contradiction | discriminate].
  - assumption.
Qed.

Lemma csv_roundtrip_and_quoting_witness :
  resplitCsv (toCsv sampleHeaders sampleReport) = sampleHeaders :: cellTexts sampleReport
  /\ escapeCsv (CStr "PROJ-1") = "PROJ-1".
Proof.
  destruct csv_roundtrip_and_quoting as (Hround & _ & Hplain).
  split.
  - apply (Hround sampleHeaders sampleReport).
    + discriminate.
    + repeat constructor; discriminate.
  - apply (Hplain (CStr "PROJ-1"));
      rewrite <- includesChar_occursIn; vm_compute; discriminate.
Defined.

(** ** Comparators and the sort *)

Section TotalOrderCmpFacts.
Context {K : Type} (c : K -> K -> Z) (Hc : TotalOrderCmp c).

Lemma cmp_total (a b : K) : c a b <= 0 \/ c b a <= 0.
Proof.
  destruct (Z_le_gt_dec (c a b) 0) as [H|H]; [now left|].
  right. assert (c b a < 0) by (apply (cmp_antisym c Hc); lia). lia.
Qed.

Lemma cmp_le_antisym (a b : K) : c a b <= 0 -> c b a <= 0 -> a = b.
Proof.
  intros H1 H2. apply (cmp_eq c Hc).
  destruct (Z.eq_dec (c a b) 0) as [|Hne]; [assumption|].
  assert (H : c a b < 0) by lia. apply (cmp_antisym c Hc) in H. lia.
Qed.

Lemma cmp_zero_iff (a b : K) : c a b = 0 <-> a = b.
Proof.
  split; [apply (cmp_eq c Hc) | intros ->; apply (cmp_refl c Hc)].
Qed.

End TotalOrderCmpFacts.

Lemma orZ_zero (a b : Z) : orZ a b = 0 <-> a = 0 /\ b = 0.
Proof. unfold orZ. destruct (Z.eqb_spec a 0); lia. Qed.

Lemma lexCmp_total_order {K1 K2 : Type} (c1 : K1 -> K1 -> Z) (c2 : K2 -> K2 -> Z) :
  TotalOrderCmp c1 -> TotalOrderCmp c2 -> TotalOrderCmp (lexCmp c1 c2).
Proof.
  intros H1 H2. split.
  - intros [a1 a2]. unfold lexCmp. simpl.
    now rewrite (cmp_refl c1 H1), (cmp_refl c2 H2).
  - intros [a1 a2] [b1 b2]. unfold lexCmp. simpl. intros [E1 E2]%orZ_zero.
    f_equal; [now apply (cmp_eq c1 H1) | now apply (cmp_eq c2 H2)].
  - intros [a1 a2] [b1 b2]. unfold lexCmp, orZ. simpl.
    destruct (Z.eqb_spec (c1 a1 b1) 0) as [E|E].
    + apply (cmp_eq c1 H1) in E. subst b1. rewrite (cmp_refl c1 H1). simpl.
      apply (cmp_antisym c2 H2).
    + destruct (Z.eqb_spec (c1 b1 a1) 0) as [E'|E'].
      * apply (cmp_eq c1 H1) in E'. subst b1. now rewrite (cmp_refl c1 H1) in E.
      * apply (cmp_antisym c1 H1).
  - intros [a1 a2] [b1 b2] [d1 d2]. unfold lexCmp, orZ. simpl.
    destruct (Z.eqb_spec (c1 a1 b1) 0) as [Eab|Eab].
    + apply (cmp_eq c1 H1) in Eab. subst b1.
      destruct (Z.eqb_spec (c1 a1 d1) 0) as [Ead|Ead]; [|auto].
      apply (cmp_trans c2 H2).
    + intros Hab. destruct (Z.eqb_spec (c1 b1 d1) 0) as [Ebd|Ebd].
      * apply (cmp_eq c1 H1) in Ebd. subst d1. intros _.
        destruct (Z.eqb_spec (c1 a1 b1) 0); [contradiction | assumption].
      * intros Hbd. destruct (Z.eqb_spec (c1 a1 d1) 0) as [Ead|Ead].
        -- apply (cmp_eq c1 H1) in Ead. subst d1. exfalso.
           assert (Hlt : c1 a1 b1 < 0) by lia.
           apply (cmp_antisym c1 H1) in Hlt. lia.
        -- now apply (cmp_trans c1 H1 a1 b1 d1).
Qed.

Lemma statusCmp_total_order : TotalOrderCmp statusCmp.
Proof.
  split; unfold statusCmp.
  - intros a. lia.
  - intros a b H. destruct a, b; simpl in H; congruence || lia.
  - intros a b. lia.
  - intros a b d. lia.
Qed.

Lemma lexCmp_fst_le {K1 K2 : Type} (c1 : K1 -> K1 -> Z) (c2 : K2 -> K2 -> Z)
  (a b : K1 * K2) :
  TotalOrderCmp c1 -> lexCmp c1 c2 a b <= 0 -> c1 (fst a) (fst b) <= 0.
Proof.
  intros H1. unfold lexCmp, orZ.
  destruct (Z.eqb_spec (c1 (fst a) (fst b)) 0); lia.
Qed.


Section SortBy.
Context {A : Type} (cmp : A -> A -> Z).
Hypothesis cmp_total' : forall x y, cmp x y <= 0 \/ cmp y x <= 0.
Hypothesis cmp_trans' : forall x y z, cmp x y <= 0 -> cmp y z <= 0 -> cmp x z <= 0.

Lemma insertBy_sorted (x : A) (l : list A) :
  StronglySorted (fun a b => cmp a b <= 0) l ->
  StronglySorted (fun a b => cmp a b <= 0) (insertBy cmp x l).
Proof.
  induction 1 as [|y l Hs IH Hall]; simpl.
  - repeat constructor.
  - destruct (Z.leb_spec (cmp x y) 0) as [Hle|Hgt].
    + constructor; [now constructor|].
      constructor; [assumption|].
      eapply List.Forall_impl; [|exact Hall]. intros z Hz. simpl in Hz. eauto.
    + constructor; [assumption|].
      apply List.Forall_forall. intros z Hz.
      apply (Permutation_in _ (insertBy_Permutation cmp x l)) in Hz.
      destruct Hz as [<-|Hz].
      * destruct (cmp_total' x y); [lia | assumption].
      * rewrite List.Forall_forall in Hall. auto.
Qed.

Lemma sortBy_sorted (l : list A) :
  StronglySorted (fun a b => cmp a b <= 0) (sortBy cmp l).
Proof.
  induction l as [|x l IH]; simpl; [constructor | now apply insertBy_sorted].
Qed.

End SortBy.

Lemma StronglySorted_map {A B : Type} (f : A -> B) (R : B -> B -> Prop) (l : list A) :
  StronglySorted (fun a b => R (f a) (f b)) l -> StronglySorted R (List.map f l).
Proof.
  induction 1 as [|x l Hs IH Hall]; simpl; constructor; [assumption|].
  apply List.Forall_map. exact Hall.
Qed.

Lemma StronglySorted_impl {A : Type} (R R' : A -> A -> Prop) (l : list A) :
  (forall a b, R a b -> R' a b) -> StronglySorted R l -> StronglySorted R' l.
Proof.
  intros Himp. induction 1 as [|x l Hs IH Hall]; constructor; [assumption|].
  eapply List.Forall_impl; [|exact Hall]. auto.
Qed.

(** ** Group spans of the listing *)

Section FirstOccurrence.
Context {K : Type} (eqb : K -> K -> bool).
Hypothesis eqb_iff : forall a b, eqb a b = true <-> a = b.

Lemma existsb_eqb_In (k : K) (l : list K) : existsb (eqb k) l = true <-> In k l.
Proof.
  rewrite existsb_exists. split.
  - intros (s & Hs & ->%eqb_iff). assumption.
  - intros H. exists k. split; [assumption | now apply eqb_iff].
Qed.

(** In a sequence sorted by a total order, the first occurrences are the
    starts of the runs. *)
Lemma firstOcc_sorted (c : K -> K -> Z) (Hc : TotalOrderCmp c)
  (ks before : list K) (prev : option K) :
  StronglySorted (fun a b => c a b <= 0) ks ->
  match prev with
  | None => before = []
  | Some p =>
      In p before
      /\ (forall s, In s before -> c s p <= 0)
      /\ List.Forall (fun k => c p k <= 0) ks
  end ->
  firstOcc eqb before ks = runStartsFrom eqb prev ks.
Proof.
  intros Hs. revert before prev.
  induction Hs as [|k ks Hs IH Hall]; intros before prev Hprev; [reflexivity|].
  cbn [firstOcc runStartsFrom]. f_equal.
  - destruct prev as [p|].
    + destruct Hprev as (Hin & Hle & Hge). inversion Hge as [|? ? Hpk _]; subst.
      f_equal. destruct (eqb p k) eqn:E.
      * apply eqb_iff in E. subst p. now apply existsb_eqb_In.
      * destruct (existsb (eqb k) before) eqn:E'; [|reflexivity].
        apply existsb_eqb_In in E'. apply Hle in E'.
        assert (p = k) by (apply (cmp_le_antisym c Hc); assumption).
        apply eqb_iff in H. congruence.
    + now subst before.
  - apply IH. split; [now left|]. split; [|assumption].
    intros s [<-|Hin]; [rewrite (cmp_refl c Hc); lia|].
    destruct prev as [p|]; [|subst before; destruct Hin].
    destruct Hprev as (_ & Hle & Hge). inversion Hge; subst.
    eapply (cmp_trans c Hc); eauto.
Qed.


Lemma runStartsFrom_map {A : Type} (f : A -> K) (prev : option A) (l : list A) :
  runStartsFrom (fun a b => eqb (f a) (f b)) prev l
  = runStartsFrom eqb (option_map f prev) (List.map f l).
Proof.
  revert prev. induction l as [|x l IH]; intros prev; [reflexivity|].
  simpl. rewrite IH. destruct prev; reflexivity.
Qed.

End FirstOccurrence.


Lemma bool_decide_elem_of_list_to_set (k : string) (l : list string) :
  bool_decide (k ∈ (list_to_set l : gset string)) = existsb (String.eqb k) l.
Proof.
  destruct (existsb (String.eqb k) l) eqn:E.
  - apply bool_decide_eq_true. apply elem_of_list_to_set, list_elem_of_In.
    now apply (existsb_eqb_In String.eqb String.eqb_eq).
  - apply bool_decide_eq_false. intros H.
    apply elem_of_list_to_set, list_elem_of_In in H.
    apply (existsb_eqb_In String.eqb String.eqb_eq) in H. congruence.
Qed.

(** Adding a key to the seen set only when it is new gives the set of the
    keys met so far. *)
Lemma seen_step (k : string) (before : list string) :
  (if negb (existsb (String.eqb k) before)
   then {[k]} ∪ list_to_set before else list_to_set before)
  = (list_to_set (k :: before) : gset string).
Proof.
  destruct (existsb _ before) eqn:E; simpl; [|reflexivity].
  apply (existsb_eqb_In String.eqb String.eqb_eq) in E.
  apply list_elem_of_In in E.
  symmetry. apply subseteq_union_1_L, singleton_subseteq_l, elem_of_list_to_set.
  exact E.
Qed.

Section MarkRows.
Variables (moduleCount assigneeCount : gmap string nat) (prevWeek : string).




End MarkRows.

Lemma countWhere_map {A B : Type} (f : A -> B) (p : B -> bool) (l : list A) :
  countWhere (fun x => p (f x)) l = countWhere p (List.map f l).
Proof.
  unfold countWhere. induction l as [|x l IH]; simpl; [reflexivity|].
  destruct (p (f x)); simpl; now rewrite IH.
Qed.

Lemma countWhere_ext_in {A : Type} (p q : A -> bool) (l : list A) :
  (forall x, In x l -> p x = q x) -> countWhere p l = countWhere q l.
Proof.
  intros H. unfold countWhere. now rewrite (List.filter_ext_in p q l H).
Qed.

Lemma countWhere_pos {A : Type} (p : A -> bool) (l : list A) (x : A) :
  In x l -> p x = true -> (0 < countWhere p l)%nat.
Proof.
  intros Hin Hp. unfold countWhere.
  assert (H : In x (List.filter p l)) by (apply filter_In; auto).
  destruct (List.filter p l); [destruct H | simpl; lia].
Qed.

Lemma countWhere_zero {A : Type} (p : A -> bool) (l : list A) :
  (forall x, In x l -> p x = false) -> countWhere p l = 0%nat.
Proof.
  intros H. unfold countWhere. induction l as [|x l IH]; [reflexivity|].
  simpl. rewrite (H x) by now left. apply IH. intros y Hy. apply H. now right.
Qed.



Lemma list_sum_cons (x : nat) (l : list nat) : list_sum (x :: l) = (x + list_sum l)%nat.
Proof. reflexivity. Qed.

Section SpanSums.
Variables (moduleCount assigneeCount : gmap string nat) (prevWeek : string).



End SpanSums.

Lemma projectOrder_lex (localeCompare : string -> string -> Z) (a b : Task * bool) :
  projectOrder localeCompare a b
  = lexCmp localeCompare (lexCmp localeCompare (lexCmp statusCmp localeCompare))
      (sortKey a) (sortKey b).
Proof. reflexivity. Qed.



Section GroupSpans.
Variable localeCompare : string -> string -> Z.
Hypothesis collation : TotalOrderCmp localeCompare.
Variables (tasks : list Task) (weekFilter moduleFilter assigneeFilter : string).

Hypothesis keys_apart :
  forall t t',
    In t tasks -> In t' tasks ->
    matchesProjectFilters weekFilter moduleFilter assigneeFilter t = true ->
    matchesProjectFilters weekFilter moduleFilter assigneeFilter t' = true ->
    assigneeKeyOf t = assigneeKeyOf t' ->
    module t = module t' /\ assignee t = assignee t'.

Let rows := projectFiltered localeCompare tasks weekFilter moduleFilter assigneeFilter.



Lemma rows_sorted : StronglySorted (fun a b => projectOrder localeCompare a b <= 0) rows.
Proof.
  pose proof (lexCmp_total_order _ _ collation
                (lexCmp_total_order _ _ collation
                   (lexCmp_total_order _ _ statusCmp_total_order collation))) as H4.
  unfold rows, projectFiltered. apply sortBy_sorted.
  - intros x y. rewrite !projectOrder_lex. apply (cmp_total _ H4).
  - intros x y z. rewrite !projectOrder_lex. apply (cmp_trans _ H4).
Qed.


















End GroupSpans.

Lemma codeUnitCompare_total_order : TotalOrderCmp codeUnitCompare.
Proof.
  split; unfold codeUnitCompare.
  - intros a. pose proof (proj2 (OrderedTypeEx.String_as_OT.cmp_eq a a) eq_refl) as H.
    unfold OrderedTypeEx.String_as_OT.cmp in H. now rewrite H.
  - intros a b H. apply OrderedTypeEx.String_as_OT.cmp_eq.
    unfold OrderedTypeEx.String_as_OT.cmp. destruct (String.compare a b); [reflexivity|lia|lia].
  - intros a b. pose proof (OrderedTypeEx.String_as_OT.cmp_antisym a b) as H.
    unfold OrderedTypeEx.String_as_OT.cmp in H. rewrite H.
    destruct (String.compare b a); simpl; lia.
  - intros a b d Hab Hbd.
    destruct (String.compare a b) eqn:Eab; [| |lia].
    + apply OrderedTypeEx.String_as_OT.cmp_eq in Eab. now subst b.
    + destruct (String.compare b d) eqn:Ebd; [| |lia].
      * apply OrderedTypeEx.String_as_OT.cmp_eq in Ebd. subst d. now rewrite Eab.
      * apply OrderedTypeEx.String_as_OT.cmp_lt in Eab, Ebd.
        pose proof (OrderedTypeEx.String_as_OT.lt_trans _ _ _ Eab Ebd) as Had.
        apply OrderedTypeEx.String_as_OT.cmp_lt in Had.
        unfold OrderedTypeEx.String_as_OT.cmp in Had. now rewrite Had.
Qed.




(** ** Week labels *)

Section Tokens.
Variable sep : ascii -> bool.

Lemma append_eq_cons (c : ascii) (r pre x : string) :
  String c r = pre ++ x ->
  (pre = "" /\ x = String c r) \/ (exists pre', pre = String c pre' /\ r = pre' ++ x).
Proof.
  destruct pre as [|d pre'].
  - rewrite append_nil_l. intros <-. now left.
  - rewrite append_cons. intros [= <- ->]. right. now exists pre'.
Qed.

Lemma endsWith_nil (p : ascii -> bool) : ~ endsWith p "".
Proof. intros ([|d s'] & c & H & _); discriminate H. Qed.

Lemma endsWith_cons (p : ascii -> bool) (c : ascii) (s : string) :
  endsWith p (String c s) <-> (s = "" /\ p c = true) \/ endsWith p s.
Proof.
  split.
  - intros ([|d s'] & c0 & H & Hp).
    + rewrite append_nil_l in H. injection H as -> ->. now left.
    + rewrite append_cons in H. injection H as -> ->. right. now exists s', c0.
  - intros [[-> Hp]|(s' & c0 & -> & Hp)].
    + now exists "", c.
    + now exists (String c s'), c0.
Qed.

Lemma prefixRun_cons (c : ascii) (r : string) :
  prefixRun sep (String c r) = if sep c then "" else String c (prefixRun sep r).
Proof.
  unfold prefixRun. simpl. destruct (sep c); simpl; [reflexivity|].
  now destruct (span _ r).
Qed.

Lemma prefixRun_unique (s t post : string) :
  s = t ++ post ->
  allChars (fun c => negb (sep c)) t = true ->
  startsWithOrEmpty sep post ->
  t = prefixRun sep s.
Proof.
  revert s. induction t as [|c t IH]; intros s -> Hall Hpost.
  - rewrite append_nil_l. destruct post as [|d post]; [reflexivity|].
    simpl in Hpost. now rewrite prefixRun_cons, Hpost.
  - simpl in Hall. apply andb_true_iff in Hall as [Hc Hall].
    rewrite append_cons, prefixRun_cons.
    apply negb_true_iff in Hc. rewrite Hc. f_equal. now apply IH.
Qed.

Lemma prefixRun_is_run (s : string) :
  exists post,
    s = prefixRun sep s ++ post
    /\ allChars (fun c => negb (sep c)) (prefixRun sep s) = true
    /\ startsWithOrEmpty sep post.
Proof.
  induction s as [|c s (post & Hs & Hall & Hpost)].
  - now exists "".
  - rewrite prefixRun_cons. destruct (sep c) eqn:E.
    + exists (String c s). repeat split. exact E.
    + exists post. rewrite append_cons, <- Hs. repeat split; [|assumption].
      simpl. now rewrite E.
Qed.

Lemma isToken_nil (t : string) : ~ isToken sep "" t.
Proof.
  intros (pre & post & (Hs & Ht & _) & _).
  destruct pre; [|discriminate Hs]. rewrite append_nil_l in Hs.
  destruct t; [now apply Ht | discriminate Hs].
Qed.

Lemma isLaterToken_isToken (s t : string) : isLaterToken sep s t -> isToken sep s t.
Proof. intros (pre & post & Hrun & Hpre). exists pre, post. auto. Qed.

Lemma isToken_split (s t : string) :
  isToken sep s t <-> (t = prefixRun sep s /\ t <> "") \/ isLaterToken sep s t.
Proof.
  split.
  - intros (pre & post & (Hs & Ht & Hall & Hpost) & [->|Hpre]).
    + left. rewrite append_nil_l in Hs. split; [|assumption].
      now apply (prefixRun_unique s t post).
    + right. exists pre, post. repeat split; assumption.
  - intros [[-> Ht]|H]; [|now apply isLaterToken_isToken].
    destruct (prefixRun_is_run s) as (post & Hs & Hall & Hpost).
    exists "", post. split; [|now left]. repeat split; assumption.
Qed.

Lemma isToken_after_sep (c : ascii) (r t : string) :
  sep c = true -> (isToken sep (String c r) t <-> isToken sep r t).
Proof.
  intros Hc. split.
  - intros (pre & post & (Hs & Ht & Hall & Hpost) & Hpre).
    apply append_eq_cons in Hs as [[-> Hs]|(pre' & -> & Hs)].
    + exfalso. destruct t as [|d t]; [now apply Ht|].
      rewrite append_cons in Hs. injection Hs as -> _.
      simpl in Hall. rewrite Hc in Hall. discriminate Hall.
    + exists pre', post. split; [repeat split; assumption|].
      destruct Hpre as [Hpre|Hpre]; [discriminate Hpre|].
      apply endsWith_cons in Hpre as [[-> _]|Hpre]; auto.
  - intros (pre & post & (Hs & Ht & Hall & Hpost) & Hpre).
    exists (String c pre), post. split.
    + repeat split; try assumption. now rewrite append_cons, Hs.
    + right. apply endsWith_cons. destruct Hpre as [->|Hpre]; auto.
Qed.

Lemma isLaterToken_after_sep (c : ascii) (r t : string) :
  sep c = true -> (isLaterToken sep (String c r) t <-> isToken sep r t).
Proof.
  intros Hc. rewrite <- (isToken_after_sep c r t Hc). split.
  - apply isLaterToken_isToken.
  - intros (pre & post & (Hs & Ht & Hall & Hpost) & [->|Hpre]).
    + exfalso. rewrite append_nil_l in Hs. destruct t as [|d t]; [now apply Ht|].
      rewrite append_cons in Hs. injection Hs as -> _.
      simpl in Hall. rewrite Hc in Hall. discriminate Hall.
    + exists pre, post. repeat split; assumption.
Qed.

Lemma isLaterToken_after_char (c : ascii) (r t : string) :
  sep c = false -> (isLaterToken sep (String c r) t <-> isLaterToken sep r t).
Proof.
  intros Hc. split.
  - intros (pre & post & (Hs & Ht & Hall & Hpost) & Hpre).
    apply append_eq_cons in Hs as [[-> Hs]|(pre' & -> & Hs)].
    + now apply endsWith_nil in Hpre.
    + apply endsWith_cons in Hpre as [[_ Hp]|Hpre]; [congruence|].
      exists pre', post. repeat split; assumption.
  - intros (pre & post & (Hs & Ht & Hall & Hpost) & Hpre).
    exists (String c pre), post. split.
    + repeat split; try assumption. now rewrite append_cons, Hs.
    + apply endsWith_cons. now right.
Qed.

(** The pieces of a split are the first run and the later tokens. *)
Lemma splitRunsAux_spec (s : string) :
  (forall cur rest,
      splitRunsAux sep false s = (cur, rest) ->
      cur = prefixRun sep s
      /\ forall t, t <> "" -> (In t rest <-> isLaterToken sep s t))
  /\ (forall cur rest,
        splitRunsAux sep true s = (cur, rest) ->
        forall t, t <> "" -> (t = cur \/ In t rest <-> isToken sep s t)).
Proof.
  induction s as [|c r [IHf IHt]].
  - split; intros cur rest [= <- <-].
    + split; [reflexivity|]. intros t Ht. split; [intros []|].
      intros H. now apply isLaterToken_isToken, isToken_nil in H.
    + intros t Ht. split; [intros [->|[]]; now destruct Ht|].
      intros H. now apply isToken_nil in H.
  - cbn [splitRunsAux]. destruct (sep c) eqn:Hc.
    + destruct (splitRunsAux sep true r) as [cur' rest'] eqn:E.
      specialize (IHt cur' rest' eq_refl).
      split; intros cur rest [= <- <-].
      * split; [now rewrite prefixRun_cons, Hc|].
        intros t Ht. rewrite (isLaterToken_after_sep c r t Hc), <- (IHt t Ht).
        simpl. intuition congruence.
      * intros t Ht. rewrite (isToken_after_sep c r t Hc). now apply IHt.
    + destruct (splitRunsAux sep false r) as [cur' rest'] eqn:E.
      destruct (IHf cur' rest' eq_refl) as [Hcur Hrest].
      split; intros cur rest [= <- <-].
      * split; [now rewrite prefixRun_cons, Hc, Hcur|].
        intros t Ht. rewrite (isLaterToken_after_char c r t Hc). now apply Hrest.
      * intros t Ht. rewrite isToken_split, prefixRun_cons, Hc, <- Hcur.
        rewrite (isLaterToken_after_char c r t Hc), <- (Hrest t Ht).
        intuition congruence.
Qed.

Lemma In_splitRuns (s t : string) :
  t <> "" -> (In t (splitRuns sep s) <-> isToken sep s t).
Proof.
  intros Ht. unfold splitRuns.
  destruct (splitRunsAux sep false s) as [cur rest] eqn:E.
  destruct (proj1 (splitRunsAux_spec s) cur rest E) as [Hcur Hrest].
  rewrite isToken_split, <- (Hrest t Ht), <- Hcur. simpl. intuition congruence.
Qed.

End Tokens.

Lemma dedupAux_In (seen xs : list string) (x : string) :
  In x (dedupAux seen xs) <-> In x xs /\ ~ In x seen.
Proof.
  revert seen. induction xs as [|y xs IH]; intros seen; simpl; [tauto|].
  destruct (existsb (String.eqb y) seen) eqn:E.
  - apply (existsb_eqb_In String.eqb String.eqb_eq) in E.
    rewrite IH. split; [tauto|]. intros [[->|H] Hn]; tauto.
  - assert (Hy : ~ In y seen).
    { intros H. apply (existsb_eqb_In String.eqb String.eqb_eq) in H. congruence. }
    simpl. rewrite IH. simpl.
    destruct (string_dec y x) as [->|Hne]; [tauto|]. tauto.
Qed.

Lemma dedupAux_NoDup (seen xs : list string) : NoDup (dedupAux seen xs).
Proof.
  revert seen. induction xs as [|y xs IH]; intros seen; simpl; [constructor|].
  destruct (existsb (String.eqb y) seen); [apply IH|].
  constructor; [|apply IH].
  rewrite list_elem_of_In, dedupAux_In. simpl. tauto.
Qed.

Lemma In_dedup (xs : list string) (x : string) : In x (dedup xs) <-> In x xs.
Proof. unfold dedup. rewrite dedupAux_In. simpl. tauto. Qed.

Lemma isWeekCode_iff (w : string) : isWeekCode w = true <-> isWeekPattern w.
Proof.
  unfold isWeekPattern. split.
  - destruct w as [|c [|d1 [|d2 [|x w]]]]; simpl; try discriminate;
      destruct c as [[] [] [] [] [] [] [] []]; try discriminate.
    + intros H. left. now exists d1.
    + intros [H1 H2]%andb_true_iff. right. now exists d1, d2.
  - intros [(d1 & H1 & ->)|(d1 & d2 & H1 & H2 & ->)]; simpl;
      [exact H1 | now rewrite H1, H2].
Qed.

Lemma blank_separator (c : ascii) :
  isLabelSeparator (if isBracketOrQuote c then " "%char else c) = isTokenBreak c.
Proof.
  unfold isTokenBreak. destruct (isBracketOrQuote c); [|now rewrite orb_false_r].
  now rewrite orb_true_r.
Qed.

(** Blanking the brackets and quotes and splitting at the separators is
    splitting at the separators, brackets and quotes. *)
Lemma splitRunsAux_blank (inRun : bool) (text : string) :
  splitRunsAux isLabelSeparator inRun
    (mapChars (fun c => if isBracketOrQuote c then " "%char else c) text)
  = splitRunsAux isTokenBreak inRun text.
Proof.
  revert inRun. induction text as [|c text IH]; intros inRun; [reflexivity|].
  cbn [mapChars splitRunsAux]. rewrite blank_separator, !IH.
  destruct (isTokenBreak c) eqn:E; [reflexivity|].
  unfold isTokenBreak in E. apply orb_false_iff in E as [_ E]. now rewrite E.
Qed.

Lemma trimEnd_no_space (t : string) :
  allChars (fun c => negb (isSpace c)) t = true -> trimEnd t = t.
Proof.
  induction t as [|c t IH]; [reflexivity|]. simpl.
  intros [Hc Ht]%andb_true_iff. rewrite (IH Ht).
  apply negb_true_iff in Hc. rewrite Hc. now destruct t.
Qed.

Lemma trim_no_space (t : string) :
  allChars (fun c => negb (isSpace c)) t = true -> trim t = t.
Proof.
  intros H. unfold trim.
  assert (E : trimStart t = t).
  { destruct t as [|c t]; [reflexivity|]. simpl in *.
    apply andb_true_iff in H as [Hc _]. apply negb_true_iff in Hc. now rewrite Hc. }
  rewrite E. now apply trimEnd_no_space.
Qed.

Lemma allChars_impl (p q : ascii -> bool) (t : string) :
  (forall c, p c = true -> q c = true) -> allChars p t = true -> allChars q t = true.
Proof.
  intros Himp. induction t as [|c t IH]; [reflexivity|]. simpl.
  intros [Hc Ht]%andb_true_iff. rewrite (Himp c Hc). now apply IH.
Qed.

Lemma token_trim (text t : string) : isToken isTokenBreak text t -> trim t = t.
Proof.
  intros (pre & post & (_ & _ & Hall & _) & _). apply trim_no_space.
  eapply allChars_impl; [|exact Hall].
  intros c Hc. apply negb_true_iff in Hc. apply negb_true_iff.
  unfold isTokenBreak, isLabelSeparator in Hc.
  destruct (isSpace c); [|reflexivity]. now rewrite !orb_true_r in Hc.
Qed.

Lemma In_parseWeekLabels (value : option Cell) (w : string) :
  In w (parseWeekLabels value) <->
  isWeekPattern w
  /\ exists t, isToken isTokenBreak (toText value) t /\ toUpperCase t = w.
Proof.
  unfold parseWeekLabels. rewrite In_dedup, filter_In, in_map_iff, isWeekCode_iff.
  unfold splitRuns. rewrite splitRunsAux_blank. fold (splitRuns isTokenBreak (toText value)).
  split.
  - intros [(item & Hitem & Hin) Hw]. split; [assumption|].
    assert (Hne : item <> "").
    { intros ->. subst w. apply isWeekCode_iff in Hw. discriminate Hw. }
    apply (In_splitRuns isTokenBreak _ _ Hne) in Hin.
    exists item. split; [assumption|]. now rewrite (token_trim _ _ Hin) in Hitem.
  - intros [Hw (t & Ht & Hup)]. split; [|assumption].
    exists t. split; [now rewrite (token_trim _ _ Ht)|].
    apply In_splitRuns; [|assumption].
    destruct Ht as (pre & post & (_ & Hne & _) & _). exact Hne.
Qed.


(** * Further properties of the code *)

(** ** Week codes *)

Lemma isDigit_digitVal (c : ascii) : isDigit c = true -> 0 <= digitVal c <= 9.
Proof.
  unfold isDigit, digitVal. intros [H1 H2]%andb_true_iff.
  apply Z.leb_le in H1, H2. lia.
Qed.

Lemma weekNumber_range (week : string) (n : Z) :
  weekNumber week = Some n -> 0 <= n <= 99.
Proof.
  unfold weekNumber.
  destruct week as [|w [|d1 [|d2 [|x r]]]]; try discriminate.
  - destruct (Ascii.eqb (upperChar w) "W"); [|discriminate]. cbn [andb].
    destruct (isDigit d1) eqn:E1; [|discriminate].
    intros [= <-]. pose proof (isDigit_digitVal _ E1). lia.
  - destruct (Ascii.eqb (upperChar w) "W"); [|discriminate]. cbn [andb].
    destruct (isDigit d1) eqn:E1; [|discriminate]. cbn [andb].
    destruct (isDigit d2) eqn:E2; [|discriminate].
    intros [= <-]. pose proof (isDigit_digitVal _ E1). pose proof (isDigit_digitVal _ E2). lia.
Qed.

Lemma below_100 (n : Z) : 0 <= n < 100 -> In n (List.map Z.of_nat (seq 0 100)).
Proof.
  intros H. apply in_map_iff. exists (Z.to_nat n). split; [lia|]. apply in_seq. lia.
Qed.

Lemma weekNumber_currentWeekCode (n : Z) :
  0 <= n < 100 -> weekNumber (currentWeekCode n) = Some n.
Proof.
  intros H.
  assert (E : forallb
                (fun k => match weekNumber (currentWeekCode k) with
                          | Some m => m =? k
                          | None => false
                          end)
                (List.map Z.of_nat (seq 0 100)) = true) by (vm_compute; reflexivity).
  rewrite forallb_forall in E. specialize (E n (below_100 n H)).
  destruct (weekNumber (currentWeekCode n)); [|discriminate].
  apply Z.eqb_eq in E. now subst.
Qed.

Lemma isWeekCode_currentWeekCode (n : Z) :
  0 <= n < 100 -> isWeekCode (currentWeekCode n) = true.
Proof.
  intros H.
  assert (E : forallb (fun k => isWeekCode (currentWeekCode k))
                (List.map Z.of_nat (seq 0 100)) = true) by (vm_compute; reflexivity).
  rewrite forallb_forall in E. exact (E n (below_100 n H)).
Qed.

Lemma length_currentWeekCode (n : Z) :
  0 <= n < 100 -> String.length (currentWeekCode n) = 3%nat.
Proof.
  intros H.
  assert (E : forallb (fun k => (String.length (currentWeekCode k) =? 3)%nat)
                (List.map Z.of_nat (seq 0 100)) = true) by (vm_compute; reflexivity).
  rewrite forallb_forall in E. apply Nat.eqb_eq. exact (E n (below_100 n H)).
Qed.

(** X1. The code of the week before: a text that is not a week code, and
    a code of week 0 or 1, have none; for a code of week [n >= 2], in either
    spelling, it is the three-character, zero-padded code of week [n - 1],
    the spelling the clock's week code has, and its week index is one
    less. *)
Theorem previousWeek_steps_back :
  (forall week, weekNumber week = None -> previousWeek week = "")
  /\ (forall week n, weekNumber week = Some n -> n <= 1 -> previousWeek week = "")
  /\ (forall week n,
        weekNumber week = Some n -> 2 <= n ->
        previousWeek week = currentWeekCode (n - 1)
        /\ String.length (previousWeek week) = 3%nat
        /\ weekIndex (previousWeek week) = weekIndex week - 1).
Proof.
  split; [|split].
  - intros week H. unfold previousWeek. now rewrite H.
  - intros week n H Hn. unfold previousWeek. rewrite H.
    destruct (Z.leb_spec n 1); [reflexivity|lia].
  - intros week n H Hn. pose proof (weekNumber_range _ _ H) as Hr.
    assert (E : previousWeek week = currentWeekCode (n - 1)).
    { unfold previousWeek. rewrite H. destruct (Z.leb_spec n 1); [lia|reflexivity]. }
    rewrite E. split; [reflexivity|]. split; [apply length_currentWeekCode; lia|].
    unfold weekIndex. rewrite H, weekNumber_currentWeekCode by lia. reflexivity.
Qed.

Lemma previousWeek_steps_back_witness :
  previousWeek "w7" = currentWeekCode (7 - 1)
  /\ String.length (previousWeek "w7") = 3%nat
  /\ weekIndex (previousWeek "w7") = weekIndex "w7" - 1.
Proof.
  apply (proj2 (proj2 previousWeek_steps_back) "w7" 7); [reflexivity|lia].
Defined.

(** X2. The clock's week code, for a week number from 0 to 99: it matches
    the pattern of a week label, its week index is the week number, and
    from week 2 on the week before it is the clock's code of the preceding
    week number. *)
Theorem currentWeekCode_is_week_label (week : Z) :
  0 <= week < 100 ->
  isWeekCode (currentWeekCode week) = true
  /\ weekIndex (currentWeekCode week) = week
  /\ (2 <= week -> previousWeek (currentWeekCode week) = currentWeekCode (week - 1)).
Proof.
  intros H. split; [now apply isWeekCode_currentWeekCode|].
  pose proof (weekNumber_currentWeekCode week H) as E.
  split; [unfold weekIndex; now rewrite E|].
  intros H2. unfold previousWeek. rewrite E.
  destruct (Z.leb_spec week 1); [lia|reflexivity].
Qed.

Lemma currentWeekCode_is_week_label_witness :
  isWeekCode (currentWeekCode 9) = true
  /\ weekIndex (currentWeekCode 9) = 9
  /\ (2 <= 9 -> previousWeek (currentWeekCode 9) = currentWeekCode (9 - 1)).
Proof. apply (currentWeekCode_is_week_label 9). lia. Defined.

(** ** The weeks of a collection *)

Lemma weekOrder_total (x y : string) :
  weekIndex x - weekIndex y <= 0 \/ weekIndex y - weekIndex x <= 0.
Proof. lia. Qed.

Lemma weekOrder_trans (x y z : string) :
  weekIndex x - weekIndex y <= 0 -> weekIndex y - weekIndex z <= 0 ->
  weekIndex x - weekIndex z <= 0.
Proof. lia. Qed.

Lemma sortBy_NoDup {A : Type} (cmp : A -> A -> Z) (l : list A) :
  NoDup l -> NoDup (sortBy cmp l).
Proof.
  intros H. now rewrite sortBy_Permutation.
Qed.

Lemma allWeeks_NoDup (tasks : list Task) : NoDup (allWeeks tasks).
Proof. apply sortBy_NoDup. apply dedupAux_NoDup. Qed.

Lemma In_allWeeks (tasks : list Task) (w : string) :
  In w (allWeeks tasks) <-> exists t, In t tasks /\ In w (weeks t).
Proof. unfold allWeeks. rewrite In_sortBy, In_dedup. apply in_flat_map. Qed.

Lemma allWeeks_sorted (tasks : list Task) :
  StronglySorted (fun a b => weekIndex a <= weekIndex b) (allWeeks tasks).
Proof.
  eapply StronglySorted_impl; [|apply (sortBy_sorted _ weekOrder_total weekOrder_trans)].
  cbv beta. intros a b. lia.
Qed.

(** X3. The week options: every week label carried by some task, each
    once, in ascending order of week index; the upload sorts its weeks the
    same way. *)
Theorem allWeeks_sorted_distinct (tasks : list Task) :
  NoDup (allWeeks tasks)
  /\ (forall w, In w (allWeeks tasks) <-> exists t, In t tasks /\ In w (weeks t))
  /\ StronglySorted (fun a b => weekIndex a <= weekIndex b) (allWeeks tasks)
  /\ sortedWeeksOf tasks = allWeeks tasks.
Proof.
  split; [apply allWeeks_NoDup|]. split; [apply In_allWeeks|].
  split; [apply allWeeks_sorted|reflexivity].
Qed.

(** ** Outcome of an upload *)

Lemma handleFileUpload_success (rows : list RawRow) (st : AppState) :
  rows <> [] -> missingColumns (columnsOf rows) = [] ->
  handleFileUpload (Decoded rows) st =
  let parsedTasks := List.map (parseRow (columnsOf rows)) rows in
  let sortedWeeks := allWeeks parsedTasks in
  let n := length sortedWeeks in
  mkState rows parsedTasks "" "" "all" "all" "all" true []
    (if (2 <=? n)%nat then nth (n - 2) sortedWeeks "" else nth 0 sortedWeeks "")
    (if (1 <=? n)%nat then nth (n - 1) sortedWeeks "" else "").
Proof.
  intros Hrows Hmiss. destruct rows as [|r rows]; [congruence|].
  unfold handleFileUpload. rewrite Hmiss. reflexivity.
Qed.

(** X4. What an upload leaves behind.  Without a file the state is
    untouched.  Otherwise either an error message is set, the task
    collection is empty and the filters and comparison weeks stay as they
    were; or no error is set, the raw rows are the rows of the sheet, there
    is exactly one task per row, parsed from that row, and the filters are
    reset.  The copy notice is cleared in both cases. *)
Theorem upload_error_or_tasks (file : Upload) (st : AppState) :
  (file = NoFile /\ handleFileUpload file st = st)
  \/ (String.eqb (error (handleFileUpload file st)) "" = false
      /\ tasks (handleFileUpload file st) = []
      /\ copied (handleFileUpload file st) = ""
      /\ projectWeekFilter (handleFileUpload file st) = projectWeekFilter st
      /\ projectModuleFilter (handleFileUpload file st) = projectModuleFilter st
      /\ projectAssigneeFilter (handleFileUpload file st) = projectAssigneeFilter st
      /\ assigneeAllWeeks (handleFileUpload file st) = assigneeAllWeeks st
      /\ assigneeWeekFilters (handleFileUpload file st) = assigneeWeekFilters st
      /\ compareWeekA (handleFileUpload file st) = compareWeekA st
      /\ compareWeekB (handleFileUpload file st) = compareWeekB st)
  \/ (exists rows,
        file = Decoded rows
        /\ error (handleFileUpload file st) = ""
        /\ rawRows (handleFileUpload file st) = rows
        /\ tasks (handleFileUpload file st) = List.map (parseRow (columnsOf rows)) rows
        /\ length (tasks (handleFileUpload file st)) = length rows
        /\ copied (handleFileUpload file st) = ""
        /\ projectWeekFilter (handleFileUpload file st) = "all"
        /\ projectModuleFilter (handleFileUpload file st) = "all"
        /\ projectAssigneeFilter (handleFileUpload file st) = "all"
        /\ assigneeAllWeeks (handleFileUpload file st) = true
        /\ assigneeWeekFilters (handleFileUpload file st) = []).
Proof.
  destruct file as [| |rows].
  - left. split; reflexivity.
  - right. left. cbn. repeat split; reflexivity.
  - destruct rows as [|r rows].
    + right. left. cbn. repeat split; reflexivity.
    + destruct (missingColumns (columnsOf (r :: rows))) as [|m ms] eqn:Hmiss.
      * right. right. exists (r :: rows).
        rewrite handleFileUpload_success by (assumption || discriminate).
        cbn [error rawRows tasks copied projectWeekFilter projectModuleFilter
             projectAssigneeFilter assigneeAllWeeks assigneeWeekFilters].
        repeat split; try reflexivity. apply length_map.
      * right. left. unfold handleFileUpload. rewrite Hmiss.
        cbn [error rawRows tasks copied projectWeekFilter projectModuleFilter
             projectAssigneeFilter assigneeAllWeeks assigneeWeekFilters compareWeekA
             compareWeekB].
        repeat split; reflexivity.
Qed.

(** ** Comparison weeks chosen by an upload *)

Lemma StronglySorted_app_le {A : Type} (R : A -> A -> Prop) (l1 l2 : list A) :
  StronglySorted R (l1 ++ l2)%list -> forall x y, In x l1 -> In y l2 -> R x y.
Proof.
  induction l1 as [|a l1 IH]; intros Hs x y Hx Hy; [destruct Hx|].
  cbn in Hs. apply StronglySorted_inv in Hs as [Hs Hall].
  destruct Hx as [->|Hx].
  - rewrite List.Forall_forall in Hall. apply Hall. apply in_or_app. now right.
  - now apply IH.
Qed.

Lemma last_two {A : Type} (l : list A) :
  l = [] \/ (exists b, l = [b]) \/ exists l0 a b, l = (l0 ++ [a; b])%list.
Proof.
  destruct l as [|x l] using rev_ind; [now left|]. right.
  destruct l as [|y l] using rev_ind; [left; now exists x|].
  right. exists l, y, x. now rewrite <- app_assoc.
Qed.

Section LatestWeeks.

Variables (rows : list RawRow) (st : AppState).
Hypothesis some_rows : rows <> [].
Hypothesis all_columns : missingColumns (columnsOf rows) = [].

Local Abbreviation st' := (handleFileUpload (Decoded rows) st).
Local Abbreviation ws := (allWeeks (tasks (handleFileUpload (Decoded rows) st))).

Lemma uploaded_weeks_cases :
  (ws = [] /\ compareWeekA st' = "" /\ compareWeekB st' = "")
  \/ (exists b, ws = [b] /\ compareWeekA st' = b /\ compareWeekB st' = b)
  \/ (exists l0 a b, ws = (l0 ++ [a; b])%list /\ compareWeekA st' = a /\ compareWeekB st' = b).
Proof.
  rewrite (handleFileUpload_success rows st some_rows all_columns).
  cbv zeta. cbn [tasks compareWeekA compareWeekB].
  destruct (last_two (allWeeks (List.map (parseRow (columnsOf rows)) rows)))
    as [E|[(b & E)|(l0 & a & b & E)]]; rewrite E.
  - left. repeat split; reflexivity.
  - right. left. exists b. repeat split; reflexivity.
  - right. right. exists l0, a, b. split; [reflexivity|].
    rewrite length_app. cbn [length].
    replace (length l0 + 2 - 2)%nat with (length l0 + 0)%nat by lia.
    replace (length l0 + 2 - 1)%nat with (length l0 + 1)%nat by lia.
    destruct (Nat.leb_spec 2 (length l0 + 2)); [|lia].
    destruct (Nat.leb_spec 1 (length l0 + 2)); [|lia].
    rewrite !app_nth2_plus. split; reflexivity.
Qed.

Lemma uploaded_weeks_latest (w : string) :
  In w ws ->
  In (compareWeekA st') ws /\ In (compareWeekB st') ws
  /\ weekIndex (compareWeekA st') <= weekIndex (compareWeekB st')
  /\ weekIndex w <= weekIndex (compareWeekB st')
  /\ (w <> compareWeekB st' -> weekIndex w <= weekIndex (compareWeekA st')).
Proof.
  intros Hw. pose proof (allWeeks_sorted (tasks st')) as Hs.
  destruct uploaded_weeks_cases as [(E & _)|[(b & E & -> & ->)|(l0 & a & b & E & -> & ->)]].
  - rewrite E in Hw. destruct Hw.
  - rewrite E in *. destruct Hw as [->|[]]. repeat split; try (now left); lia.
  - rewrite E in *.
    assert (Hab : weekIndex a <= weekIndex b).
    { apply (StronglySorted_app_le (fun x y => weekIndex x <= weekIndex y) (l0 ++ [a]) [b]);
        [now rewrite <- app_assoc| |now left].
      apply in_or_app. right. now left. }
    assert (Hl0 : forall x, In x l0 -> weekIndex x <= weekIndex a).
    { intros x Hx.
      apply (StronglySorted_app_le (fun x y => weekIndex x <= weekIndex y) l0 [a; b] Hs x a Hx).
      now left. }
    split; [apply in_or_app; right; now left|].
    split; [apply in_or_app; right; right; now left|].
    split; [exact Hab|].
    apply in_app_or in Hw as [Hw|[<-|[<-|[]]]].
    + specialize (Hl0 w Hw). split; [lia|]. intros _. now apply Hl0.
    + split; [exact Hab|]. intros _. lia.
    + split; [lia|]. congruence.
Qed.

Lemma uploaded_weeks_equal :
  compareWeekA st' = compareWeekB st' <-> (length ws <= 1)%nat.
Proof.
  pose proof (allWeeks_NoDup (tasks st')) as Hnd.
  destruct uploaded_weeks_cases as [(E & -> & ->)|[(b & E & -> & ->)|(l0 & a & b & E & -> & ->)]];
    rewrite E in *.
  - cbn. split; [lia|reflexivity].
  - cbn. split; [lia|reflexivity].
  - rewrite length_app. cbn [length]. split; [|lia]. intros ->.
    apply NoDup_app in Hnd as (_ & _ & Hnd). apply NoDup_cons_1_1 in Hnd.
    exfalso. apply Hnd. apply list_elem_of_In. now left.
Qed.

End LatestWeeks.

(** X5. The comparison weeks an upload chooses, for a sheet with rows and
    no unresolved column: week B is a week option of greatest week index,
    week A is an option of greatest index among the others, both unset when
    no task carries a week label, and the two are the same week exactly
    when there is at most one option. *)
Theorem upload_compares_latest_weeks (rows : list RawRow) (st : AppState) :
  rows <> [] ->
  missingColumns (columnsOf rows) = [] ->
  (allWeeks (tasks (handleFileUpload (Decoded rows) st)) = [] ->
   compareWeekA (handleFileUpload (Decoded rows) st) = ""
   /\ compareWeekB (handleFileUpload (Decoded rows) st) = "")
  /\ (forall w,
        In w (allWeeks (tasks (handleFileUpload (Decoded rows) st))) ->
        In (compareWeekA (handleFileUpload (Decoded rows) st))
          (allWeeks (tasks (handleFileUpload (Decoded rows) st)))
        /\ In (compareWeekB (handleFileUpload (Decoded rows) st))
             (allWeeks (tasks (handleFileUpload (Decoded rows) st)))
        /\ weekIndex (compareWeekA (handleFileUpload (Decoded rows) st))
           <= weekIndex (compareWeekB (handleFileUpload (Decoded rows) st))
        /\ weekIndex w <= weekIndex (compareWeekB (handleFileUpload (Decoded rows) st))
        /\ (w <> compareWeekB (handleFileUpload (Decoded rows) st) ->
            weekIndex w <= weekIndex (compareWeekA (handleFileUpload (Decoded rows) st))))
  /\ (compareWeekA (handleFileUpload (Decoded rows) st)
      = compareWeekB (handleFileUpload (Decoded rows) st)
      <-> (length (allWeeks (tasks (handleFileUpload (Decoded rows) st))) <= 1)%nat).
Proof.
  intros Hrows Hcols. split; [|split].
  - intros E.
    destruct (uploaded_weeks_cases rows st Hrows Hcols)
      as [(_ & -> & ->)|[(b & E' & _)|(l0 & a & b & E' & _)]]; [now split| |].
    + rewrite E' in E. discriminate.
    + rewrite E' in E. now destruct l0.
  - intros w. now apply uploaded_weeks_latest.
  - now apply uploaded_weeks_equal.
Qed.

Lemma upload_compares_latest_weeks_witness :
  compareWeekA (handleFileUpload (Decoded blankKeySheet) initialState)
  = compareWeekB (handleFileUpload (Decoded blankKeySheet) initialState)
  <-> (length (allWeeks (tasks (handleFileUpload (Decoded blankKeySheet) initialState))) <= 1)%nat.
Proof.
  destruct (upload_compares_latest_weeks blankKeySheet initialState) as (_ & _ & H);
    [discriminate|vm_compute; reflexivity|exact H].
Defined.

(** ** Tasks produced by an upload *)

Lemma isWeekPattern_weekIndex (w : string) : isWeekPattern w -> 0 <= weekIndex w <= 99.
Proof.
  intros [(d1 & H1 & ->)|(d1 & d2 & H1 & H2 & ->)]; unfold weekIndex, weekNumber;
    change (Ascii.eqb (upperChar "W") "W") with true; rewrite H1; [|rewrite H2]; cbn [andb].
  - pose proof (isDigit_digitVal _ H1). lia.
  - pose proof (isDigit_digitVal _ H1). pose proof (isDigit_digitVal _ H2). lia.
Qed.

Lemma parseRow_wellFormed (columns : list string) (row : RawRow) :
  wellFormedTask (parseRow columns row).
Proof.
  unfold wellFormedTask.
  assert (Hid : taskId (parseRow columns row) <> "").
  { unfold parseRow. cbn [taskId]. apply parseTaskKeyCell_nonempty. }
  split; [now apply String.eqb_neq|]. split; [now apply taskKey_present|].
  split; [unfold parseRow; cbn [storyPoint]; apply storyPointValue_range|].
  unfold parseRow. cbn [weeks]. split.
  - unfold parseWeekLabels, dedup. apply dedupAux_NoDup.
  - apply List.Forall_forall. intros w Hw. apply In_parseWeekLabels in Hw as [Hw _].
    split; [exact Hw|now apply isWeekPattern_weekIndex].
Qed.

(** X6. Every upload keeps the task collection well formed: each task has
    a task id that is not empty and serves as its identity key, a story
    point from 0 to 5, and week labels that match the week pattern, have a
    week index below 100 and are pairwise different. *)
Theorem upload_keeps_tasks_well_formed (file : Upload) (st : AppState) :
  List.Forall wellFormedTask (tasks st) ->
  List.Forall wellFormedTask (tasks (handleFileUpload file st)).
Proof.
  intros Hst. destruct file as [| |[|r rows]]; [exact Hst|constructor|constructor|].
  destruct (missingColumns (columnsOf (r :: rows))) as [|m ms] eqn:Hmiss.
  - rewrite handleFileUpload_success by (assumption || discriminate).
    cbv zeta. cbn [tasks]. apply List.Forall_forall.
    intros t (row & <- & _)%in_map_iff. apply parseRow_wellFormed.
  - unfold handleFileUpload. rewrite Hmiss. constructor.
Qed.

Lemma upload_keeps_tasks_well_formed_witness :
  List.Forall wellFormedTask (tasks (handleFileUpload (Decoded blankKeySheet) initialState)).
Proof. apply (upload_keeps_tasks_well_formed (Decoded blankKeySheet) initialState). constructor. Defined.

(** ** Column names up to case and separators *)




Lemma isSpace_lowerChar (c : ascii) : isSpace (lowerChar c) = isSpace c.
Proof. destruct c as [[] [] [] [] [] [] [] []]; reflexivity. Qed.















(** ** Column resolution *)

Lemma includes_In (x : string) (xs : list string) : includes x xs = true <-> In x xs.
Proof. unfold includes. apply (existsb_eqb_In String.eqb String.eqb_eq). Qed.

Lemma namesAlias_includes (aliases : list string) (column : string) :
  includes (normalizeText column) (List.map normalizeText aliases) = true
  <-> namesAlias aliases column.
Proof.
  rewrite includes_In, in_map_iff. unfold namesAlias. split.
  - intros (alias & E & H). now exists alias.
  - intros (alias & H & E). now exists alias.
Qed.

(** X8. Column resolution takes the first column, in sheet order, whose
    name is one of the aliases up to letter case and separators, whatever
    the order of the aliases; it gives the empty name when there is no such
    column. *)
Theorem detectColumn_first_match (columns aliases : list string) :
  (exists before column after,
      columns = (before ++ column :: after)%list
      /\ detectColumn columns aliases = column
      /\ namesAlias aliases column
      /\ forall x, In x before -> ~ namesAlias aliases x)
  \/ (detectColumn columns aliases = ""
      /\ forall x, In x columns -> ~ namesAlias aliases x).
Proof.
  unfold detectColumn. induction columns as [|c columns IH].
  - right. split; [reflexivity|]. intros x [].
  - cbn [List.find].
    destruct (includes (normalizeText c) (List.map normalizeText aliases)) eqn:E.
    + left. exists [], c, columns. split; [reflexivity|]. split; [reflexivity|].
      split; [now apply namesAlias_includes|]. intros x [].
    + assert (Hc : ~ namesAlias aliases c).
      { intros H. apply namesAlias_includes in H. congruence. }
      destruct IH as [(before & column & after & -> & E' & Hcol & Hbefore)|[E' Hnone]].
      * left. exists (c :: before), column, after. split; [reflexivity|].
        split; [exact E'|]. split; [exact Hcol|].
        intros x [<-|Hx]; [exact Hc|now apply Hbefore].
      * right. split; [exact E'|]. intros x [<-|Hx]; [exact Hc|now apply Hnone].
Qed.

(** ** Status names *)




(** ** Task key cells *)

Lemma schemeAt_spec (s scheme r : string) :
  schemeAt s = Some (scheme, r) ->
  s = scheme ++ r
  /\ (toLowerCase scheme = "http://" \/ toLowerCase scheme = "https://").
Proof.
  unfold schemeAt.
  destruct s as [|h [|t1 [|t2 [|p s]]]]; try discriminate.
  destruct (String.eqb_spec (toLowerCase (String h (String t1 (String t2 (String p "")))))
              "http") as [E|]; [|discriminate].
  intros H.
  repeat match type of H with
         | context [match ?x with _ => _ end] => is_var x; destruct x; try discriminate H
         | context [if ?b then _ else _] => destruct b eqn:?; try discriminate H
         end.
  all: injection H as <- <-.
  all: split; [reflexivity|].
  all: unfold toLowerCase in *; cbn [mapChars] in *; injection E as E1 E2 E3 E4.
  all: rewrite E1, E2, E3, E4.
  all: try match goal with
           | H' : (_ =? _)%char = true |- _ =>
               apply Ascii.eqb_eq in H'; rewrite H'; right; reflexivity
           end.
  all: left; reflexivity.
Qed.

Lemma lowerChar_punct (c d : ascii) :
  lowerChar c = d -> isLetter d = false -> c = d.
Proof.
  intros <-. destruct c as [[] [] [] [] [] [] [] []]; cbn; intros H;
    try reflexivity; discriminate H.
Qed.

Lemma schemeAt_scheme (scheme r : string) :
  toLowerCase scheme = "http://" \/ toLowerCase scheme = "https://" ->
  schemeAt (scheme ++ r) = Some (scheme, r).
Proof.
  unfold toLowerCase. intros [E|E].
  - destruct scheme as [|c1 [|c2 [|c3 [|c4 [|c5 [|c6 [|c7 [|]]]]]]]]; try discriminate E.
    cbn [mapChars] in E. injection E as E1 E2 E3 E4 E5 E6 E7.
    apply lowerChar_punct in E5, E6, E7; try reflexivity. subst c5 c6 c7.
    rewrite !append_cons, append_nil_l. unfold schemeAt, toLowerCase. cbn [mapChars].
    rewrite E1, E2, E3, E4. reflexivity.
  - destruct scheme as [|c1 [|c2 [|c3 [|c4 [|c5 [|c6 [|c7 [|c8 [|]]]]]]]]];
      try discriminate E.
    cbn [mapChars] in E. injection E as E1 E2 E3 E4 E5 E6 E7 E8.
    apply lowerChar_punct in E6, E7, E8; try reflexivity. subst c6 c7 c8.
    rewrite !append_cons, append_nil_l. unfold schemeAt, toLowerCase. cbn [mapChars].
    rewrite E1, E2, E3, E4. cbn [String.eqb Ascii.eqb Bool.eqb].
    destruct c5 as [[] [] [] [] [] [] [] []]; try discriminate E5; reflexivity.
Qed.

Lemma span_spec (p : ascii -> bool) (s a b : string) :
  span p s = (a, b) ->
  s = a ++ b /\ allChars p a = true /\ startsWithOrEmpty (fun c => negb (p c)) b.
Proof.
  revert a b. induction s as [|c s IH]; intros a b.
  - intros [= <- <-]. repeat split.
  - cbn [span]. destruct (p c) eqn:Hc.
    + destruct (span p s) as [a' b'] eqn:E. intros [= <- <-].
      destruct (IH a' b' eq_refl) as (-> & Ha & Hb).
      rewrite append_cons. cbn [allChars]. now rewrite Hc, Ha.
    + intros [= <- <-]. rewrite append_nil_l. repeat split. cbn. now rewrite Hc.
Qed.

Lemma span_app (p : ascii -> bool) (a b : string) :
  allChars p a = true -> startsWithOrEmpty (fun c => negb (p c)) b ->
  span p (a ++ b) = (a, b).
Proof.
  intros Ha Hb. induction a as [|c a IH].
  - rewrite append_nil_l. destruct b as [|d b]; [reflexivity|].
    cbn in Hb. apply negb_true_iff in Hb. cbn [span]. now rewrite Hb.
  - cbn [allChars] in Ha. apply andb_true_iff in Ha as [Hc Ha].
    rewrite append_cons. cbn [span]. now rewrite Hc, (IH Ha).
Qed.

Lemma allChars_app (p : ascii -> bool) (a b : string) :
  allChars p (a ++ b) = allChars p a && allChars p b.
Proof.
  induction a as [|c a IH]; [now rewrite append_nil_l|].
  rewrite append_cons. cbn [allChars]. now rewrite IH, andb_assoc.
Qed.

Lemma no_space_toLowerCase (s : string) :
  allChars (fun c => negb (isSpace c)) (toLowerCase s)
  = allChars (fun c => negb (isSpace c)) s.
Proof.
  induction s as [|c s IH]; [reflexivity|]. cbn [toLowerCase mapChars allChars].
  fold (toLowerCase s). now rewrite IH, isSpace_lowerChar.
Qed.

Lemma scheme_no_space (scheme : string) :
  toLowerCase scheme = "http://" \/ toLowerCase scheme = "https://" ->
  allChars (fun c => negb (isSpace c)) scheme = true.
Proof. rewrite <- no_space_toLowerCase. now intros [-> | ->]. Qed.

Lemma firstMatch_suffix (at_ : string -> option string) (s m : string) :
  firstMatch at_ s = Some m -> exists before suffix, s = before ++ suffix /\ at_ suffix = Some m.
Proof.
  induction s as [|c s IH]; cbn [firstMatch]; destruct (at_ _) eqn:E.
  - intros [= <-]. exists "", "". now rewrite append_nil_l.
  - discriminate.
  - intros [= <-]. exists "", (String c s). now rewrite append_nil_l.
  - intros (before & suffix & -> & H)%IH. exists (String c before), suffix.
    now rewrite append_cons.
Qed.

Lemma urlAt_spec (s url : string) :
  urlAt s = Some url -> (exists rest, s = url ++ rest) /\ isHttpUrl url.
Proof.
  unfold urlAt. destruct (schemeAt s) as [[scheme r]|] eqn:E; [|discriminate].
  apply schemeAt_spec in E as [-> Hscheme].
  destruct (span isUrlChar r) as [[|c body] rest] eqn:Hspan; [discriminate|].
  intros [= <-]. apply span_spec in Hspan as (-> & Hall & _). split.
  - exists rest. now rewrite !append_assoc.
  - exists scheme, (String c body). split; [reflexivity|]. split; [exact Hscheme|].
    split; [discriminate|]. rewrite allChars_app, (scheme_no_space _ Hscheme).
    eapply allChars_impl; [|exact Hall].
    intros x Hx. unfold isUrlChar in Hx. apply negb_true_iff in Hx. apply negb_true_iff.
    now destruct (isSpace x).
Qed.

Lemma matchMarkdown_spec (raw label url : string) :
  matchMarkdown raw = Some (label, url) ->
  raw = markdownLink label url
  /\ label <> ""
  /\ allChars (fun c => negb (Ascii.eqb c "]")) label = true
  /\ allChars (fun c => negb (Ascii.eqb c ")")) url = true
  /\ isHttpUrl url.
Proof.
  unfold matchMarkdown, markdownLink.
  destruct raw as [|c r]; [discriminate|].
  destruct (Ascii.eqb_spec c "[") as [->|Hc];
    [|destruct c as [[] [] [] [] [] [] [] []]; try discriminate; congruence].
  destruct (span (fun c => negb (Ascii.eqb c "]")) r) as [lab r1] eqn:Hlab.
  apply span_spec in Hlab as (-> & Hlab & _).
  destruct lab as [|l0 lab]; [discriminate|].
  destruct r1 as [|c1 r1]; [discriminate|].
  destruct (Ascii.eqb_spec c1 "]") as [->|Hc1];
    [|destruct c1 as [[] [] [] [] [] [] [] []]; try discriminate; congruence].
  destruct r1 as [|c2 r2]; [discriminate|].
  destruct (Ascii.eqb_spec c2 "(") as [->|Hc2];
    [|destruct c2 as [[] [] [] [] [] [] [] []]; try discriminate; congruence].
  destruct (schemeAt r2) as [[scheme r3]|] eqn:Hs; [|discriminate].
  apply schemeAt_spec in Hs as [-> Hscheme].
  destruct (span (fun c => negb (isSpace c || Ascii.eqb c ")")) r3) as [body r4] eqn:Hbody.
  apply span_spec in Hbody as (-> & Hbody & _).
  destruct body as [|b0 body]; [discriminate|].
  destruct r4 as [|c3 r4]; [discriminate|].
  destruct (Ascii.eqb_spec c3 ")") as [->|Hc3];
    [|destruct c3 as [[] [] [] [] [] [] [] []]; try discriminate; congruence].
  destruct r4; [|discriminate].
  intros [= <- <-]. split.
  - rewrite (append_assoc scheme). reflexivity.
  - split; [discriminate|]. split; [exact Hlab|]. split.
    + rewrite allChars_app. apply andb_true_iff. split.
      * destruct Hscheme as [E|E]; unfold toLowerCase in E;
          repeat (destruct scheme as [|? scheme]; try discriminate E);
          cbn [mapChars] in E; injection E as E1 E2 E3 E4 E5 E6 E7;
          repeat match goal with
                 | H : lowerChar ?x = _ |- _ =>
                     destruct x as [[] [] [] [] [] [] [] []]; try discriminate H; clear H
                 end; reflexivity.
      * eapply allChars_impl; [|exact Hbody].
        intros x Hx. apply negb_true_iff in Hx. apply negb_true_iff.
        now apply orb_false_iff in Hx.
    + exists scheme, (String b0 body). split; [reflexivity|]. split; [exact Hscheme|].
      split; [discriminate|]. rewrite allChars_app, (scheme_no_space _ Hscheme).
      eapply allChars_impl; [|exact Hbody].
      intros x Hx. apply negb_true_iff in Hx. apply negb_true_iff.
      now apply orb_false_iff in Hx.
Qed.

Lemma hasPart_suffix (before suffix part rest : string) :
  suffix = part ++ rest -> hasPart (before ++ suffix) part.
Proof. intros ->. now exists before, rest. Qed.

(** X10. The link stored with a task is empty or an http or https
    address, in any letter case, with something after the scheme and no
    white space in it; and it is a part of the text of the key cell. *)
Theorem task_link_is_http_url (value : option Cell) :
  keyTaskUrl (parseTaskKeyCell value) = ""
  \/ (isHttpUrl (keyTaskUrl (parseTaskKeyCell value))
      /\ hasPart (trim (toText value)) (keyTaskUrl (parseTaskKeyCell value))).
Proof.
  unfold parseTaskKeyCell.
  destruct (matchMarkdown (trim (toText value))) as [[label url]|] eqn:Hmd.
  - right. apply matchMarkdown_spec in Hmd as (-> & _ & _ & _ & Hurl). cbn [keyTaskUrl].
    split; [exact Hurl|]. exists ("[" ++ label ++ "]("), ")".
    unfold markdownLink. now rewrite !append_assoc.
  - destruct (firstMatch urlAt (trim (toText value))) as [taskUrl|] eqn:Hurl.
    + right. cbn [keyTaskUrl].
      apply firstMatch_suffix in Hurl as (before & suffix & -> & Hat).
      apply urlAt_spec in Hat as [(rest & ->) Hhttp]. split; [exact Hhttp|].
      now exists before, rest.
    + left. now destruct (firstMatch keyAt (trim (toText value))).
Qed.

Lemma trimEnd_keeps_last (a : string) (d : ascii) :
  isSpace d = false -> trimEnd (a ++ String d "") = a ++ String d "".
Proof.
  intros Hd. induction a as [|c a IH].
  - rewrite append_nil_l. cbn. now rewrite Hd.
  - rewrite append_cons. cbn [trimEnd]. rewrite IH.
    destruct a; [rewrite append_nil_l|rewrite append_cons]; reflexivity.
Qed.

Lemma trim_markdownLink (label url : string) :
  trim (markdownLink label url) = markdownLink label url.
Proof.
  unfold trim, markdownLink.
  change (trimStart ("[" ++ label ++ "](" ++ url ++ ")")) with ("[" ++ label ++ "](" ++ url ++ ")").
  rewrite <- !append_assoc. now apply trimEnd_keeps_last.
Qed.

Lemma matchMarkdown_markdownLink (label scheme body : string) :
  label <> "" ->
  allChars (fun c => negb (Ascii.eqb c "]")) label = true ->
  toLowerCase scheme = "http://" \/ toLowerCase scheme = "https://" ->
  body <> "" ->
  allChars (fun c => negb (isSpace c || Ascii.eqb c ")")) body = true ->
  matchMarkdown (markdownLink label (scheme ++ body)) = Some (label, scheme ++ body).
Proof.
  intros Hl Hlabel Hscheme Hb Hbody. unfold markdownLink.
  change ("[" ++ label ++ "](" ++ (scheme ++ body) ++ ")")
    with (String "[" (label ++ String "]" (String "(" ((scheme ++ body) ++ ")")))).
  unfold matchMarkdown. rewrite (span_app _ label) by (assumption || reflexivity).
  destruct label as [|l0 label]; [congruence|].
  rewrite append_assoc, (schemeAt_scheme _ _ Hscheme).
  rewrite (span_app _ body) by (assumption || reflexivity).
  destruct body as [|b0 body]; [congruence|]. reflexivity.
Qed.

(** X11. A key cell written as a markdown link, a label without closing
    bracket between square brackets followed by an http or https address
    without white space or closing parenthesis between parentheses, gives
    the label, exactly as written, as task id and the address as link. *)
Theorem markdown_link_read_back (label scheme body : string) :
  label <> "" ->
  allChars (fun c => negb (Ascii.eqb c "]")) label = true ->
  toLowerCase scheme = "http://" \/ toLowerCase scheme = "https://" ->
  body <> "" ->
  allChars (fun c => negb (isSpace c || Ascii.eqb c ")")) body = true ->
  parseTaskKeyCell (Some (CStr (markdownLink label (scheme ++ body))))
  = mkKeyInfo label (scheme ++ body).
Proof.
  intros Hl Hlabel Hscheme Hb Hbody. unfold parseTaskKeyCell. cbn [toText].
  rewrite trim_markdownLink, matchMarkdown_markdownLink by assumption. reflexivity.
Qed.

Lemma markdown_link_read_back_witness :
  parseTaskKeyCell (Some (CStr (markdownLink "proj-7 login" ("https://" ++ "jira.example/browse/PROJ-7"))))
  = mkKeyInfo "proj-7 login" ("https://" ++ "jira.example/browse/PROJ-7").
Proof.
  apply markdown_link_read_back;
    [discriminate|reflexivity|now right|discriminate|reflexivity].
Defined.

(** ** The listing and its tasks *)

Lemma markRows_fields (moduleCount assigneeCount : gmap string nat) (prevWeek : string)
  (seenModule seenAssignee : gset string) (rows : list (Task * bool)) :
  List.map rowFields (markRows moduleCount assigneeCount prevWeek seenModule seenAssignee rows)
  = List.map (fun x => taskFields (fst x)) rows.
Proof.
  revert seenModule seenAssignee. induction rows as [|x rows IH]; intros sm sa; [reflexivity|].
  cbn [markRows List.map]. now rewrite IH.
Qed.

Lemma projectFiltered_tasks (localeCompare : string -> string -> Z) (tasks : list Task)
  (weekFilter moduleFilter assigneeFilter : string) :
  Permutation
    (List.map fst (projectFiltered localeCompare tasks weekFilter moduleFilter assigneeFilter))
    (List.filter (matchesProjectFilters weekFilter moduleFilter assigneeFilter) tasks).
Proof.
  unfold projectFiltered. rewrite sortBy_Permutation, List.map_map. cbn [fst].
  now rewrite List.map_id.
Qed.

Lemma projectRows_fields (localeCompare : string -> string -> Z) (tasks : list Task)
  (weekFilter moduleFilter assigneeFilter : string) :
  Permutation
    (List.map rowFields (projectRows localeCompare tasks weekFilter moduleFilter assigneeFilter))
    (List.map taskFields
       (List.filter (matchesProjectFilters weekFilter moduleFilter assigneeFilter) tasks)).
Proof.
  unfold projectRows. rewrite markRows_fields, <- (List.map_map fst taskFields).
  apply Permutation_map, projectFiltered_tasks.
Qed.

Lemma projectRows_task (localeCompare : string -> string -> Z) (tasks : list Task)
  (weekFilter moduleFilter assigneeFilter : string) (r : ProjectRow.t) :
  In r (projectRows localeCompare tasks weekFilter moduleFilter assigneeFilter) ->
  exists t, In t tasks
            /\ matchesProjectFilters weekFilter moduleFilter assigneeFilter t = true
            /\ taskFields t = rowFields r.
Proof.
  intros Hr. apply (in_map rowFields) in Hr.
  apply (Permutation_in _ (projectRows_fields _ _ _ _ _)) in Hr.
  apply in_map_iff in Hr as (t & E & Ht). apply filter_In in Ht as [Ht Hm]. eauto.
Qed.

Lemma task_projectRows (localeCompare : string -> string -> Z) (tasks : list Task)
  (weekFilter moduleFilter assigneeFilter : string) (t : Task) :
  In t tasks ->
  matchesProjectFilters weekFilter moduleFilter assigneeFilter t = true ->
  exists r, In r (projectRows localeCompare tasks weekFilter moduleFilter assigneeFilter)
            /\ rowFields r = taskFields t.
Proof.
  intros Ht Hm.
  assert (H : In (taskFields t)
                (List.map taskFields
                   (List.filter (matchesProjectFilters weekFilter moduleFilter assigneeFilter)
                      tasks))).
  { apply in_map, filter_In. now split. }
  apply (Permutation_in _ (Permutation_sym (projectRows_fields localeCompare _ _ _ _))) in H.
  apply in_map_iff in H as (r & E & Hr). eauto.
Qed.

(** X12. The listing has one row per task that passes the three filters,
    duplicates included: its rows carry, up to order, exactly the module,
    assignee, identity key, status, story point and week labels of those
    tasks; and with a module or assignee filter set every row has that
    module or assignee. *)
Theorem listing_rows_are_filtered_tasks (localeCompare : string -> string -> Z)
  (tasks : list Task) (weekFilter moduleFilter assigneeFilter : string) :
  Permutation
    (List.map rowFields (projectRows localeCompare tasks weekFilter moduleFilter assigneeFilter))
    (List.map taskFields
       (List.filter (matchesProjectFilters weekFilter moduleFilter assigneeFilter) tasks))
  /\ length (projectRows localeCompare tasks weekFilter moduleFilter assigneeFilter)
     = countWhere (matchesProjectFilters weekFilter moduleFilter assigneeFilter) tasks
  /\ List.Forall
       (fun r =>
          (moduleFilter = "all" \/ ProjectRow.module r = moduleFilter)
          /\ (assigneeFilter = "all" \/ ProjectRow.assignee r = assigneeFilter))
       (projectRows localeCompare tasks weekFilter moduleFilter assigneeFilter).
Proof.
  split; [apply projectRows_fields|]. split.
  - pose proof (Permutation_length (projectRows_fields localeCompare tasks weekFilter
                                      moduleFilter assigneeFilter)) as H.
    now rewrite !length_map in H.
  - apply List.Forall_forall. intros r (t & _ & Hm & E)%projectRows_task.
    injection E as <- <- _ _ _ _.
    unfold matchesProjectFilters in Hm.
    apply andb_true_iff in Hm as [[_ Hmod]%andb_true_iff Hass].
    apply orb_true_iff in Hmod, Hass. rewrite !String.eqb_eq in Hmod, Hass. tauto.
Qed.

(** ** Filter options of the listing *)

Lemma In_projectModules (localeCompare : string -> string -> Z) (tasks : list Task)
  (weekFilter m : string) :
  In m (projectModules localeCompare tasks weekFilter)
  <-> exists t, In t tasks
                /\ (String.eqb weekFilter "all" || includes weekFilter (weeks t)) = true
                /\ module t = m.
Proof.
  unfold projectModules. rewrite In_sortBy, In_dedup, in_map_iff. split.
  - intros (t & E & [Ht Hw]%filter_In). eauto.
  - intros (t & Ht & Hw & E). exists t. split; [exact E|]. apply filter_In. now split.
Qed.

Lemma In_projectAssignees (localeCompare : string -> string -> Z) (tasks : list Task)
  (weekFilter moduleFilter a : string) :
  In a (projectAssignees localeCompare tasks weekFilter moduleFilter)
  <-> exists t, In t tasks
                /\ (String.eqb weekFilter "all" || includes weekFilter (weeks t)) = true
                /\ (String.eqb moduleFilter "all" || String.eqb (module t) moduleFilter) = true
                /\ assignee t = a.
Proof.
  unfold projectAssignees. rewrite In_sortBy, In_dedup, in_map_iff. split.
  - intros (t & E & [Ht [Hw Hm]%andb_true_iff]%filter_In). eauto 6.
  - intros (t & Ht & Hw & Hm & E). exists t. split; [exact E|]. apply filter_In.
    split; [exact Ht|]. now rewrite Hw, Hm.
Qed.

(** X13. The options of the module and assignee filters.  Each list has
    no duplicates.  Every module shown in the listing is a module option,
    and every assignee shown is an assignee option; conversely, choosing a
    module option (with no assignee filter), or an assignee option under the
    current module filter, gives a listing with at least one row of that
    module, or of that assignee. *)
Theorem filter_options_match_listing (localeCompare : string -> string -> Z)
  (tasks : list Task) (weekFilter moduleFilter assigneeFilter : string) :
  NoDup (projectModules localeCompare tasks weekFilter)
  /\ NoDup (projectAssignees localeCompare tasks weekFilter moduleFilter)
  /\ List.Forall
       (fun r =>
          In (ProjectRow.module r) (projectModules localeCompare tasks weekFilter)
          /\ In (ProjectRow.assignee r)
               (projectAssignees localeCompare tasks weekFilter moduleFilter))
       (projectRows localeCompare tasks weekFilter moduleFilter assigneeFilter)
  /\ List.Forall
       (fun m =>
          exists r, In r (projectRows localeCompare tasks weekFilter m "all")
                    /\ ProjectRow.module r = m)
       (projectModules localeCompare tasks weekFilter)
  /\ List.Forall
       (fun a =>
          exists r, In r (projectRows localeCompare tasks weekFilter moduleFilter a)
                    /\ ProjectRow.assignee r = a)
       (projectAssignees localeCompare tasks weekFilter moduleFilter).
Proof.
  split; [apply sortBy_NoDup, dedupAux_NoDup|].
  split; [apply sortBy_NoDup, dedupAux_NoDup|].
  split; [|split]; apply List.Forall_forall.
  - intros r (t & Ht & Hm & E)%projectRows_task. injection E as <- <- _ _ _ _.
    unfold matchesProjectFilters in Hm.
    apply andb_true_iff in Hm as [[Hw Hmod]%andb_true_iff _].
    split; [apply In_projectModules|apply In_projectAssignees]; eauto 6.
  - intros m (t & Ht & Hw & <-)%In_projectModules.
    destruct (task_projectRows localeCompare tasks weekFilter (module t) "all" t Ht)
      as (r & Hr & E).
    { unfold matchesProjectFilters. now rewrite Hw, String.eqb_refl, orb_true_r. }
    exists r. split; [exact Hr|]. now injection E.
  - intros a (t & Ht & Hw & Hm & <-)%In_projectAssignees.
    destruct (task_projectRows localeCompare tasks weekFilter moduleFilter (assignee t) t Ht)
      as (r & Hr & E).
    { unfold matchesProjectFilters. now rewrite Hw, Hm, String.eqb_refl, orb_true_r. }
    exists r. split; [exact Hr|]. now injection E.
Qed.

(** ** Order of the listing *)

Lemma StronglySorted_unmap {A B : Type} (f : A -> B) (R : B -> B -> Prop) (l : list A) :
  StronglySorted R (List.map f l) -> StronglySorted (fun a b => R (f a) (f b)) l.
Proof.
  induction l as [|x l IH]; [constructor|].
  cbn [List.map]. intros [Hs Hall]%StronglySorted_inv. constructor; [now apply IH|].
  rewrite List.Forall_forall in *. intros y Hy. apply Hall. now apply in_map.
Qed.

(** X14. Under a collation that is a total order, the rows of the listing
    come by module, within a module by assignee, and within an assignee by
    status, in the order open, in progress, done, other. *)
Theorem listing_is_sorted (localeCompare : string -> string -> Z)
  (tasks : list Task) (weekFilter moduleFilter assigneeFilter : string) :
  TotalOrderCmp localeCompare ->
  StronglySorted (listedBefore localeCompare)
    (projectRows localeCompare tasks weekFilter moduleFilter assigneeFilter).
Proof.
  intros collation.
  pose proof (rows_sorted localeCompare collation tasks weekFilter moduleFilter assigneeFilter)
    as Hs.
  set (key := fun f : string * string * string * Status * Z * string =>
                let '(m, a, _, s, _, _) := f in (m, (a, s))).
  assert (E : forall r, listedBefore localeCompare r = fun r' =>
                lexCmp localeCompare (lexCmp localeCompare statusCmp)
                  (key (rowFields r)) (key (rowFields r')) <= 0) by reflexivity.
  apply (StronglySorted_impl
           (fun r r' => lexCmp localeCompare (lexCmp localeCompare statusCmp)
                          (key (rowFields r)) (key (rowFields r')) <= 0));
    [intros r r' H; now rewrite E|].
  apply (StronglySorted_unmap (fun r => key (rowFields r))
           (fun k k' => lexCmp localeCompare (lexCmp localeCompare statusCmp) k k' <= 0)).
  rewrite <- (List.map_map rowFields key). unfold projectRows. rewrite markRows_fields.
  rewrite List.map_map. apply StronglySorted_map.
  eapply StronglySorted_impl; [|exact Hs].
  intros a b H. cbv beta in H. rewrite projectOrder_lex in H.
  unfold lexCmp in *. cbn [fst snd sortKey key taskFields] in *.
  destruct (localeCompare (module (fst a)) (module (fst b)) =? 0) eqn:E1;
    unfold orZ in *; rewrite ?E1 in *; [|exact H].
  destruct (localeCompare (assignee (fst a)) (assignee (fst b)) =? 0) eqn:E2;
    rewrite ?E2 in *; [|exact H].
  destruct (statusCmp (status (fst a)) (status (fst b)) =? 0) eqn:E3; rewrite ?E3 in *;
    [|exact H].
  apply Z.eqb_eq in E3. lia.
Qed.

Lemma listing_is_sorted_witness :
  StronglySorted (listedBefore codeUnitCompare)
    (projectRows codeUnitCompare sampleTasks "W01" "all" "all").
Proof. apply listing_is_sorted. exact codeUnitCompare_total_order. Defined.

(** ** Counts by status *)

Lemma countWhere_cons {A : Type} (p : A -> bool) (x : A) (l : list A) :
  countWhere p (x :: l) = ((if p x then 1 else 0) + countWhere p l)%nat.
Proof. unfold countWhere. cbn [List.filter]. now destruct (p x). Qed.

Lemma countWhere_Permutation {A : Type} (p : A -> bool) (l l' : list A) :
  Permutation l l' -> countWhere p l = countWhere p l'.
Proof.
  intros H. induction H as [|x l l' H IH|x y l|l l' l'' H1 IH1 H2 IH2];
    rewrite ?countWhere_cons; [reflexivity|now rewrite IH|lia|congruence].
Qed.

Lemma countWhere_filter {A : Type} (p q : A -> bool) (l : list A) :
  countWhere q (List.filter p l) = countWhere (fun x => p x && q x) l.
Proof.
  induction l as [|x l IH]; [reflexivity|]. cbn [List.filter].
  rewrite (countWhere_cons (fun x => p x && q x)). destruct (p x); cbn [andb].
  - now rewrite countWhere_cons, IH.
  - exact IH.
Qed.

Lemma Status_eqb_cases (a b : Status) :
  Status_eqb a b
  = match a, b with
    | open, open | inprogress, inprogress | done, done | other, other => true
    | _, _ => false
    end.
Proof. now destruct a, b. Qed.

Lemma countStatus_fold {A : Type} (f : A -> Status) (l : list A) (init : StatusSummary.t) :
  fold_left (fun summary x => countStatus summary (f x)) l init
  = StatusSummary.mk
      (StatusSummary.open init + StatusSummary.open (statusCounts f l))
      (StatusSummary.inprogress init + StatusSummary.inprogress (statusCounts f l))
      (StatusSummary.done init + StatusSummary.done (statusCounts f l))
      (StatusSummary.other init + StatusSummary.other (statusCounts f l)).
Proof.
  revert init. induction l as [|x l IH]; intros init.
  - destruct init as [n1 n2 n3 n4]. unfold statusCounts, countWhere. cbn. f_equal; lia.
  - cbn [fold_left]. rewrite IH. unfold statusCounts.
    cbn [StatusSummary.open StatusSummary.inprogress StatusSummary.done StatusSummary.other].
    rewrite !(countWhere_cons _ x).
    destruct (f x); rewrite !Status_eqb_cases; cbn; f_equal; lia.
Qed.

Lemma countStatus_from_zero {A : Type} (f : A -> Status) (l : list A) :
  fold_left (fun summary x => countStatus summary (f x)) l (StatusSummary.mk 0 0 0 0)
  = statusCounts f l.
Proof. rewrite countStatus_fold. reflexivity. Qed.

Lemma statusCounts_total {A : Type} (f : A -> Status) (l : list A) :
  (StatusSummary.open (statusCounts f l) + StatusSummary.inprogress (statusCounts f l)
   + StatusSummary.done (statusCounts f l) + StatusSummary.other (statusCounts f l))%nat
  = length l.
Proof.
  unfold statusCounts.
  cbn [StatusSummary.open StatusSummary.inprogress StatusSummary.done StatusSummary.other].
  induction l as [|x l IH]; [reflexivity|].
  rewrite !(countWhere_cons _ x). cbn [length].
  destruct (f x); rewrite !Status_eqb_cases; cbn; lia.
Qed.

(** X15. The four status counters of the overview hold, for each status,
    the number of tasks of that status, and they add up to the number of
    tasks. *)
Theorem overview_counts_every_task (tasks : list Task) :
  overviewStatus tasks = statusCounts status tasks
  /\ (StatusSummary.open (overviewStatus tasks)
      + StatusSummary.inprogress (overviewStatus tasks)
      + StatusSummary.done (overviewStatus tasks)
      + StatusSummary.other (overviewStatus tasks))%nat
     = length tasks.
Proof.
  assert (E : overviewStatus tasks = statusCounts status tasks)
    by apply countStatus_from_zero.
  split; [exact E|]. rewrite E. apply statusCounts_total.
Qed.

Lemma projectRows_status_count (localeCompare : string -> string -> Z) (tasks : list Task)
  (weekFilter moduleFilter assigneeFilter : string) (s : Status) :
  countWhere (fun r => Status_eqb (ProjectRow.status r) s)
    (projectRows localeCompare tasks weekFilter moduleFilter assigneeFilter)
  = countWhere
      (fun t => matchesProjectFilters weekFilter moduleFilter assigneeFilter t
                && Status_eqb (status t) s) tasks.
Proof.
  set (st := fun f : string * string * string * Status * Z * string =>
               let '(_, _, _, x, _, _) := f in Status_eqb x s).
  transitivity (countWhere st
                  (List.map rowFields
                     (projectRows localeCompare tasks weekFilter moduleFilter assigneeFilter))).
  - now rewrite <- countWhere_map.
  - rewrite (countWhere_Permutation _ _ _ (projectRows_fields _ _ _ _ _)).
    rewrite <- countWhere_map, countWhere_filter. reflexivity.
Qed.

(** X16. The status pie of the listing: its four slices are named by the
    displayed labels of the four statuses, in the order open, in progress,
    done, other; the value of a slice is the number of tasks of that status
    that pass the three filters; and the values add up to the number of
    rows of the listing. *)
Theorem status_pie_counts_listing (localeCompare : string -> string -> Z)
  (tasks : list Task) (weekFilter moduleFilter assigneeFilter : string) :
  List.map Slice.name
    (projectPieData (projectRows localeCompare tasks weekFilter moduleFilter assigneeFilter))
  = List.map statusLabel allStatuses
  /\ List.map Slice.value
       (projectPieData (projectRows localeCompare tasks weekFilter moduleFilter assigneeFilter))
     = List.map
         (fun s =>
            Z.of_nat
              (countWhere
                 (fun t => matchesProjectFilters weekFilter moduleFilter assigneeFilter t
                           && Status_eqb (status t) s) tasks))
         allStatuses
  /\ pieTotal
       (projectPieData (projectRows localeCompare tasks weekFilter moduleFilter assigneeFilter))
     = Z.of_nat
         (length (projectRows localeCompare tasks weekFilter moduleFilter assigneeFilter)).
Proof.
  unfold projectPieData. rewrite countStatus_from_zero. split; [reflexivity|]. split.
  - unfold statusCounts, allStatuses.
    cbn [List.map Slice.value StatusSummary.open StatusSummary.inprogress StatusSummary.done
         StatusSummary.other].
    now rewrite !projectRows_status_count.
  - rewrite <- (statusCounts_total ProjectRow.status). unfold pieTotal.
    cbn [List.map Slice.value fold_right]. lia.
Qed.

(** ** The assignee chart *)

Lemma countAssignee_fold (rows : list ProjectRow.t) (m : JsMap nat) :
  NoDup (List.map fst m) ->
  NoDup (List.map fst (fold_left countAssignee rows m))
  /\ forall a,
       mapGet a (fold_left countAssignee rows m)
       = if (rowsOf rows a =? 0)%nat then mapGet a m
         else Some (default 0%nat (mapGet a m) + rowsOf rows a)%nat.
Proof.
  revert m. induction rows as [|r rows IH]; intros m Hm.
  - split; [exact Hm|]. intros a. reflexivity.
  - cbn [fold_left].
    destruct (IH (countAssignee m r) (mapSet_NoDup _ _ _ Hm)) as [Hnd Hget].
    split; [exact Hnd|]. intros a. rewrite Hget. unfold rowsOf.
    rewrite (countWhere_cons _ r). unfold countAssignee.
    destruct (String.eqb_spec (ProjectRow.assignee r) a) as [->|Hne].
    + rewrite mapGet_mapSet_eq. cbn [default].
      destruct (countWhere _ rows =? 0)%nat eqn:E.
      * apply Nat.eqb_eq in E. rewrite E. reflexivity.
      * cbn. f_equal. lia.
    + rewrite mapGet_mapSet_ne by exact Hne. reflexivity.
Qed.

Lemma In_countAssignee (rows : list ProjectRow.t) (a : string) (n : nat) :
  In (a, n) (fold_left countAssignee rows [])
  <-> n = rowsOf rows a /\ (0 < n)%nat.
Proof.
  destruct (countAssignee_fold rows []) as [Hnd Hget]; [constructor|].
  specialize (Hget a). cbn [mapGet default] in Hget. split.
  - intros H. apply (In_mapGet_Some _ _ _ Hnd) in H. rewrite H in Hget.
    destruct (Nat.eqb_spec (rowsOf rows a) 0); [discriminate|].
    injection Hget as ->. lia.
  - intros [-> Hpos]. apply mapGet_Some_In. rewrite Hget.
    destruct (Nat.eqb_spec (rowsOf rows a) 0); [lia|reflexivity].
Qed.

Lemma countDesc_total_order : TotalOrderCmp countDesc.
Proof. unfold countDesc. split; intros; lia. Qed.

Lemma chartOrder_lex (localeCompare : string -> string -> Z) (a b : string * nat) :
  chartOrder localeCompare a b
  = lexCmp countDesc localeCompare (snd a, fst a) (snd b, fst b).
Proof. reflexivity. Qed.

Lemma StronglySorted_app_l {A : Type} (R : A -> A -> Prop) (l1 l2 : list A) :
  StronglySorted R (l1 ++ l2)%list -> StronglySorted R l1.
Proof.
  induction l1 as [|a l1 IH]; [constructor|].
  cbn. intros [Hs Hall]%StronglySorted_inv. constructor; [now apply IH|].
  rewrite List.Forall_forall in *. intros x Hx. apply Hall, in_or_app. now left.
Qed.

Section AssigneeChart.

Variable localeCompare : string -> string -> Z.
Hypothesis collation : TotalOrderCmp localeCompare.
Variable rows : list ProjectRow.t.

Local Abbreviation bars := (sortBy (chartOrder localeCompare) (fold_left countAssignee rows [])).
Local Abbreviation chart := (projectAssigneeChartData localeCompare rows).

Lemma bars_split : bars = (chart ++ skipn 10 bars)%list.
Proof. unfold projectAssigneeChartData. now rewrite firstn_skipn. Qed.

Lemma bars_sorted : StronglySorted (fun x y => chartOrder localeCompare x y <= 0) bars.
Proof.
  pose proof (lexCmp_total_order _ _ countDesc_total_order collation) as H.
  apply sortBy_sorted.
  - intros x y. rewrite !chartOrder_lex. apply (cmp_total _ H).
  - intros x y z. rewrite !chartOrder_lex. apply (cmp_trans _ H).
Qed.

Lemma chartOrder_count (x y : string * nat) :
  chartOrder localeCompare x y <= 0 -> (snd y <= snd x)%nat.
Proof.
  unfold chartOrder, orZ.
  destruct (Z.eqb_spec (Z.of_nat (snd y) - Z.of_nat (snd x)) 0); lia.
Qed.

Lemma In_bars (a : string) (n : nat) :
  In (a, n) bars <-> n = rowsOf rows a /\ (0 < n)%nat.
Proof. rewrite In_sortBy. apply In_countAssignee. Qed.

Lemma bars_NoDup : NoDup (List.map fst bars).
Proof.
  rewrite sortBy_Permutation. now apply countAssignee_fold; constructor.
Qed.

Lemma In_chart_bars (x : string * nat) : In x chart -> In x bars.
Proof. intros H. rewrite bars_split. apply in_or_app. now left. Qed.

End AssigneeChart.

(** X17. The assignee chart of a listing, under a collation that is a
    total order: at most ten bars, one per assignee; each bar carries the
    number of rows of its assignee, which is at least one; the bars come by
    falling count; and when an assignee of the listing has no bar, there are
    ten bars and each of them counts at least as many rows as that
    assignee. *)
Theorem assignee_chart_shows_top_ten (localeCompare : string -> string -> Z)
  (rows : list ProjectRow.t) :
  TotalOrderCmp localeCompare ->
  (length (projectAssigneeChartData localeCompare rows) <= 10)%nat
  /\ NoDup (List.map fst (projectAssigneeChartData localeCompare rows))
  /\ List.Forall (fun bar => snd bar = rowsOf rows (fst bar) /\ (0 < snd bar)%nat)
       (projectAssigneeChartData localeCompare rows)
  /\ StronglySorted (fun bar bar' => (snd bar' <= snd bar)%nat)
       (projectAssigneeChartData localeCompare rows)
  /\ (forall a,
        (0 < rowsOf rows a)%nat ->
        ~ In a (List.map fst (projectAssigneeChartData localeCompare rows)) ->
        length (projectAssigneeChartData localeCompare rows) = 10%nat
        /\ List.Forall (fun bar => (rowsOf rows a <= snd bar)%nat)
             (projectAssigneeChartData localeCompare rows)).
Proof.
  intros collation.
  pose proof (bars_split localeCompare rows) as Hsplit.
  pose proof (bars_sorted localeCompare collation rows) as Hsorted.
  pose proof (bars_NoDup localeCompare rows) as Hnd.
  rewrite Hsplit in Hsorted, Hnd.
  split; [unfold projectAssigneeChartData; rewrite length_firstn; lia|].
  split; [rewrite List.map_app in Hnd; now apply NoDup_app in Hnd|].
  split; [|split].
  - apply List.Forall_forall. intros [a n] H%In_chart_bars. now apply In_bars in H.
  - eapply StronglySorted_impl; [|exact (StronglySorted_app_l _ _ _ Hsorted)].
    intros x y. apply chartOrder_count.
  - intros a Hpos Hout.
    assert (Hbar : In (a, rowsOf rows a) (sortBy (chartOrder localeCompare)
                                           (fold_left countAssignee rows [])))
      by now apply In_bars.
    rewrite Hsplit in Hbar. apply in_app_or in Hbar as [Hbar|Hbar].
    { exfalso. apply Hout. now apply (in_map fst) in Hbar. }
    split.
    + unfold projectAssigneeChartData. rewrite length_firstn.
      destruct (Nat.le_gt_cases 10
                  (length (sortBy (chartOrder localeCompare) (fold_left countAssignee rows []))))
        as [Hlen|Hlen]; [lia|].
      rewrite skipn_all2 in Hbar by lia. destruct Hbar.
    + apply List.Forall_forall. intros bar Hin.
      apply (chartOrder_count localeCompare bar (a, rowsOf rows a)).
      exact (StronglySorted_app_le _ _ _ Hsorted bar _ Hin Hbar).
Qed.

Lemma assignee_chart_shows_top_ten_witness :
  StronglySorted (fun bar bar' => (snd bar' <= snd bar)%nat)
    (projectAssigneeChartData codeUnitCompare
       (projectRows codeUnitCompare sampleTasks "all" "all" "all")).
Proof.
  destruct (assignee_chart_shows_top_ten codeUnitCompare
              (projectRows codeUnitCompare sampleTasks "all" "all" "all")
              codeUnitCompare_total_order) as (_ & _ & _ & H & _).
  exact H.
Defined.

(** ** Sums over the histogram *)

Section MapSums.
Context {V : Type} (f : V -> nat).

Lemma mapSet_sum (m : JsMap V) (k : string) (v : V) :
  (list_sum (List.map f (List.map snd (mapSet k v m)))
   + match mapGet k m with Some old => f old | None => 0 end)%nat
  = (list_sum (List.map f (List.map snd m)) + f v)%nat.
Proof.
  induction m as [|[k' v'] m IH]; cbn [mapSet mapGet].
  - cbn. lia.
  - destruct (String.eqb k k'); cbn [List.map snd]; rewrite !list_sum_cons; lia.
Qed.

End MapSums.

Lemma list_sum_Permutation (l l' : list nat) :
  Permutation l l' -> list_sum l = list_sum l'.
Proof.
  intros H. induction H; rewrite ?list_sum_cons; [reflexivity|lia|lia|congruence].
Qed.

Section TallySums.

Variables (allWeeks : bool) (weekFilters : list string).
Variables (f : AssigneeRow.t -> nat) (g : Z -> bool).
Hypothesis f_empty : forall a, f (emptyAssigneeRow a) = 0%nat.
Hypothesis f_bump :
  forall sp prev, f (bump sp prev) = (f prev + if g sp then 1 else 0)%nat.

Lemma tally_sum (tasks : list Task) (m : JsMap AssigneeRow.t) :
  list_sum (List.map f (List.map snd (fold_left (tally allWeeks weekFilters) tasks m)))
  = (list_sum (List.map f (List.map snd m))
     + countWhere (fun t => weekSelected allWeeks weekFilters t && g (storyPoint t)) tasks)%nat.
Proof.
  revert m. induction tasks as [|t tasks IH]; intros m;
    [cbn [fold_left]; unfold countWhere; cbn [List.filter length]; lia|].
  cbn [fold_left]. rewrite IH, countWhere_cons. unfold tally.
  destruct (weekSelected allWeeks weekFilters t); cbn [negb andb]; [|lia].
  pose proof (mapSet_sum f m (assignee t)
                (bump (storyPoint t)
                   (default (emptyAssigneeRow (assignee t)) (mapGet (assignee t) m)))) as H.
  rewrite f_bump in H.
  destruct (mapGet (assignee t) m); cbn [from_option id] in *; rewrite ?f_empty in H; lia.
Qed.

Lemma assigneeRows_sum (localeCompare : string -> string -> Z) (tasks : list Task) :
  list_sum (List.map f (assigneeRows localeCompare tasks allWeeks weekFilters))
  = countWhere (fun t => weekSelected allWeeks weekFilters t && g (storyPoint t)) tasks.
Proof.
  unfold assigneeRows.
  rewrite (list_sum_Permutation _ _ (Permutation_map f (sortBy_Permutation _ _))).
  now rewrite tally_sum.
Qed.

End TallySums.

Lemma bucket_partition (l : list Task) :
  length l
  = (countWhere (fun t => (storyPoint t =? 1)%Z) l
     + countWhere (fun t => (storyPoint t =? 2)%Z) l
     + countWhere (fun t => (storyPoint t =? 3)%Z) l
     + countWhere (fun t => (storyPoint t =? 4)%Z) l
     + countWhere (fun t => (storyPoint t =? 5)%Z) l
     + countWhere (fun t => negb (scored t)) l)%nat.
Proof.
  induction l as [|t l IH]; [reflexivity|]. rewrite !countWhere_cons. cbn [length].
  unfold scored at 1.
  destruct (Z.eqb_spec (storyPoint t) 1), (Z.eqb_spec (storyPoint t) 2),
    (Z.eqb_spec (storyPoint t) 3), (Z.eqb_spec (storyPoint t) 4),
    (Z.eqb_spec (storyPoint t) 5), (Z.leb_spec 1 (storyPoint t)),
    (Z.leb_spec (storyPoint t) 5); cbn [andb negb]; lia.
Qed.

Lemma histogramRow_total (allWeeks : bool) (weekFilters : list string) (tasks : list Task)
  (a : string) :
  AssigneeRow.total (histogramRow allWeeks weekFilters tasks a)
  = (bucketSum (histogramRow allWeeks weekFilters tasks a)
     + countWhere
         (fun t => weekSelected allWeeks weekFilters t && String.eqb (assignee t) a
                   && negb (scored t)) tasks)%nat.
Proof.
  unfold bucketSum, histogramRow.
  cbn [AssigneeRow.total AssigneeRow.point1 AssigneeRow.point2 AssigneeRow.point3
       AssigneeRow.point4 AssigneeRow.point5].
  rewrite (bucket_partition (List.filter _ tasks)) at 1.
  now rewrite (countWhere_filter _ (fun t => negb (scored t))).
Qed.

Lemma assigneeRows_assignees (localeCompare : string -> string -> Z) (tasks : list Task)
  (allWeeks : bool) (weekFilters : list string) :
  NoDup (List.map AssigneeRow.assignee (assigneeRows localeCompare tasks allWeeks weekFilters)).
Proof.
  unfold assigneeRows. rewrite sortBy_Permutation.
  destruct (tally_all allWeeks weekFilters tasks) as [Hnd Hget].
  assert (E : List.map AssigneeRow.assignee
                (List.map snd (fold_left (tally allWeeks weekFilters) tasks []))
              = List.map fst (fold_left (tally allWeeks weekFilters) tasks [])).
  { rewrite List.map_map. apply map_ext_in. intros [k v] Hin.
    apply (In_mapGet_Some _ _ _ Hnd) in Hin. rewrite Hget in Hin.
    destruct (existsb _ tasks); [|discriminate]. now injection Hin as <-. }
  now rewrite E.
Qed.

(** X18. The workload histogram has one row per assignee.  The total of a
    row is at least one and is the sum of its five buckets plus the number
    of selected tasks of its assignee whose story point is none of 1 to 5:
    an unscored task counts in the total and in no bucket.  The totals of
    the rows add up to the number of tasks that pass the week selection. *)
Theorem histogram_rows_add_up (localeCompare : string -> string -> Z) (tasks : list Task)
  (allWeeks : bool) (weekFilters : list string) :
  NoDup (List.map AssigneeRow.assignee (assigneeRows localeCompare tasks allWeeks weekFilters))
  /\ List.Forall
       (fun r =>
          (0 < AssigneeRow.total r)%nat
          /\ AssigneeRow.total r
             = (bucketSum r
                + countWhere
                    (fun t => weekSelected allWeeks weekFilters t
                              && String.eqb (assignee t) (AssigneeRow.assignee r)
                              && negb (scored t)) tasks)%nat)
       (assigneeRows localeCompare tasks allWeeks weekFilters)
  /\ list_sum (List.map AssigneeRow.total
                 (assigneeRows localeCompare tasks allWeeks weekFilters))
     = countWhere (weekSelected allWeeks weekFilters) tasks.
Proof.
  split; [apply assigneeRows_assignees|]. split.
  - apply List.Forall_forall. intros r [Hex Hr]%assigneeRows_spec.
    remember (AssigneeRow.assignee r) as a eqn:Ha. clear Ha. subst r.
    rewrite histogramRow_total. split; [|reflexivity].
    apply existsb_exists in Hex as (t & Ht & Hsel).
    rewrite <- histogramRow_total. unfold histogramRow. cbn [AssigneeRow.total].
    assert (Hin : In t (List.filter
                          (fun t => weekSelected allWeeks weekFilters t
                                    && String.eqb (assignee t) a) tasks))
      by (apply filter_In; now split).
    destruct (List.filter _ tasks); [destruct Hin|cbn; lia].
  - rewrite (assigneeRows_sum allWeeks weekFilters AssigneeRow.total (fun _ => true)).
    + apply countWhere_ext_in. intros t _. apply andb_true_r.
    + reflexivity.
    + intros sp prev. cbn. lia.
Qed.

Lemma assigneeOrder_lex (localeCompare : string -> string -> Z) (a b : AssigneeRow.t) :
  assigneeOrder localeCompare a b
  = lexCmp countDesc localeCompare
      (AssigneeRow.total a, AssigneeRow.assignee a)
      (AssigneeRow.total b, AssigneeRow.assignee b).
Proof. reflexivity. Qed.

(** X19. Under a collation that is a total order, the rows of the
    histogram come by falling total, and rows of equal total by assignee
    in the order of the collation. *)
Theorem histogram_sorted_by_total (localeCompare : string -> string -> Z)
  (tasks : list Task) (allWeeks : bool) (weekFilters : list string) :
  TotalOrderCmp localeCompare ->
  StronglySorted
    (fun r r' =>
       (AssigneeRow.total r' <= AssigneeRow.total r)%nat
       /\ (AssigneeRow.total r' = AssigneeRow.total r ->
           localeCompare (AssigneeRow.assignee r) (AssigneeRow.assignee r') <= 0))
    (assigneeRows localeCompare tasks allWeeks weekFilters).
Proof.
  intros collation.
  pose proof (lexCmp_total_order _ _ countDesc_total_order collation) as H.
  eapply StronglySorted_impl; [|apply (sortBy_sorted (assigneeOrder localeCompare))].
  - intros r r'. cbv beta. unfold assigneeOrder, orZ.
    destruct (Z.eqb_spec (Z.of_nat (AssigneeRow.total r') - Z.of_nat (AssigneeRow.total r)) 0);
      lia.
  - intros x y. rewrite !assigneeOrder_lex. apply (cmp_total _ H).
  - intros x y z. rewrite !assigneeOrder_lex. apply (cmp_trans _ H).
Qed.

Lemma histogram_sorted_by_total_witness :
  StronglySorted
    (fun r r' =>
       (AssigneeRow.total r' <= AssigneeRow.total r)%nat
       /\ (AssigneeRow.total r' = AssigneeRow.total r ->
           codeUnitCompare (AssigneeRow.assignee r) (AssigneeRow.assignee r') <= 0))
    (assigneeRows codeUnitCompare sampleTasks false ["W01"]).
Proof. apply histogram_sorted_by_total. exact codeUnitCompare_total_order. Defined.

(** ** The difficulty pie *)

Lemma addPoints_fold (rows : list AssigneeRow.t) (c1 c2 c3 c4 c5 : nat) :
  fold_left addPoints rows (c1, c2, c3, c4, c5)
  = (c1 + list_sum (List.map AssigneeRow.point1 rows),
     c2 + list_sum (List.map AssigneeRow.point2 rows),
     c3 + list_sum (List.map AssigneeRow.point3 rows),
     c4 + list_sum (List.map AssigneeRow.point4 rows),
     c5 + list_sum (List.map AssigneeRow.point5 rows))%nat.
Proof.
  revert c1 c2 c3 c4 c5. induction rows as [|r rows IH]; intros c1 c2 c3 c4 c5.
  - cbn [fold_left List.map list_sum fold_right]. now rewrite !Nat.add_0_r.
  - cbn [fold_left addPoints]. rewrite IH. cbn [List.map]. rewrite !list_sum_cons.
    now rewrite !Nat.add_assoc.
Qed.

(** X20. The difficulty pie of the histogram: its slices C1 to C5 hold,
    for each story point from 1 to 5, the number of tasks with that story
    point that pass the week selection, whoever the assignee; unscored
    tasks are in no slice, so the slices add up to the number of selected
    tasks with a story point from 1 to 5. *)
Theorem difficulty_pie_counts_selected_tasks (localeCompare : string -> string -> Z)
  (tasks : list Task) (allWeeks : bool) (weekFilters : list string) :
  List.map Slice.name
    (assigneePieData (assigneeRows localeCompare tasks allWeeks weekFilters))
  = ["C1"; "C2"; "C3"; "C4"; "C5"]
  /\ List.map Slice.value
       (assigneePieData (assigneeRows localeCompare tasks allWeeks weekFilters))
     = List.map
         (fun k =>
            Z.of_nat
              (countWhere
                 (fun t => weekSelected allWeeks weekFilters t && (storyPoint t =? k)) tasks))
         [1; 2; 3; 4; 5]
  /\ pieTotal (assigneePieData (assigneeRows localeCompare tasks allWeeks weekFilters))
     = Z.of_nat
         (countWhere (fun t => weekSelected allWeeks weekFilters t && scored t) tasks).
Proof.
  unfold assigneePieData. rewrite addPoints_fold. cbn [Nat.add].
  rewrite (assigneeRows_sum allWeeks weekFilters AssigneeRow.point1 (fun sp => sp =? 1));
    [|reflexivity|intros sp prev; cbn; destruct (sp =? 1); lia].
  rewrite (assigneeRows_sum allWeeks weekFilters AssigneeRow.point2 (fun sp => sp =? 2));
    [|reflexivity|intros sp prev; cbn; destruct (sp =? 2); lia].
  rewrite (assigneeRows_sum allWeeks weekFilters AssigneeRow.point3 (fun sp => sp =? 3));
    [|reflexivity|intros sp prev; cbn; destruct (sp =? 3); lia].
  rewrite (assigneeRows_sum allWeeks weekFilters AssigneeRow.point4 (fun sp => sp =? 4));
    [|reflexivity|intros sp prev; cbn; destruct (sp =? 4); lia].
  rewrite (assigneeRows_sum allWeeks weekFilters AssigneeRow.point5 (fun sp => sp =? 5));
    [|reflexivity|intros sp prev; cbn; destruct (sp =? 5); lia].
  split; [reflexivity|]. split; [reflexivity|].
  unfold pieTotal. cbn [List.map Slice.value fold_right].
  induction tasks as [|t tasks IH]; [reflexivity|].
  rewrite !countWhere_cons. unfold scored at 1.
  destruct (weekSelected allWeeks weekFilters t); cbn [andb]; [|lia].
  destruct (Z.eqb_spec (storyPoint t) 1), (Z.eqb_spec (storyPoint t) 2),
    (Z.eqb_spec (storyPoint t) 3), (Z.eqb_spec (storyPoint t) 4),
    (Z.eqb_spec (storyPoint t) 5), (Z.leb_spec 1 (storyPoint t)),
    (Z.leb_spec (storyPoint t) 5); cbn [andb]; lia.
Qed.

(** ** Summary of the comparison *)

Lemma compareRows_row (localeCompare : string -> string -> Z) (tasks : list Task)
  (compareWeekA compareWeekB : string) (r : CompareRow.t) :
  In r (compareRows localeCompare tasks compareWeekA compareWeekB) ->
  hasData r = true
  /\ CompareRow.transition r
     = transitionText compareWeekB (CompareRow.statusA r) (CompareRow.statusB r)
  /\ CompareRow.invalidDoneBoth r
     = bool_decide (CompareRow.statusA r = Some done)
       && bool_decide (CompareRow.statusB r = Some done)
  /\ exists entry,
       In entry (compareTaskMap tasks)
       /\ CompareRow.statusA r = TaskEntry.statusByWeek (snd entry) !! compareWeekA
       /\ CompareRow.statusB r = TaskEntry.statusByWeek (snd entry) !! compareWeekB.
Proof.
  unfold compareRows.
  destruct (String.eqb compareWeekA "" || String.eqb compareWeekB ""); [intros []|].
  rewrite In_sortBy, filter_In, in_map_iff. intros [(entry & <- & Hin) Hdata].
  split; [exact Hdata|]. split; [reflexivity|]. split; [reflexivity|].
  exists entry. now split.
Qed.

Lemma countWhere_disjoint {A : Type} (p q : A -> bool) (l : list A) :
  (forall x, In x l -> p x = true -> q x = false) ->
  (countWhere p l + countWhere q l <= length l)%nat.
Proof.
  induction l as [|x l IH]; intros H; [cbn; lia|].
  rewrite !countWhere_cons. cbn [length].
  assert (IH' := IH (fun y Hy => H y (or_intror Hy))).
  pose proof (H x (or_introl eq_refl)) as Hx.
  destruct (p x); [rewrite (Hx eq_refl)|destruct (q x)]; lia.
Qed.

Lemma countWhere_le_length {A : Type} (p : A -> bool) (l : list A) :
  (countWhere p l <= length l)%nat.
Proof. induction l as [|x l IH]; [cbn; lia|]. rewrite countWhere_cons. cbn [length]. destruct (p x); lia. Qed.

(** X21. The summary of a comparison: a row flagged as done in both weeks
    is never counted as changed, so the changed rows and the flagged rows
    together are at most all rows.  The unchanged slice of the comparison
    pie is therefore the number of rows that are not changed, its floor at
    zero never applying, and since the flagged rows are unchanged rows the
    three slices add up to the number of rows plus the number of flagged
    rows. *)
Theorem comparison_summary_counts (localeCompare : string -> string -> Z)
  (tasks : list Task) (compareWeekA compareWeekB : string) :
  (CompareSummary.changed
     (compareSummary (compareRows localeCompare tasks compareWeekA compareWeekB))
   + CompareSummary.invalidDoneBoth
       (compareSummary (compareRows localeCompare tasks compareWeekA compareWeekB))
   <= CompareSummary.total
        (compareSummary (compareRows localeCompare tasks compareWeekA compareWeekB)))%nat
  /\ CompareSummary.total
       (compareSummary (compareRows localeCompare tasks compareWeekA compareWeekB))
     = length (compareRows localeCompare tasks compareWeekA compareWeekB)
  /\ List.map Slice.value
       (comparePieData
          (compareSummary (compareRows localeCompare tasks compareWeekA compareWeekB)))
     = [ Z.of_nat (countWhere
                     (fun r => negb (bool_decide (CompareRow.statusA r = CompareRow.statusB r)))
                     (compareRows localeCompare tasks compareWeekA compareWeekB));
         Z.of_nat (countWhere
                     (fun r => bool_decide (CompareRow.statusA r = CompareRow.statusB r))
                     (compareRows localeCompare tasks compareWeekA compareWeekB));
         Z.of_nat (countWhere CompareRow.invalidDoneBoth
                     (compareRows localeCompare tasks compareWeekA compareWeekB)) ]
  /\ pieTotal
       (comparePieData
          (compareSummary (compareRows localeCompare tasks compareWeekA compareWeekB)))
     = Z.of_nat (length (compareRows localeCompare tasks compareWeekA compareWeekB))
       + Z.of_nat (countWhere CompareRow.invalidDoneBoth
                     (compareRows localeCompare tasks compareWeekA compareWeekB)).
Proof.
  set (rows := compareRows localeCompare tasks compareWeekA compareWeekB).
  assert (Hdisj : forall r, In r rows ->
            negb (bool_decide (CompareRow.statusA r = CompareRow.statusB r)) = true ->
            CompareRow.invalidDoneBoth r = false).
  { intros r (_ & _ & -> & _)%compareRows_row Hne. apply negb_true_iff in Hne.
    apply bool_decide_eq_false in Hne.
    destruct (bool_decide_reflect (CompareRow.statusA r = Some done)) as [Ea|];
      [|reflexivity].
    destruct (bool_decide_reflect (CompareRow.statusB r = Some done)) as [Eb|];
      [|reflexivity].
    congruence. }
  assert (Hsplit : (countWhere
                      (fun r => negb (bool_decide (CompareRow.statusA r = CompareRow.statusB r)))
                      rows
                    + countWhere
                        (fun r => bool_decide (CompareRow.statusA r = CompareRow.statusB r)) rows
                    = length rows)%nat).
  { clear Hdisj. induction rows as [|r l IH]; [reflexivity|].
    rewrite !countWhere_cons. cbn [length].
    destruct (bool_decide (CompareRow.statusA r = CompareRow.statusB r)); cbn [negb]; lia. }
  pose proof (countWhere_disjoint _ _ rows Hdisj) as Hle.
  unfold compareSummary, comparePieData, pieTotal.
  cbn [CompareSummary.changed CompareSummary.invalidDoneBoth CompareSummary.total
       List.map Slice.value fold_right].
  fold (countWhere (fun row => negb (bool_decide (CompareRow.statusA row = CompareRow.statusB row)))
          rows) in *.
  fold (countWhere CompareRow.invalidDoneBoth rows) in *.
  split; [exact Hle|]. split; [reflexivity|]. split.
  - repeat f_equal. lia.
  - lia.
Qed.

(** ** Transition texts *)

Lemma transitionText_unchanged (compareWeekB : string) (statusA statusB : option Status) :
  (statusA <> None \/ statusB <> None) ->
  (transitionText compareWeekB statusA statusB = "Không đổi" <-> statusA = statusB).
Proof.
  intros Hdata. unfold transitionText.
  destruct statusA as [a|], statusB as [b|].
  - unfold Status_eqb. destruct (bool_decide_reflect (a = b)) as [->|Hne].
    + tauto.
    + split; [|congruence]. intros H. exfalso.
      apply (f_equal (fun s => String.get 0 s)) in H. now destruct a.
  - split; [|discriminate]. intros H. exfalso.
    apply (f_equal (fun s => String.get 7 s)) in H. vm_compute in H. discriminate.
  - split; [|discriminate]. intros H. exfalso.
    apply (f_equal (fun s => String.get 0 s)) in H. vm_compute in H. discriminate.
  - exfalso. destruct Hdata; congruence.
Qed.

Lemma hasData_iff (r : CompareRow.t) :
  hasData r = true <-> CompareRow.statusA r <> None \/ CompareRow.statusB r <> None.
Proof.
  unfold hasData. rewrite orb_true_iff, !negb_true_iff, !bool_decide_eq_false. tauto.
Qed.

(** X22. The transition text of a comparison row reads unchanged exactly
    when the two statuses of the row are equal; so the number of changed
    rows of the summary is the number of rows whose transition text is not
    the unchanged one. *)
Theorem transition_text_tells_change (localeCompare : string -> string -> Z)
  (tasks : list Task) (compareWeekA compareWeekB : string) :
  List.Forall
    (fun r =>
       CompareRow.transition r = "Không đổi" <-> CompareRow.statusA r = CompareRow.statusB r)
    (compareRows localeCompare tasks compareWeekA compareWeekB)
  /\ CompareSummary.changed
       (compareSummary (compareRows localeCompare tasks compareWeekA compareWeekB))
     = countWhere (fun r => negb (String.eqb (CompareRow.transition r) "Không đổi"))
         (compareRows localeCompare tasks compareWeekA compareWeekB).
Proof.
  assert (H : forall r,
            In r (compareRows localeCompare tasks compareWeekA compareWeekB) ->
            (CompareRow.transition r = "Không đổi"
             <-> CompareRow.statusA r = CompareRow.statusB r)).
  { intros r (Hdata & -> & _)%compareRows_row.
    apply transitionText_unchanged. now apply hasData_iff. }
  split; [now apply List.Forall_forall|].
  unfold compareSummary. cbn [CompareSummary.changed].
  apply countWhere_ext_in. intros r Hr. f_equal.
  destruct (String.eqb_spec (CompareRow.transition r) "Không đổi") as [E|E].
  - apply bool_decide_eq_true. now apply H.
  - apply bool_decide_eq_false. intros E'. now apply H in E'.
Qed.

(** X23. Comparing a week with itself: every row has the same status on
    both sides and the unchanged transition text, no row counts as changed,
    and a row is flagged as done in both weeks exactly when its status in
    that week is done. *)
Theorem comparing_a_week_with_itself (localeCompare : string -> string -> Z)
  (tasks : list Task) (week : string) :
  List.Forall
    (fun r =>
       CompareRow.statusA r = CompareRow.statusB r
       /\ CompareRow.transition r = "Không đổi"
       /\ CompareRow.invalidDoneBoth r = bool_decide (CompareRow.statusA r = Some done))
    (compareRows localeCompare tasks week week)
  /\ CompareSummary.changed (compareSummary (compareRows localeCompare tasks week week))
     = 0%nat.
Proof.
  assert (H : forall r,
            In r (compareRows localeCompare tasks week week) ->
            CompareRow.statusA r = CompareRow.statusB r).
  { intros r (_ & _ & _ & entry & _ & -> & ->)%compareRows_row. reflexivity. }
  split.
  - apply List.Forall_forall. intros r Hr. pose proof (H r Hr) as E.
    apply compareRows_row in Hr as (Hdata & Ht & Hinv & _).
    split; [exact E|]. split.
    + rewrite Ht. apply transitionText_unchanged; [now apply hasData_iff|exact E].
    + rewrite Hinv, <- E. apply andb_diag.
  - unfold compareSummary. cbn [CompareSummary.changed].
    apply countWhere_zero. intros r Hr. apply negb_false_iff, bool_decide_eq_true. now apply H.
Qed.

(** ** Groups of the comparison table *)

Lemma markCompareRows_rows (moduleCount assigneeCount : gmap string nat)
  (seenModule seenAssignee : gset string) (rows : list CompareRow.t) :
  List.map GroupedCompareRow.row
    (markCompareRows moduleCount assigneeCount seenModule seenAssignee rows) = rows.
Proof.
  revert seenModule seenAssignee. induction rows as [|r rows IH]; intros sm sa; [reflexivity|].
  cbn [markCompareRows List.map GroupedCompareRow.row]. now rewrite IH.
Qed.

Lemma markCompareRows_spans (moduleCount assigneeCount : gmap string nat)
  (seenModule seenAssignee : gset string) (rows : list CompareRow.t)
  (g : GroupedCompareRow.t) :
  In g (markCompareRows moduleCount assigneeCount seenModule seenAssignee rows) ->
  GroupedCompareRow.moduleRowSpan g
  = default 1%nat (moduleCount !! CompareRow.module (GroupedCompareRow.row g))
  /\ GroupedCompareRow.assigneeRowSpan g
     = default 1%nat (assigneeCount !! compareAssigneeKey (GroupedCompareRow.row g)).
Proof.
  revert seenModule seenAssignee.
  induction rows as [|r rows IH]; intros sm sa; cbn [markCompareRows In]; [tauto|].
  intros [<-|Hin]; [split; reflexivity|eauto].
Qed.

Lemma markCompareRows_shows (moduleCount assigneeCount : gmap string nat)
  (rows : list CompareRow.t) (beforeModule beforeAssignee : list string) :
  List.map GroupedCompareRow.showModule
    (markCompareRows moduleCount assigneeCount
       (list_to_set beforeModule) (list_to_set beforeAssignee) rows)
  = firstOcc String.eqb beforeModule (List.map CompareRow.module rows)
  /\ List.map GroupedCompareRow.showAssignee
       (markCompareRows moduleCount assigneeCount
          (list_to_set beforeModule) (list_to_set beforeAssignee) rows)
     = firstOcc String.eqb beforeAssignee (List.map compareAssigneeKey rows).
Proof.
  revert beforeModule beforeAssignee.
  induction rows as [|r rows IH]; intros bm ba; [split; reflexivity|].
  cbn [markCompareRows List.map firstOcc].
  rewrite !bool_decide_elem_of_list_to_set.
  rewrite seen_step, seen_step.
  destruct (IH (CompareRow.module r :: bm) (compareAssigneeKey r :: ba)) as [IH1 IH2].
  split; cbn [GroupedCompareRow.showModule GroupedCompareRow.showAssignee]; f_equal;
    assumption.
Qed.

Lemma countCompareRow_fold (rows : list CompareRow.t) (mc ac : gmap string nat) (k : string) :
  fst (fold_left countCompareRow rows (mc, ac)) !! k
  = (let n := countWhere (fun x => String.eqb k (CompareRow.module x)) rows in
     if (n =? 0)%nat then mc !! k else Some (default 0 (mc !! k) + n)%nat)
  /\ snd (fold_left countCompareRow rows (mc, ac)) !! k
     = (let n := countWhere (fun x => String.eqb k (compareAssigneeKey x)) rows in
        if (n =? 0)%nat then ac !! k else Some (default 0 (ac !! k) + n)%nat).
Proof.
  revert mc ac. induction rows as [|r rows IH]; intros mc ac; [split; reflexivity|].
  cbn [fold_left]. unfold countCompareRow at 2 4. cbn [fst snd].
  destruct (IH (<[CompareRow.module r := (default 0 (mc !! CompareRow.module r) + 1)%nat]> mc)
              (<[compareAssigneeKey r
                 := (default 0 (ac !! compareAssigneeKey r) + 1)%nat]> ac)) as [IH1 IH2].
  rewrite IH1, IH2. clear IH IH1 IH2. unfold countWhere. cbn [List.filter].
  split.
  - destruct (String.eqb_spec k (CompareRow.module r)) as [->|Hne].
    + rewrite lookup_insert_eq. cbn [length default].
      destruct (length (List.filter _ rows)); simpl; f_equal; lia.
    + rewrite lookup_insert_ne by congruence. reflexivity.
  - destruct (String.eqb_spec k (compareAssigneeKey r)) as [->|Hne].
    + rewrite lookup_insert_eq. cbn [length default].
      destruct (length (List.filter _ rows)); simpl; f_equal; lia.
    + rewrite lookup_insert_ne by congruence. reflexivity.
Qed.

Lemma countCompareRow_totals (rows : list CompareRow.t) (k : string) :
  default 1%nat (fst (fold_left countCompareRow rows (∅, ∅)) !! k)
  = Nat.max 1 (countWhere (fun x => String.eqb k (CompareRow.module x)) rows)
  /\ default 1%nat (snd (fold_left countCompareRow rows (∅, ∅)) !! k)
     = Nat.max 1 (countWhere (fun x => String.eqb k (compareAssigneeKey x)) rows).
Proof.
  destruct (countCompareRow_fold rows ∅ ∅ k) as [-> ->]. cbn zeta.
  rewrite !lookup_empty. cbn [default].
  split.
  - destruct (countWhere _ rows); simpl; lia.
  - destruct (countWhere (fun x => String.eqb k (compareAssigneeKey x)) rows); simpl; lia.
Qed.

Lemma compareGroupedRows_unfold (rows : list CompareRow.t) :
  compareGroupedRows rows
  = markCompareRows (fst (fold_left countCompareRow rows (∅, ∅)))
      (snd (fold_left countCompareRow rows (∅, ∅))) (list_to_set []) (list_to_set []) rows.
Proof. reflexivity. Qed.

Lemma compareGroupedRows_rows (rows : list CompareRow.t) :
  List.map GroupedCompareRow.row (compareGroupedRows rows) = rows.
Proof. apply markCompareRows_rows. Qed.

Lemma compareGroupedRows_spans (rows : list CompareRow.t) (g : GroupedCompareRow.t) :
  In g (compareGroupedRows rows) ->
  GroupedCompareRow.moduleRowSpan g
  = countWhere (sameCompareModule (GroupedCompareRow.row g)) rows
  /\ GroupedCompareRow.assigneeRowSpan g
     = countWhere (sameCompareKey (GroupedCompareRow.row g)) rows.
Proof.
  intros Hin.
  assert (Hrow : In (GroupedCompareRow.row g) rows).
  { rewrite <- (compareGroupedRows_rows rows). now apply in_map. }
  rewrite compareGroupedRows_unfold in Hin.
  destruct (markCompareRows_spans _ _ _ _ _ g Hin) as [-> ->].
  rewrite (proj1 (countCompareRow_totals _ _)), (proj2 (countCompareRow_totals _ _)).
  fold (sameCompareModule (GroupedCompareRow.row g)).
  fold (sameCompareKey (GroupedCompareRow.row g)).
  assert (0 < countWhere (sameCompareModule (GroupedCompareRow.row g)) rows)%nat
    by (apply (countWhere_pos _ _ _ Hrow); apply String.eqb_refl).
  assert (0 < countWhere (sameCompareKey (GroupedCompareRow.row g)) rows)%nat
    by (apply (countWhere_pos _ _ _ Hrow); apply String.eqb_refl).
  lia.
Qed.

Lemma flagDesc_total_order : TotalOrderCmp flagDesc.
Proof.
  unfold flagDesc. split.
  - intros a. lia.
  - intros [] []; cbn; intros H; try reflexivity; lia.
  - intros [] []; cbn; lia.
  - intros [] [] []; cbn; lia.
Qed.

Lemma compareOrder_lex (localeCompare : string -> string -> Z) (a b : CompareRow.t) :
  compareOrder localeCompare a b
  = lexCmp localeCompare (lexCmp localeCompare (lexCmp flagDesc localeCompare))
      (compareKey a) (compareKey b).
Proof. reflexivity. Qed.

Lemma compareRows_sorted (localeCompare : string -> string -> Z) (tasks : list Task)
  (compareWeekA compareWeekB : string) :
  TotalOrderCmp localeCompare ->
  StronglySorted (fun a b => compareOrder localeCompare a b <= 0)
    (compareRows localeCompare tasks compareWeekA compareWeekB).
Proof.
  intros collation.
  pose proof (lexCmp_total_order _ _ collation
                (lexCmp_total_order _ _ collation
                   (lexCmp_total_order _ _ flagDesc_total_order collation))) as H4.
  unfold compareRows.
  destruct (String.eqb compareWeekA "" || String.eqb compareWeekB ""); [constructor|].
  apply sortBy_sorted.
  - intros x y. rewrite !compareOrder_lex. apply (cmp_total _ H4).
  - intros x y z. rewrite !compareOrder_lex. apply (cmp_trans _ H4).
Qed.

Lemma compareRows_modules_sorted (localeCompare : string -> string -> Z) (tasks : list Task)
  (compareWeekA compareWeekB : string) :
  TotalOrderCmp localeCompare ->
  StronglySorted (fun a b => localeCompare a b <= 0)
    (List.map CompareRow.module (compareRows localeCompare tasks compareWeekA compareWeekB)).
Proof.
  intros collation. apply StronglySorted_map.
  eapply StronglySorted_impl; [|now apply compareRows_sorted].
  intros a b H. cbv beta in H. rewrite compareOrder_lex in H.
  apply lexCmp_fst_le in H; [exact H|exact collation].
Qed.

(** X24. The grouped comparison table, under a collation that is a total
    order: it has the rows of the comparison, unchanged and in the same
    order; the module label is owned by exactly the first row of each run of
    equal module; the module span of a row is the number of rows of its
    module; and its assignee span is the number of rows with the same
    module-and-assignee key. *)
Theorem grouped_comparison_spans (localeCompare : string -> string -> Z)
  (tasks : list Task) (compareWeekA compareWeekB : string) :
  TotalOrderCmp localeCompare ->
  List.map GroupedCompareRow.row
    (compareGroupedRows (compareRows localeCompare tasks compareWeekA compareWeekB))
  = compareRows localeCompare tasks compareWeekA compareWeekB
  /\ List.map GroupedCompareRow.showModule
       (compareGroupedRows (compareRows localeCompare tasks compareWeekA compareWeekB))
     = runStarts sameCompareModule
         (compareRows localeCompare tasks compareWeekA compareWeekB)
  /\ List.Forall
       (fun g =>
          GroupedCompareRow.moduleRowSpan g
          = countWhere (sameCompareModule (GroupedCompareRow.row g))
              (compareRows localeCompare tasks compareWeekA compareWeekB)
          /\ GroupedCompareRow.assigneeRowSpan g
             = countWhere (sameCompareKey (GroupedCompareRow.row g))
                 (compareRows localeCompare tasks compareWeekA compareWeekB))
       (compareGroupedRows (compareRows localeCompare tasks compareWeekA compareWeekB)).
Proof.
  intros collation. split; [apply compareGroupedRows_rows|]. split.
  - rewrite compareGroupedRows_unfold.
    rewrite (proj1 (markCompareRows_shows _ _ _ [] [])).
    rewrite (firstOcc_sorted String.eqb String.eqb_eq localeCompare collation _ [] None
               (compareRows_modules_sorted localeCompare tasks compareWeekA compareWeekB
                  collation) eq_refl).
    unfold runStarts, sameCompareModule.
    now rewrite (runStartsFrom_map String.eqb CompareRow.module None).
  - apply List.Forall_forall. intros g Hg. now apply compareGroupedRows_spans.
Qed.

Lemma grouped_comparison_spans_witness :
  List.map GroupedCompareRow.showModule
    (compareGroupedRows (compareRows codeUnitCompare sampleTasks "W01" "W02"))
  = runStarts sameCompareModule (compareRows codeUnitCompare sampleTasks "W01" "W02").
Proof.
  destruct (grouped_comparison_spans codeUnitCompare sampleTasks "W01" "W02"
              codeUnitCompare_total_order) as (_ & H & _).
  exact H.
Defined.

(** ** Reminders of the manager tab *)

Lemma filter_nothing {A : Type} (p : A -> bool) (l : list A) :
  (forall x, In x l -> p x = false) -> List.filter p l = [].
Proof.
  induction l as [|x l IH]; intros H; [reflexivity|]. cbn [List.filter].
  rewrite (H x (or_introl eq_refl)). apply IH. intros y Hy. apply H. now right.
Qed.

Lemma compareTaskMap_entry (tasks : list Task) (entry : string * TaskEntry.t) (week : string) :
  In entry (compareTaskMap tasks) ->
  TaskEntry.statusByWeek (snd entry) !! week
  = statusAt (taskStatusByWeek tasks) (fst entry) week.
Proof.
  destruct entry as [k e]. intros Hin. cbn [fst snd].
  apply (In_mapGet_Some _ _ _ (compareTaskMap_keys tasks)) in Hin.
  rewrite <- entryStatus_statusAt. unfold entryStatus. now rewrite Hin.
Qed.

Lemma managerReminderRows_row (localeCompare : string -> string -> Z) (tasks : list Task)
  (currentWeekCode : string) (r : ReminderRow.t) :
  In r (MultiWeek.managerReminderRows localeCompare tasks currentWeekCode) ->
  previousWeek currentWeekCode <> ""
  /\ (ReminderRow.doneBoth r || ReminderRow.missingCurrent r) = true
  /\ ReminderRow.doneBoth r
     = bool_decide (statusAt (taskStatusByWeek tasks) (ReminderRow.taskKey r)
                      (previousWeek currentWeekCode) = Some done)
       && bool_decide (statusAt (taskStatusByWeek tasks) (ReminderRow.taskKey r)
                         currentWeekCode = Some done)
  /\ ReminderRow.missingCurrent r
     = negb (bool_decide (statusAt (taskStatusByWeek tasks) (ReminderRow.taskKey r)
                            (previousWeek currentWeekCode) = None))
       && negb (bool_decide (statusAt (taskStatusByWeek tasks) (ReminderRow.taskKey r)
                               (previousWeek currentWeekCode) = Some done))
       && bool_decide (statusAt (taskStatusByWeek tasks) (ReminderRow.taskKey r)
                         currentWeekCode = None).
Proof.
  unfold MultiWeek.managerReminderRows.
  rewrite In_sortBy, filter_In, in_map_iff. intros [(entry & <- & Hin) Hflag].
  unfold MultiWeek.toReminderRow in *.
  cbn [ReminderRow.doneBoth ReminderRow.missingCurrent ReminderRow.taskKey] in *.
  rewrite !(compareTaskMap_entry tasks entry) in * by exact Hin.
  destruct (String.eqb_spec (previousWeek currentWeekCode) "") as [E|E].
  - exfalso. rewrite bool_decide_eq_false_2 in Hflag by discriminate.
    rewrite (bool_decide_eq_true_2 (None = None)) in Hflag by reflexivity.
    discriminate Hflag.
  - split; [exact E|]. split; [exact Hflag|]. split; reflexivity.
Qed.

(** X25. The reminders of the manager tab.  In a week that has no week
    before it, week 1 or a code that is none, there is no reminder.
    Otherwise every reminder row carries exactly one of its two flags: done
    in both weeks, when the merged status of its identity is done in the
    week before and in the current week; or missing in the current week,
    when the identity has a status other than done in the week before and
    none in the current week. *)
Theorem manager_reminders_flag_one_case (localeCompare : string -> string -> Z)
  (tasks : list Task) (currentWeekCode : string) :
  (previousWeek currentWeekCode = "" ->
   MultiWeek.managerReminderRows localeCompare tasks currentWeekCode = [])
  /\ List.Forall
       (fun r =>
          xorb (ReminderRow.doneBoth r) (ReminderRow.missingCurrent r) = true
          /\ (ReminderRow.doneBoth r = true <->
              statusAt (taskStatusByWeek tasks) (ReminderRow.taskKey r)
                (previousWeek currentWeekCode) = Some done
              /\ statusAt (taskStatusByWeek tasks) (ReminderRow.taskKey r) currentWeekCode
                 = Some done)
          /\ (ReminderRow.missingCurrent r = true <->
              (exists s, statusAt (taskStatusByWeek tasks) (ReminderRow.taskKey r)
                           (previousWeek currentWeekCode) = Some s /\ s <> done)
              /\ statusAt (taskStatusByWeek tasks) (ReminderRow.taskKey r) currentWeekCode
                 = None))
       (MultiWeek.managerReminderRows localeCompare tasks currentWeekCode).
Proof.
  split.
  - intros E.
    destruct (MultiWeek.managerReminderRows localeCompare tasks currentWeekCode) as [|r l] eqn:El;
      [reflexivity|].
    assert (Hin : In r (MultiWeek.managerReminderRows localeCompare tasks currentWeekCode))
      by (rewrite El; now left).
    apply managerReminderRows_row in Hin as [Hne _]. congruence.
  - apply List.Forall_forall. intros r (_ & Hflag & Hd & Hm)%managerReminderRows_row.
    assert (Hdone : ReminderRow.doneBoth r = true <->
              statusAt (taskStatusByWeek tasks) (ReminderRow.taskKey r)
                (previousWeek currentWeekCode) = Some done
              /\ statusAt (taskStatusByWeek tasks) (ReminderRow.taskKey r) currentWeekCode
                 = Some done).
    { rewrite Hd, andb_true_iff, !bool_decide_eq_true. reflexivity. }
    assert (Hmiss : ReminderRow.missingCurrent r = true <->
              (exists s, statusAt (taskStatusByWeek tasks) (ReminderRow.taskKey r)
                           (previousWeek currentWeekCode) = Some s /\ s <> done)
              /\ statusAt (taskStatusByWeek tasks) (ReminderRow.taskKey r) currentWeekCode
                 = None).
    { rewrite Hm, !andb_true_iff, !negb_true_iff, !bool_decide_eq_false, bool_decide_eq_true.
      destruct (statusAt (taskStatusByWeek tasks) (ReminderRow.taskKey r)
                  (previousWeek currentWeekCode)) as [p|].
      - split.
        + intros [[_ Hp] Hc]. split; [|exact Hc]. exists p. split; [reflexivity|congruence].
        + intros [(s & [= <-] & Hs) Hc]. split; [|exact Hc]. split; [discriminate|congruence].
      - split.
        + intros [[Hp _] _]. congruence.
        + intros [(s & [=] & _) _]. }
    split; [|split; [exact Hdone|exact Hmiss]].
    destruct (ReminderRow.doneBoth r), (ReminderRow.missingCurrent r);
      try reflexivity; try discriminate Hflag.
    exfalso. destruct (proj1 Hdone eq_refl) as [_ Hc]. destruct (proj1 Hmiss eq_refl) as [_ Hc'].
    congruence.
Qed.

Lemma manager_reminders_flag_one_case_witness :
  MultiWeek.managerReminderRows codeUnitCompare doneTwice "W01" = [].
Proof.
  apply (proj1 (manager_reminders_flag_one_case codeUnitCompare doneTwice "W01")).
  reflexivity.
Defined.

(** ** Workload of the current week *)

Section Workload.

Local Abbreviation mine a := (fun t : Task => String.eqb (assignee t) a).

Lemma workloadRow_snoc (seen : list Task) (t : Task) (a : string) :
  workloadRow (seen ++ [t])%list a =
  if mine a t then ManagerTab.bumpWorkload (storyPoint t) (workloadRow seen a)
  else workloadRow seen a.
Proof.
  unfold workloadRow, countWhere, ManagerTab.bumpWorkload.
  rewrite !List.filter_app. cbn [List.filter].
  destruct (String.eqb (assignee t) a); cbn [List.filter].
  - destruct (storyPoint t <=? 2); [|destruct (storyPoint t =? 3)];
      cbn [negb andb WorkloadRow.assignee WorkloadRow.light WorkloadRow.medium
           WorkloadRow.heavy WorkloadRow.total];
      rewrite ?app_nil_r, ?length_app; cbn [length]; rewrite ?Nat.add_1_r; reflexivity.
  - now rewrite !app_nil_r.
Qed.

Lemma workloadRow_none (seen : list Task) (a : string) :
  existsb (mine a) seen = false -> workloadRow seen a = WorkloadRow.mk a 0 0 0 0.
Proof.
  intros H. unfold workloadRow.
  rewrite (filter_nothing (mine a) seen); [reflexivity|].
  intros x Hx. destruct (String.eqb (assignee x) a) eqn:E; [|reflexivity].
  assert (existsb (mine a) seen = true) by (apply existsb_exists; eauto). congruence.
Qed.

Lemma tallyWorkload_step (m : JsMap WorkloadRow.t) (seen : list Task) (t : Task) :
  workloadTallied m seen ->
  workloadTallied (ManagerTab.tallyWorkload m t) (seen ++ [t])%list.
Proof.
  intros [Hnd Hget]. unfold ManagerTab.tallyWorkload.
  split; [now apply mapSet_NoDup|].
  intros a. rewrite existsb_app, workloadRow_snoc. cbn [existsb].
  destruct (String.eqb_spec (assignee t) a) as [<-|Hne].
  - rewrite mapGet_mapSet_eq, orb_true_r. f_equal. f_equal.
    rewrite Hget. destruct (existsb _ seen) eqn:E; cbn [default from_option id]; [reflexivity|].
    symmetry. now apply workloadRow_none.
  - rewrite mapGet_mapSet_ne by assumption. rewrite !orb_false_r. apply Hget.
Qed.

Lemma tallyWorkload_fold (tasks seen : list Task) (m : JsMap WorkloadRow.t) :
  workloadTallied m seen ->
  workloadTallied (fold_left ManagerTab.tallyWorkload tasks m) (seen ++ tasks)%list.
Proof.
  revert seen m. induction tasks as [|t tasks IH]; intros seen m H; cbn [fold_left].
  - now rewrite app_nil_r.
  - replace (seen ++ t :: tasks)%list with ((seen ++ [t]) ++ tasks)%list
      by (now rewrite <- app_assoc).
    apply IH. now apply tallyWorkload_step.
Qed.

Lemma tallyWorkload_all (tasks : list Task) :
  workloadTallied (fold_left ManagerTab.tallyWorkload tasks []) tasks.
Proof. apply (tallyWorkload_fold tasks [] []). split; [constructor|reflexivity]. Qed.

Lemma managerWorkloadRows_spec (localeCompare : string -> string -> Z) (tasks : list Task)
  (r : WorkloadRow.t) :
  In r (ManagerTab.managerWorkloadRows localeCompare tasks) <->
  existsb (mine (WorkloadRow.assignee r)) tasks = true
  /\ r = workloadRow tasks (WorkloadRow.assignee r).
Proof.
  unfold ManagerTab.managerWorkloadRows. rewrite In_sortBy, in_map_iff.
  destruct (tallyWorkload_all tasks) as [Hnd Hget].
  split.
  - intros ([k v] & <- & Hin). cbn [snd].
    apply In_mapGet_Some in Hin; [|assumption].
    rewrite Hget in Hin.
    destruct (existsb _ tasks) eqn:E; [|discriminate].
    injection Hin as <-. cbn [workloadRow WorkloadRow.assignee]. now rewrite E.
  - intros [E Hr].
    exists (WorkloadRow.assignee r, r). split; [reflexivity|].
    apply mapGet_Some_In. rewrite Hget, E. now f_equal.
Qed.

Lemma managerWorkloadRows_assignees (localeCompare : string -> string -> Z)
  (tasks : list Task) :
  NoDup (List.map WorkloadRow.assignee (ManagerTab.managerWorkloadRows localeCompare tasks)).
Proof.
  unfold ManagerTab.managerWorkloadRows. rewrite sortBy_Permutation.
  destruct (tallyWorkload_all tasks) as [Hnd Hget].
  assert (E : List.map WorkloadRow.assignee
                (List.map snd (fold_left ManagerTab.tallyWorkload tasks []))
              = List.map fst (fold_left ManagerTab.tallyWorkload tasks [])).
  { rewrite List.map_map. apply map_ext_in. intros [k v] Hin.
    apply (In_mapGet_Some _ _ _ Hnd) in Hin. rewrite Hget in Hin.
    destruct (existsb _ tasks); [|discriminate]. now injection Hin as <-. }
  now rewrite E.
Qed.

Lemma workload_partition (l : list Task) :
  (countWhere (fun t => (storyPoint t <=? 2)%Z) l
   + countWhere (fun t => negb (storyPoint t <=? 2)%Z && (storyPoint t =? 3)%Z) l
   + countWhere (fun t => negb (storyPoint t <=? 2)%Z && negb (storyPoint t =? 3)%Z) l)%nat
  = length l.
Proof.
  induction l as [|t l IH]; [reflexivity|]. rewrite !countWhere_cons. cbn [length].
  destruct (storyPoint t <=? 2), (storyPoint t =? 3); cbn [negb andb]; lia.
Qed.

Lemma tallyWorkload_total (tasks : list Task) (m : JsMap WorkloadRow.t) :
  list_sum (List.map WorkloadRow.total (List.map snd (fold_left ManagerTab.tallyWorkload tasks m)))
  = (list_sum (List.map WorkloadRow.total (List.map snd m)) + length tasks)%nat.
Proof.
  revert m. induction tasks as [|t tasks IH]; intros m; [cbn [fold_left length]; lia|].
  cbn [fold_left length]. rewrite IH. unfold ManagerTab.tallyWorkload.
  pose proof (mapSet_sum WorkloadRow.total m (assignee t)
                (ManagerTab.bumpWorkload (storyPoint t)
                   (default (WorkloadRow.mk (assignee t) 0 0 0 0)
                      (mapGet (assignee t) m)))) as H.
  assert (Hb : forall prev,
            WorkloadRow.total (ManagerTab.bumpWorkload (storyPoint t) prev)
            = S (WorkloadRow.total prev)).
  { intros prev. unfold ManagerTab.bumpWorkload.
    destruct (storyPoint t <=? 2); [|destruct (storyPoint t =? 3)]; reflexivity. }
  rewrite Hb in H.
  destruct (mapGet (assignee t) m); cbn [from_option id WorkloadRow.total] in *; lia.
Qed.

End Workload.

(** X26. The workload table of the manager tab has one row per assignee
    with a task labelled with the current week.  A row counts the tasks of
    its assignee among them: those of story point up to 2, unscored ones
    included, as light, those of story point 3 as medium and the others as
    heavy, so the three counts add up to the total of the row, which is at
    least one; the totals add up to the number of tasks of the current
    week. *)
Theorem manager_workload_adds_up (localeCompare : string -> string -> Z)
  (tasks : list Task) (currentWeekCode : string) :
  NoDup (List.map WorkloadRow.assignee
           (ManagerTab.managerWorkloadRows localeCompare
              (ManagerTab.managerCurrentWeekTasks tasks currentWeekCode)))
  /\ List.Forall
       (fun r =>
          r = workloadRow (ManagerTab.managerCurrentWeekTasks tasks currentWeekCode)
                (WorkloadRow.assignee r)
          /\ (WorkloadRow.light r + WorkloadRow.medium r + WorkloadRow.heavy r)%nat
             = WorkloadRow.total r
          /\ WorkloadRow.total r
             = countWhere
                 (fun t => includes currentWeekCode (weeks t)
                           && String.eqb (assignee t) (WorkloadRow.assignee r)) tasks
          /\ (0 < WorkloadRow.total r)%nat)
       (ManagerTab.managerWorkloadRows localeCompare
          (ManagerTab.managerCurrentWeekTasks tasks currentWeekCode))
  /\ list_sum
       (List.map WorkloadRow.total
          (ManagerTab.managerWorkloadRows localeCompare
             (ManagerTab.managerCurrentWeekTasks tasks currentWeekCode)))
     = countWhere (fun t => includes currentWeekCode (weeks t)) tasks.
Proof.
  split; [apply managerWorkloadRows_assignees|]. split.
  - apply List.Forall_forall. intros r [Hex Hr]%managerWorkloadRows_spec.
    split; [exact Hr|].
    remember (WorkloadRow.assignee r) as a eqn:Ha. clear Ha. subst r.
    unfold workloadRow.
    cbn [WorkloadRow.light WorkloadRow.medium WorkloadRow.heavy WorkloadRow.total].
    split; [apply workload_partition|]. split.
    + unfold ManagerTab.managerCurrentWeekTasks.
      change (length (List.filter ?p ?l)) with (countWhere p l).
      apply countWhere_filter.
    + apply existsb_exists in Hex as (t & Ht & Hsel).
      assert (Hin : In t (List.filter (fun t => String.eqb (assignee t) a)
                            (ManagerTab.managerCurrentWeekTasks tasks currentWeekCode)))
        by (apply filter_In; now split).
      destruct (List.filter _ (ManagerTab.managerCurrentWeekTasks tasks currentWeekCode));
        [destruct Hin|cbn; lia].
  - unfold ManagerTab.managerWorkloadRows.
    rewrite (list_sum_Permutation _ _
               (Permutation_map WorkloadRow.total (sortBy_Permutation _ _))).
    rewrite tallyWorkload_total. reflexivity.
Qed.

(** ** Tasks carried over several weeks *)

Lemma In_mapSet {V : Type} (m : JsMap V) (k k' : string) (v v' : V) :
  In (k', v') (mapSet k v m) -> (k' = k /\ v' = v) \/ In (k', v') m.
Proof.
  induction m as [|[k0 v0] m IH]; cbn [mapSet].
  - intros [[= <- <-]|[]]. now left.
  - destruct (String.eqb_spec k k0) as [<-|Hne].
    + intros [[= <- <-]|H]; [now left|right; now right].
    + intros [H|H]; [right; now left|].
      apply IH in H as [H|H]; [now left|right; now right].
Qed.

Lemma recordCarryOver_rows (tasks : list Task) (m : JsMap CarryOverRow.t) (k : string)
  (v : CarryOverRow.t) :
  In (k, v) (fold_left ManagerTab.recordCarryOver tasks m) ->
  In (k, v) m
  \/ exists t, In t tasks /\ carriedOver t = true /\ carryOverKey t = k /\ v = carryOverRow t.
Proof.
  revert m. induction tasks as [|t tasks IH]; intros m; cbn [fold_left]; [now left|].
  intros [Hin|(t' & Ht' & H)]%IH; [|right; exists t'; split; [now right|exact H]].
  unfold ManagerTab.recordCarryOver in Hin.
  destruct (Status_eqb (status t) inprogress) eqn:Es; cbn [negb orb] in Hin; [|now left].
  destruct (Nat.ltb_spec (length (weeks t)) 2) as [Hlt|Hge]; [now left|].
  apply In_mapSet in Hin as [[-> ->]|Hin]; [|now left].
  right. exists t. split; [now left|]. split; [|split; reflexivity].
  unfold carriedOver. rewrite Es. now apply Nat.leb_le.
Qed.

Lemma recordCarryOver_keys (tasks : list Task) (m : JsMap CarryOverRow.t) (k : string) :
  mapGet k m <> None \/ (exists t, In t tasks /\ carriedOver t = true /\ carryOverKey t = k) ->
  mapGet k (fold_left ManagerTab.recordCarryOver tasks m) <> None.
Proof.
  revert m. induction tasks as [|t tasks IH]; intros m; cbn [fold_left].
  - intros [H|(t & [] & _)]. exact H.
  - intros H. apply IH.
    unfold ManagerTab.recordCarryOver.
    destruct H as [H|(t' & [<-|Ht'] & Hc & Hk)].
    + left.
      destruct (negb (Status_eqb (status t) inprogress) || (length (weeks t) <? 2)%nat);
        [exact H|].
      destruct (string_dec (orElse (taskId t) (module t ++ "-" ++ name t)) k) as [<-|Hne].
      * now rewrite mapGet_mapSet_eq.
      * now rewrite mapGet_mapSet_ne.
    + left. unfold carriedOver in Hc. apply andb_true_iff in Hc as [Hs Hw].
      rewrite Hs. apply Nat.leb_le in Hw.
      destruct (Nat.ltb_spec (length (weeks t)) 2); [lia|]. cbn [negb orb].
      subst k. unfold carryOverKey. now rewrite mapGet_mapSet_eq.
    + right. eauto.
Qed.

(** X27. The table of tasks carried over several weeks.  Each of its rows
    is built from a task labelled with the current week that is in progress
    and has two week labels or more, and shows the week labels of that task;
    and every such task is represented: the table has a row built from a
    task with the same key. *)
Theorem carried_over_tasks_listed (localeCompare : string -> string -> Z)
  (tasks : list Task) (currentWeekCode : string) :
  List.Forall
    (fun r =>
       exists t,
         In t tasks /\ includes currentWeekCode (weeks t) = true
         /\ status t = inprogress /\ (2 <= length (weeks t))%nat
         /\ r = carryOverRow t)
    (ManagerTab.managerInProgressMultiWeek localeCompare
       (ManagerTab.managerCurrentWeekTasks tasks currentWeekCode))
  /\ List.Forall
       (fun t =>
          exists t',
            In (carryOverRow t')
              (ManagerTab.managerInProgressMultiWeek localeCompare
                 (ManagerTab.managerCurrentWeekTasks tasks currentWeekCode))
            /\ carryOverKey t' = carryOverKey t)
       (List.filter (fun t => includes currentWeekCode (weeks t) && carriedOver t) tasks).
Proof.
  unfold ManagerTab.managerInProgressMultiWeek, ManagerTab.managerCurrentWeekTasks.
  split; apply List.Forall_forall.
  - intros r. rewrite In_sortBy, in_map_iff. intros ([k v] & <- & Hin).
    apply recordCarryOver_rows in Hin as [[]|(t & [Ht Hw]%filter_In & Hc & _ & ->)].
    exists t. unfold carriedOver in Hc. apply andb_true_iff in Hc as [Hs Hl].
    apply bool_decide_eq_true in Hs. apply Nat.leb_le in Hl. now repeat split.
  - intros t [Ht [Hw Hc]%andb_true_iff]%filter_In.
    pose proof (recordCarryOver_keys
                  (List.filter (fun task => includes currentWeekCode (weeks task)) tasks)
                  [] (carryOverKey t)) as Hkey.
    destruct (mapGet (carryOverKey t)
                (fold_left ManagerTab.recordCarryOver
                   (List.filter (fun task => includes currentWeekCode (weeks task)) tasks) []))
      as [v|] eqn:E.
    + apply mapGet_Some_In in E. pose proof E as E'.
      apply recordCarryOver_rows in E' as [[]|(t' & _ & _ & Hk & ->)].
      exists t'. split; [|exact Hk]. rewrite In_sortBy, in_map_iff.
      exists (carryOverKey t, carryOverRow t'). now split.
    + exfalso. apply Hkey; [|reflexivity]. right. exists t. split; [|now split].
      apply filter_In. now split.
Qed.

(** ** Order of the comparison *)

(** X28. Under a collation that is a total order, the rows of the
    comparison come by module, within a module by assignee, and within an
    assignee the rows flagged as done in both weeks come first. *)
Theorem comparison_is_sorted (localeCompare : string -> string -> Z) (tasks : list Task)
  (compareWeekA compareWeekB : string) :
  TotalOrderCmp localeCompare ->
  StronglySorted (comparedBefore localeCompare)
    (compareRows localeCompare tasks compareWeekA compareWeekB).
Proof.
  intros collation.
  eapply StronglySorted_impl; [|now apply compareRows_sorted].
  intros a b H. cbv beta in H. rewrite compareOrder_lex in H.
  unfold comparedBefore, lexCmp, orZ, compareKey in *. cbn [fst snd] in *.
  destruct (localeCompare (CompareRow.module a) (CompareRow.module b) =? 0); [|exact H].
  destruct (localeCompare (CompareRow.assignee a) (CompareRow.assignee b) =? 0); [|exact H].
  destruct (Z.eqb_spec (flagDesc (CompareRow.invalidDoneBoth a) (CompareRow.invalidDoneBoth b)) 0);
    [lia|exact H].
Qed.

Lemma comparison_is_sorted_witness :
  StronglySorted (comparedBefore codeUnitCompare)
    (compareRows codeUnitCompare sampleTasks "W01" "W02").
Proof. apply comparison_is_sorted. exact codeUnitCompare_total_order. Defined.

(** ** The two variants of the listing *)

Lemma filter_ext_in' {A : Type} (p q : A -> bool) (l : list A) :
  (forall x, p x = q x) -> List.filter p l = List.filter q l.
Proof.
  intros H. induction l as [|x l IH]; [reflexivity|]. cbn [List.filter].
  now rewrite H, IH.
Qed.

Lemma existsb_eqb_sym (w : string) (l : list string) :
  existsb (fun week => includes week [w]) l = includes w l.
Proof.
  induction l as [|x l IH]; [reflexivity|].
  change (existsb (fun week => includes week [w]) (x :: l))
    with (includes x [w] || existsb (fun week => includes week [w]) l).
  rewrite IH. unfold includes. cbn [existsb].
  now rewrite orb_false_r, (String.eqb_sym x w).
Qed.

(** X29. With one week selected, the listing of the variant with a
    multi-week selection has the tasks, the warnings and the order of the
    listing of the first variant for that week. *)
Theorem single_week_selection_agrees (localeCompare : string -> string -> Z)
  (tasks : list Task) (week moduleFilter assigneeFilter : string) :
  week <> "all" ->
  MultiWeek.projectFiltered localeCompare tasks false [week] moduleFilter assigneeFilter
  = projectFiltered localeCompare tasks week moduleFilter assigneeFilter.
Proof.
  intros Hweek. unfold MultiWeek.projectFiltered, projectFiltered.
  unfold MultiWeek.selectedWeeksOf. cbn [length Nat.eqb orb].
  apply String.eqb_neq in Hweek. rewrite Hweek.
  f_equal. rewrite (filter_ext_in' (MultiWeek.matchesProjectFilters [week] moduleFilter assigneeFilter)
                      (matchesProjectFilters week moduleFilter assigneeFilter)).
  - apply map_ext. intros t. f_equal.
    unfold MultiWeek.staleWarning, staleWarning. cbn [existsb].
    destruct (String.eqb (previousWeek week) ""); cbn [negb andb orb]; [reflexivity|].
    apply orb_false_r.
  - intros t. unfold MultiWeek.matchesProjectFilters, matchesProjectFilters.
    cbn [length Nat.eqb orb]. now rewrite Hweek, existsb_eqb_sym.
Qed.

Lemma single_week_selection_agrees_witness :
  MultiWeek.projectFiltered codeUnitCompare sampleTasks false ["W02"] "all" "all"
  = projectFiltered codeUnitCompare sampleTasks "W02" "all" "all".
Proof. apply single_week_selection_agrees. discriminate. Defined.

(** ** Bare task keys *)

Lemma includesChar_app (c : ascii) (a b : string) :
  includesChar c (a ++ b) = includesChar c a || includesChar c b.
Proof.
  induction a as [|x a IH]; [now rewrite append_nil_l|].
  rewrite append_cons. cbn [includesChar]. now rewrite IH, orb_assoc.
Qed.

Lemma schemeAt_colon (s scheme r : string) :
  schemeAt s = Some (scheme, r) -> includesChar ":" s = true.
Proof.
  intros [-> H]%schemeAt_spec. rewrite includesChar_app. apply orb_true_iff. left.
  assert (E : forall t, includesChar ":" (toLowerCase t) = includesChar ":" t).
  { induction t as [|c t IH]; [reflexivity|]. cbn [toLowerCase mapChars includesChar].
    fold (toLowerCase t). rewrite IH. f_equal.
    destruct c as [[] [] [] [] [] [] [] []]; reflexivity. }
  rewrite <- E. now destruct H as [-> | ->].
Qed.

Lemma firstMatch_urlAt_none (s : string) :
  includesChar ":" s = false -> firstMatch urlAt s = None.
Proof.
  induction s as [|c s IH]; intros H.
  - reflexivity.
  - cbn [firstMatch].
    assert (E : urlAt (String c s) = None).
    { unfold urlAt. destruct (schemeAt (String c s)) as [[scheme r]|] eqn:Es; [|reflexivity].
      apply schemeAt_colon in Es. congruence. }
    rewrite E. apply IH. cbn [includesChar] in H. now apply orb_false_iff in H.
Qed.

Lemma allChars_includesChar (p : ascii -> bool) (c : ascii) (s : string) :
  p c = false -> allChars p s = true -> includesChar c s = false.
Proof.
  intros Hc. induction s as [|x s IH]; [reflexivity|]. cbn [allChars includesChar].
  intros [Hx Hs]%andb_true_iff. rewrite (IH Hs), orb_false_r.
  apply Ascii.eqb_neq. intros <-. congruence.
Qed.

Section BareKey.

Variables (prefix : ascii) (word digits : string).
Hypothesis prefix_letter : isLetter prefix = true.
Hypothesis word_alnum : allChars isAlnum word = true.
Hypothesis word_some : word <> "".
Hypothesis digits_digit : allChars isDigit digits = true.
Hypothesis digits_some : digits <> "".

Lemma bareKey_chars :
  allChars (fun c => isAlnum c || Ascii.eqb c "-") (bareKey prefix word digits) = true.
Proof.
  unfold bareKey. cbn [allChars]. rewrite !allChars_app. cbn [allChars].
  unfold isAlnum at 1. rewrite prefix_letter. cbn [orb andb].
  rewrite (allChars_impl isAlnum _ word), (allChars_impl isDigit _ digits);
    [reflexivity| |exact digits_digit| |exact word_alnum].
  - intros c Hc. unfold isAlnum. now rewrite Hc, orb_true_r.
  - intros c Hc. now rewrite Hc.
Qed.

Lemma keyAt_bareKey : keyAt (bareKey prefix word digits) = Some (bareKey prefix word digits).
Proof.
  unfold keyAt, bareKey. rewrite prefix_letter.
  rewrite (span_app isAlnum word ("-" ++ digits)) by (exact word_alnum || reflexivity).
  destruct word as [|a w]; [congruence|].
  change ("-" ++ digits) with (String "-" digits).
  replace digits with (digits ++ "") at 1 by apply append_nil_r.
  rewrite (span_app isDigit digits "") by (exact digits_digit || exact I).
  destruct digits as [|d ds]; [congruence|]. reflexivity.
Qed.

Lemma parseTaskKeyCell_bareKey :
  parseTaskKeyCell (Some (CStr (bareKey prefix word digits)))
  = mkKeyInfo (toUpperCase (bareKey prefix word digits)) "".
Proof.
  pose proof bareKey_chars as Hchars.
  unfold parseTaskKeyCell. cbn [toText].
  assert (Htrim : trim (bareKey prefix word digits) = bareKey prefix word digits).
  { apply trim_no_space. eapply allChars_impl; [|exact Hchars].
    intros c Hc. cbv beta in Hc.
    destruct c as [[] [] [] [] [] [] [] []]; try reflexivity; discriminate Hc. }
  rewrite Htrim.
  assert (Hmd : matchMarkdown (bareKey prefix word digits) = None).
  { unfold bareKey, matchMarkdown.
    destruct prefix as [[] [] [] [] [] [] [] []]; try reflexivity; discriminate prefix_letter. }
  rewrite Hmd.
  rewrite firstMatch_urlAt_none.
  - assert (Hkey : firstMatch keyAt (bareKey prefix word digits)
                   = Some (bareKey prefix word digits)).
    { unfold bareKey at 1. cbn [firstMatch]. fold (bareKey prefix word digits).
      now rewrite keyAt_bareKey. }
    now rewrite Hkey.
  - apply (allChars_includesChar (fun c => isAlnum c || Ascii.eqb c "-")); [reflexivity|].
    exact Hchars.
Qed.

End BareKey.

(** X30. A key cell that holds just a task key, a letter, one or more
    letters or digits, a hyphen and one or more digits, gives that key in
    upper case as task id, and no link. *)
Theorem bare_key_is_upper_cased (prefix : ascii) (word digits : string) :
  isLetter prefix = true ->
  allChars isAlnum word = true -> word <> "" ->
  allChars isDigit digits = true -> digits <> "" ->
  parseTaskKeyCell (Some (CStr (bareKey prefix word digits)))
  = mkKeyInfo (toUpperCase (bareKey prefix word digits)) "".
Proof. apply parseTaskKeyCell_bareKey. Qed.

Lemma bare_key_is_upper_cased_witness :
  parseTaskKeyCell (Some (CStr (bareKey "p" "roj" "12")))
  = mkKeyInfo (toUpperCase (bareKey "p" "roj" "12")) "".
Proof.
  apply bare_key_is_upper_cased; [reflexivity|reflexivity|discriminate|reflexivity|discriminate].
Defined.

